(** * ThirdEye: the YOLO post-processing core of [detect.py]

    A shallow embedding of [yolo_filter_boxes], [yolo_non_max_suppression],
    [yolo_boxes_to_corners], [yolo_eval] and [predict], together with a
    reference semantics of the TensorFlow operations they call.

    - Numbers are an abstract type with the operations the code uses
      (class [Numeric]); order laws are separate hypotheses ([NumericLaws]).
    - A tensor is a shape together with its row-major buffer, as the
      numeric library stores it.
    - Python exceptions are the [Err] case of [result]; a call runs in the
      state-and-error monad [M], so that what a call does to the
      interpreter state is part of what is proved. *)

From Stdlib Require Import String.
From Stdlib Require Import Arith ZArith QArith Bool Lia List Sorted Permutation.
Import ListNotations.

Set Implicit Arguments.
Local Open Scope nat_scope.
Local Open Scope list_scope.

(* ================================================================== *)
(** ** Numbers *)

(** The float operations used by the code and by the kernels it calls. *)
Class Numeric (num : Type) : Type := {
  of_Q : Q -> num;                 (* a literal such as [2.] or [0.5] *)
  nadd : num -> num -> num;
  nsub : num -> num -> num;
  nmul : num -> num -> num;
  ndiv : num -> num -> num;
  neg_inf : num;                   (* float('-inf') *)
  leb : num -> num -> bool;        (* a <= b *)
  ltb : num -> num -> bool;        (* a <  b *)
}.

(** The order laws that hold of numbers that are not NaN. *)
Class NumericLaws (num : Type) `{Numeric num} : Prop := {
  leb_total : forall a b, leb a b = true \/ leb b a = true;
  leb_trans : forall a b c, leb a b = true -> leb b c = true -> leb a c = true;
  ltb_leb : forall a b, ltb a b = negb (leb b a);
}.
Arguments NumericLaws num {_}.

Section NumericOps.
Context {num : Type} `{Numeric num}.

Definition geb (a b : num) : bool := leb b a.
Definition zero : num := of_Q 0.
Definition one : num := of_Q 1.
(** [std::max(a, b)] and [std::min(a, b)]. *)
Definition nmax (a b : num) : num := if ltb a b then b else a.
Definition nmin (a b : num) : num := if ltb b a then b else a.
End NumericOps.

(* ================================================================== *)
(** ** Exceptions and the call monad *)

Inductive exn : Type :=
| ValueError (msg : string)
| IndexError (msg : string)
| KeyError (msg : string)
| InvalidArgumentError (msg : string).

Inductive result (A : Type) : Type :=
| Ok (a : A)
| Err (e : exn).
Arguments Ok {A} a.
Arguments Err {A} e.

Module CallMonad.
Section WithState.
(** The interpreter state a call could read or write: module globals,
    the objects its arguments point to. *)
Variable St : Type.

Definition M (A : Type) : Type := St -> result A * St.

Definition ret {A} (a : A) : M A := fun st => (Ok a, st).

Definition bind {A B} (m : M A) (k : A -> M B) : M B :=
  fun st =>
    match m st with
    | (Ok a, st') => k a st'
    | (Err e, st') => (Err e, st')
    end.

(** A call of a library operation: its value or the exception it
    raises, the interpreter state untouched. *)
Definition call {A} (r : result A) : M A := fun st => (r, st).

(** [m] returns [v] and leaves the state as it found it. *)
Definition returns {A} (m : M A) (v : A) : Prop :=
  forall st, m st = (Ok v, st).

(** [m] behaves as the state-independent outcome [r]. *)
Definition outcome {A} (m : M A) (r : result A) : Prop :=
  forall st, m st = (r, st).

(** [m] has one outcome whatever the state, and leaves the state as it
    found it. *)
Definition stateless {A} (m : M A) : Prop := exists r, outcome m r.
End WithState.
End CallMonad.
Import CallMonad.

Declare Scope call_scope.
Delimit Scope call_scope with call.
Notation "x <- m ;; k" := (bind m (fun x => k))
  (at level 61, m at next level, right associativity) : call_scope.
Notation "' pat <- m ;; k" := (bind m (fun x => match x with pat => k end))
  (at level 61, pat pattern, m at next level, right associativity) : call_scope.

(* ================================================================== *)
(** ** Lists as rows of a buffer *)

Section ListOps.
Context {A B C : Type}.

Fixpoint map2 (f : A -> B -> C) (l1 : list A) (l2 : list B) : list C :=
  match l1, l2 with
  | a :: r1, b :: r2 => f a b :: map2 f r1 r2
  | _, _ => []
  end.

(** [n] consecutive rows of [c] entries each. *)
Fixpoint chunks (n c : nat) (l : list A) : list (list A) :=
  match n with
  | O => []
  | S n' => firstn c l :: chunks n' c (skipn c l)
  end.

(** The rows whose mask entry is [true]. *)
Fixpoint select (mask : list bool) (rows : list A) : list A :=
  match mask, rows with
  | m :: mask', r :: rows' =>
      if m then r :: select mask' rows' else select mask' rows'
  | _, _ => []
  end.

Fixpoint unsnoc (l : list A) : option (list A * A) :=
  match l with
  | [] => None
  | [a] => Some ([], a)
  | a :: r => match unsnoc r with
              | Some (r', z) => Some (a :: r', z)
              | None => None
              end
  end.
End ListOps.

(* ================================================================== *)
(** ** Tensors *)

Record tensor (A : Type) : Type := mkTensor {
  shape : list nat;
  buf : list A;          (* row-major *)
}.
Arguments mkTensor {A} shape buf.

Definition size (s : list nat) : nat := fold_right Nat.mul 1 s.

(** The buffer holds exactly the entries the shape announces. *)
Definition wf {A} (t : tensor A) : Prop := length (buf t) = size (shape t).

(** The cells of a tensor whose last axis has [c] entries. *)
Definition cells {A} (s : list nat) (c : nat) (t : tensor A) : list (list A) :=
  chunks (size s) c (buf t).

(* ================================================================== *)
(** ** The TensorFlow operations the code calls

    A reference semantics over shape-and-buffer tensors. An operation
    returns [Err] where the library raises. *)

Module tf.
Section Ops.
Context {num : Type} `{Numeric num}.

(** *** Broadcasting *)

Definition pad (r : nat) (s : list nat) : list nat :=
  repeat 1 (r - length s) ++ s.

(** The shape two shapes of one rank broadcast to, if they do. *)
Fixpoint broadcast_shape (s1 s2 : list nat) : option (list nat) :=
  match s1, s2 with
  | [], [] => Some []
  | d1 :: r1, d2 :: r2 =>
      match broadcast_shape r1 r2 with
      | Some r =>
          if d1 =? d2 then Some (d1 :: r)
          else if d1 =? 1 then Some (d2 :: r)
          else if d2 =? 1 then Some (d1 :: r)
          else None
      | None => None
      end
  | _, _ => None
  end.

(** The buffer of [f a b] for buffers of shapes [s1] and [s2]: along an
    axis both have, entry meets entry; along an axis of extent 1 the one
    entry meets every entry of the other. *)
Fixpoint bcast {A B C} (f : A -> B -> C) (s1 s2 : list nat)
         (b1 : list A) (b2 : list B) : list C :=
  match s1, s2 with
  | d1 :: r1, d2 :: r2 =>
      let c1 := chunks d1 (size r1) b1 in
      let c2 := chunks d2 (size r2) b2 in
      if d1 =? d2 then concat (map2 (bcast f r1 r2) c1 c2)
      else if d1 =? 1
           then concat (map (fun y => bcast f r1 r2 (hd [] c1) y) c2)
           else concat (map (fun x => bcast f r1 r2 x (hd [] c2)) c1)
  | _, _ => map2 f b1 b2
  end.

(** An elementwise binary operation with broadcasting. *)
Definition binary {A B C} (f : A -> B -> C) (a : tensor A) (b : tensor B)
  : result (tensor C) :=
  let r := Nat.max (length (shape a)) (length (shape b)) in
  let s1 := pad r (shape a) in
  let s2 := pad r (shape b) in
  match broadcast_shape s1 s2 with
  | Some s => Ok (mkTensor s (bcast f s1 s2 (buf a) (buf b)))
  | None => Err (InvalidArgumentError "Incompatible shapes")
  end.

Definition multiply : tensor num -> tensor num -> result (tensor num) :=
  binary nmul.
Definition add : tensor num -> tensor num -> result (tensor num) :=
  binary nadd.
Definition subtract : tensor num -> tensor num -> result (tensor num) :=
  binary nsub.

(** A tensor against a Python scalar: the shape stays. *)
Definition scalar {A B C} (f : A -> B -> C) (a : tensor A) (c : B)
  : tensor C :=
  mkTensor (shape a) (map (fun x => f x c) (buf a)).

Definition divide_scalar (a : tensor num) (c : num) : result (tensor num) :=
  Ok (scalar ndiv a c).
Definition greater_equal_scalar (a : tensor num) (c : num)
  : result (tensor bool) :=
  Ok (scalar geb a c).

(** *** Reductions over the last axis *)

Fixpoint max_from (best : num) (row : list num) : num :=
  match row with
  | [] => best
  | x :: r => if ltb best x then max_from x r else max_from best r
  end.

(** The maximum of a row; of an empty row, [-inf]. *)
Definition row_max (row : list num) : num :=
  match row with
  | [] => neg_inf
  | x :: r => max_from x r
  end.

Fixpoint argmax_from (best : num) (bi i : nat) (row : list num) : nat :=
  match row with
  | [] => bi
  | x :: r => if ltb best x then argmax_from x i (S i) r
              else argmax_from best bi (S i) r
  end.

(** The first index at which a row is largest. *)
Definition row_argmax (row : list num) : nat :=
  match row with
  | [] => 0
  | x :: r => argmax_from x 0 1 r
  end.

(** [tf.math.reduce_max(t, axis=-1)]. *)
Definition math_reduce_max (t : tensor num) : result (tensor num) :=
  match unsnoc (shape t) with
  | Some (s, c) => Ok (mkTensor s (map row_max (chunks (size s) c (buf t))))
  | None => Err (InvalidArgumentError "Invalid reduction dimension")
  end.

(** [tf.math.argmax(t, axis=-1)]. *)
Definition math_argmax (t : tensor num) : result (tensor nat) :=
  match unsnoc (shape t) with
  | Some (s, c) =>
      if c =? 0 then Err (InvalidArgumentError "Reduction axis is empty")
      else Ok (mkTensor s (map row_argmax (chunks (size s) c (buf t))))
  | None => Err (InvalidArgumentError "Expected dimension in the range")
  end.

(** *** Masking, gathering, slicing, concatenating *)

Fixpoint is_prefix (p s : list nat) : bool :=
  match p, s with
  | [], _ => true
  | a :: p', b :: s' => (a =? b) && is_prefix p' s'
  | _ :: _, [] => false
  end.

(** [tf.boolean_mask(t, mask, axis=None)]: the mask's axes are the
    leading axes of [t]; the kept entries follow in row-major order. *)
Definition boolean_mask {A} (t : tensor A) (mask : tensor bool)
  : result (tensor A) :=
  match shape mask with
  | [] => Err (ValueError "mask cannot be scalar")
  | _ =>
      if is_prefix (shape mask) (shape t) then
        let rest := skipn (length (shape mask)) (shape t) in
        let rows := chunks (size (shape mask)) (size rest) (buf t) in
        let kept := select (buf mask) rows in
        Ok (mkTensor (length kept :: rest) (concat kept))
      else Err (ValueError "Shapes are incompatible")
  end.

(** [tf.gather(params, indices)] along axis 0. *)
Definition gather {A} (params : tensor A) (indices : tensor nat)
  : result (tensor A) :=
  match shape params with
  | [] => Err (ValueError "params must be at least 1 dimensional")
  | d :: rest =>
      if forallb (fun i => i <? d) (buf indices) then
        let rows := chunks d (size rest) (buf params) in
        Ok (mkTensor (shape indices ++ rest)
                     (flat_map (fun i => nth i rows []) (buf indices)))
      else Err (InvalidArgumentError "indices out of range")
  end.

(** [t[..., a:b]] with the bounds clamped as Python slices are. *)
Definition slice_last {A} (a b : nat) (t : tensor A) : result (tensor A) :=
  match unsnoc (shape t) with
  | Some (s, c) =>
      let lo := Nat.min a c in
      let hi := Nat.min b c in
      Ok (mkTensor (s ++ [hi - lo])
                   (flat_map (fun row => firstn (hi - lo) (skipn lo row))
                             (chunks (size s) c (buf t))))
  | None =>
      Err (InvalidArgumentError
             "Index out of range using input dim 1; input has only 0 dims")
  end.

(** Two tensors joined along the last axis. *)
Definition concat2 {A} (a b : tensor A) : result (tensor A) :=
  match unsnoc (shape a), unsnoc (shape b) with
  | Some (sa, ca), Some (sb, cb) =>
      if list_eq_dec Nat.eq_dec sa sb then
        Ok (mkTensor (sa ++ [ca + cb])
                     (concat (map2 (@app A) (chunks (size sa) ca (buf a))
                                            (chunks (size sa) cb (buf b)))))
      else Err (InvalidArgumentError "Dimensions of inputs should match")
  | _, _ => Err (InvalidArgumentError "Cannot concatenate scalars")
  end.

Fixpoint concat_onto {A} (acc : tensor A) (ts : list (tensor A))
  : result (tensor A) :=
  match ts with
  | [] => Ok acc
  | t :: r => match concat2 acc t with
              | Ok acc' => concat_onto acc' r
              | Err e => Err e
              end
  end.

(** [tf.keras.backend.concatenate(ts)], whose axis defaults to the last. *)
Definition keras_backend_concatenate {A} (ts : list (tensor A))
  : result (tensor A) :=
  match ts with
  | [] => Err (ValueError "List argument must have at least 1 input")
  | t :: r => concat_onto t r
  end.

(** *** Non-max suppression *)

(** Intersection over union of two boxes given by opposite corners. *)
Definition IOU (bi bj : list num) : num :=
  let c k b := nth k b zero in
  let ymin_i := nmin (c 0 bi) (c 2 bi) in
  let xmin_i := nmin (c 1 bi) (c 3 bi) in
  let ymax_i := nmax (c 0 bi) (c 2 bi) in
  let xmax_i := nmax (c 1 bi) (c 3 bi) in
  let ymin_j := nmin (c 0 bj) (c 2 bj) in
  let xmin_j := nmin (c 1 bj) (c 3 bj) in
  let ymax_j := nmax (c 0 bj) (c 2 bj) in
  let xmax_j := nmax (c 1 bj) (c 3 bj) in
  let area_i := nmul (nsub ymax_i ymin_i) (nsub xmax_i xmin_i) in
  let area_j := nmul (nsub ymax_j ymin_j) (nsub xmax_j xmin_j) in
  if leb area_i zero || leb area_j zero then zero
  else
    let iymin := nmax ymin_i ymin_j in
    let ixmin := nmax xmin_i xmin_j in
    let iymax := nmin ymax_i ymax_j in
    let ixmax := nmin xmax_i xmax_j in
    let inter := nmul (nmax (nsub iymax iymin) zero)
                      (nmax (nsub ixmax ixmin) zero) in
    ndiv inter (nsub (nadd area_i area_j) inter).

(** The candidate queue: higher score first, lower index first among
    equal scores. *)
Fixpoint enqueue (x : nat * num) (q : list (nat * num)) : list (nat * num) :=
  match q with
  | [] => [x]
  | y :: r => if ltb (snd x) (snd y) then y :: enqueue x r else x :: q
  end.

Definition candidates (scores : list num) : list (nat * num) :=
  filter (fun x => ltb neg_inf (snd x))
         (combine (seq 0 (length scores)) scores).

Definition queue_of (scores : list num) : list (nat * num) :=
  fold_right enqueue [] (candidates scores).

Definition overlaps (rows : list (list num)) (iou_threshold : num)
           (i j : nat) : bool :=
  ltb iou_threshold (IOU (nth i rows []) (nth j rows [])).

(** The selection loop: the best remaining candidate is selected unless
    it overlaps a box selected before it. *)
Fixpoint nms_loop (rows : list (list num)) (iou_threshold : num)
         (output_size : nat) (queue : list (nat * num))
         (selected : list nat) : list nat :=
  match queue with
  | [] => selected
  | (i, _) :: rest =>
      if length selected <? output_size then
        if existsb (overlaps rows iou_threshold i) selected
        then nms_loop rows iou_threshold output_size rest selected
        else nms_loop rows iou_threshold output_size rest (selected ++ [i])
      else selected
  end.

(** [max_output_size] reaches the kernel as an [int32] scalar: of a
    Python integer the low 32 bits are kept and read as a signed number. *)
Definition int32 (z : Z) : Z := ((z + 2 ^ 31) mod 2 ^ 32 - 2 ^ 31)%Z.

(** The indices selected among [n] boxes, in the order of selection: at
    most the smaller of [max_output_size], as an [int32], and [n]. *)
Definition selection (n : nat) (boxes scores : list num)
           (max_output_size : Z) (iou_threshold : num) : list nat :=
  nms_loop (chunks n 4 boxes) iou_threshold
           (Z.to_nat (Z.min (int32 max_output_size) (Z.of_nat n)))
           (queue_of scores) [].

(** [tf.image.non_max_suppression(boxes, scores, max_output_size,
    iou_threshold)], the score threshold at its default [-inf]. The
    Python integer [max_output_size] is first made an [int32] tensor: an
    integer of more than 64 bits is refused, any other is reduced to its
    low 32 bits, so that [2 ^ 32 + 1] counts as 1, [2 ^ 31] as [- 2 ^ 31]
    and [- 2 ^ 31 - 1] as [2 ^ 31 - 1]. *)
Definition image_non_max_suppression (boxes scores : tensor num)
           (max_output_size : Z) (iou_threshold : num)
  : result (tensor nat) :=
  if negb ((- 2 ^ 63 <=? max_output_size)%Z
           && (max_output_size <? 2 ^ 63)%Z) then
    Err (ValueError
           "Can't convert Python sequence with out-of-range integer to Tensor.")
  else
  match shape boxes, shape scores with
  | [n; c], [n'] =>
      if negb (c =? 4) then
        Err (InvalidArgumentError "boxes must have 4 columns")
      else if negb (n =? n') then
        Err (InvalidArgumentError "scores has incompatible shape")
      else if (int32 max_output_size <? 0)%Z then
        Err (InvalidArgumentError "max_output_size must be non-negative")
      else if negb (leb zero iou_threshold && leb iou_threshold one) then
        Err (InvalidArgumentError "iou_threshold must be in [0, 1]")
      else
        let selected :=
          selection n (buf boxes) (buf scores) max_output_size
                    iou_threshold
        in Ok (mkTensor [length selected] selected)
  | [_; _], _ => Err (InvalidArgumentError "scores must be 1-D")
  | _, _ => Err (InvalidArgumentError "boxes must be 2-D")
  end.
End Ops.
End tf.

(* ================================================================== *)
(** ** detect.py *)

Local Open Scope call_scope.

Section Detect.
Context {num : Type} `{Numeric num}.
Variable St : Type.

(** [scale_boxes] of [yad2k.utils.utils], whose text is not part of
    [detect.py]: a parameter of the development. *)
Variable scale_boxes : tensor num -> list Z -> result (tensor num).

Definition outputs : Type := (tensor num * tensor num * tensor nat)%type.

(** [def yolo_filter_boxes(boxes, box_confidence, box_class_probs,
    threshold = 0.6)] *)
Definition yolo_filter_boxes
           (boxes box_confidence box_class_probs : tensor num)
           (threshold : num) : M St outputs :=
  box_scores <- call (tf.multiply box_confidence box_class_probs) ;;
  box_classes <- call (tf.math_argmax box_scores) ;;
  box_class_scores <- call (tf.math_reduce_max box_scores) ;;
  filtering_mask <-
    call (tf.greater_equal_scalar box_class_scores threshold) ;;
  scores <- call (tf.boolean_mask box_class_scores filtering_mask) ;;
  boxes <- call (tf.boolean_mask boxes filtering_mask) ;;
  classes <- call (tf.boolean_mask box_classes filtering_mask) ;;
  ret (scores, boxes, classes).

(** [def yolo_non_max_suppression(scores, boxes, classes, max_boxes = 10,
    iou_threshold = 0.5)] *)
Definition yolo_non_max_suppression
           (scores boxes : tensor num) (classes : tensor nat)
           (max_boxes : Z) (iou_threshold : num) : M St outputs :=
  nms_indices <-
    call (tf.image_non_max_suppression boxes scores max_boxes
                                       iou_threshold) ;;
  scores <- call (tf.gather scores nms_indices) ;;
  boxes <- call (tf.gather boxes nms_indices) ;;
  classes <- call (tf.gather classes nms_indices) ;;
  ret (scores, boxes, classes).

(** [def yolo_boxes_to_corners(box_xy, box_wh)] *)
Definition yolo_boxes_to_corners (box_xy box_wh : tensor num)
  : M St (tensor num) :=
  half <- call (tf.divide_scalar box_wh (of_Q 2)) ;;
  box_mins <- call (tf.subtract box_xy half) ;;
  half' <- call (tf.divide_scalar box_wh (of_Q 2)) ;;
  box_maxes <- call (tf.add box_xy half') ;;
  y_min <- call (tf.slice_last 1 2 box_mins) ;;
  x_min <- call (tf.slice_last 0 1 box_mins) ;;
  y_max <- call (tf.slice_last 1 2 box_maxes) ;;
  x_max <- call (tf.slice_last 0 1 box_maxes) ;;
  call (tf.keras_backend_concatenate [y_min; x_min; y_max; x_max]).

(** [a, b, c, d = xs] *)
Definition unpack4 {A} (xs : list A) : result (A * A * A * A) :=
  match xs with
  | [a; b; c; d] => Ok (a, b, c, d)
  | a :: b :: c :: d :: _ :: _ =>
      Err (ValueError "too many values to unpack (expected 4)")
  | [_; _; _] =>
      Err (ValueError "not enough values to unpack (expected 4, got 3)")
  | [_; _] =>
      Err (ValueError "not enough values to unpack (expected 4, got 2)")
  | [_] =>
      Err (ValueError "not enough values to unpack (expected 4, got 1)")
  | [] =>
      Err (ValueError "not enough values to unpack (expected 4, got 0)")
  end.

(** [def yolo_eval(yolo_outputs, image_shape = (720, 1280), max_boxes=10,
    score_threshold = 0.6, iou_threshold=0.5)] *)
Definition yolo_eval (yolo_outputs : list (tensor num))
           (image_shape : list Z) (max_boxes : Z)
           (score_threshold iou_threshold : num) : M St outputs :=
  '(box_xy, box_wh, box_confidence, box_class_probs) <-
    call (unpack4 yolo_outputs) ;;
  boxes <- yolo_boxes_to_corners box_xy box_wh ;;
  '(scores, boxes, classes) <-
    yolo_filter_boxes boxes box_confidence box_class_probs iou_threshold ;;
  boxes <- call (scale_boxes boxes image_shape) ;;
  '(scores, boxes, classes) <-
    yolo_non_max_suppression scores boxes classes max_boxes iou_threshold ;;
  ret (scores, boxes, classes).

(** *** [predict] and what it is given *)

Variables Frame Image ModelOutputs Colors Anchors : Type.
(** The module globals [class_names], [anchors] and [yolo_model], read
    from the interpreter state. *)
Variable class_names : St -> list string.
Variable anchors : St -> Anchors.
Variable yolo_model : tensor num -> M St ModelOutputs.
Variable preprocess_image : Frame -> Z * Z -> M St (Image * tensor num).
Variable image_size : Image -> Z * Z.
Variable getitem : ModelOutputs -> string -> result (tensor num).
Variable yolo_head :
  tensor num -> Anchors -> nat -> M St (list (tensor num)).
Variable get_colors_for_classes : nat -> M St Colors.
Variable draw_boxes :
  Image -> tensor num -> tensor nat -> list string -> tensor num ->
  M St Frame.

Definition read {A} (g : St -> A) : M St A := fun st => (Ok (g st), st).

(** The body of [predict], the two threshold literals of its call of
    [yolo_eval] named. *)
Definition predict_with (score_threshold iou_threshold : num)
           (numpy_image : Frame) : M St Frame :=
  '(image, image_data) <- preprocess_image numpy_image (608, 608)%Z ;;
  yolo_model_outputs <- yolo_model image_data ;;
  conv <- call (getitem yolo_model_outputs "conv2d_22") ;;
  anchors_ <- read anchors ;;
  class_names_ <- read class_names ;;
  yolo_outputs <- yolo_head conv anchors_ (length class_names_) ;;
  '(out_scores, out_boxes, out_classes) <-
    yolo_eval yolo_outputs
              [snd (image_size image); fst (image_size image)] 10%Z
              score_threshold iou_threshold ;;
  class_names_ <- read class_names ;;
  colors <- get_colors_for_classes (length class_names_) ;;
  class_names_ <- read class_names ;;
  draw_boxes image out_boxes out_classes class_names_ out_scores.

(** [def predict(numpy_image)]: the call is
    [yolo_eval(yolo_outputs, [image.size[1], image.size[0]], 10, 0.3, 0.5)]. *)
Definition predict : Frame -> M St Frame :=
  predict_with (of_Q (3 # 10)) (of_Q (5 # 10)).
End Detect.

(** The exception [e] arises at the call [r], or [r] returns and [e]
    arises in what follows. *)
Definition first_error {A : Type} (r : result A) (e : exn)
           (rest : A -> Prop) : Prop :=
  r = Err e \/ exists a, r = Ok a /\ rest a.

(** [l] is [l'] with some entries left out, the order kept. *)
Inductive Subseq {A : Type} : list A -> list A -> Prop :=
| Subseq_nil : Subseq [] []
| Subseq_skip (x : A) (l l' : list A) : Subseq l l' -> Subseq l (x :: l')
| Subseq_take (x : A) (l l' : list A) :
    Subseq l l' -> Subseq (x :: l) (x :: l').

(* ================================================================== *)
(** ** What the claims say, in their own words *)

Section Reference.
Context {num : Type} `{Numeric num}.

(** The corners of one box: the minimum corner is the centre minus half
    the size, the maximum corner the centre plus half the size, in the
    order (y_min, x_min, y_max, x_max); [xy] is (x, y), [wh] is (w, h). *)
Definition corners_of (xy wh : list num) : list num :=
  let x := nth 0 xy zero in
  let y := nth 1 xy zero in
  let w := nth 0 wh zero in
  let h := nth 1 wh zero in
  [ nsub y (ndiv h (of_Q 2)); nsub x (ndiv w (of_Q 2));
    nadd y (ndiv h (of_Q 2)); nadd x (ndiv w (of_Q 2)) ].

(** The class scores of one grid cell: its confidence times each class
    probability. *)
Definition cell_scores (confidence : num) (class_probs : list num)
  : list num :=
  map (nmul confidence) class_probs.

(** [m] is a greatest entry of [row]. *)
Definition is_maximum (row : list num) (m : num) : Prop :=
  In m row /\ forall x, In x row -> leb x m = true.

(** The cells a threshold keeps, by index, in grid order. *)
Definition kept_cells (threshold : num) (confidence : list num)
           (class_probs : list (list num)) : list nat :=
  filter (fun i => geb (tf.row_max (cell_scores (nth i confidence zero)
                                                (nth i class_probs [])))
                       threshold)
         (seq 0 (length class_probs)).

(** The rows of [t] along its first axis at the indices [sel], in the
    order of [sel]; the other axes stay as they are. *)
Definition gathered {A} (t : tensor A) (sel : list nat) : tensor A :=
  mkTensor (length sel :: tl (shape t))
           (flat_map (fun i => nth i (chunks (hd 0 (shape t))
                                             (size (tl (shape t)))
                                             (buf t)) [])
                     sel).

(** [j] stands before [i] in a list of indices. *)
Definition earlier (sel : list nat) (j i : nat) : Prop :=
  exists pre mid post, sel = pre ++ j :: mid ++ i :: post.

(** [a] may stand before [b] in the queue: its score is not lower. *)
Definition not_lower (a b : nat * num) : Prop := leb (snd b) (snd a) = true.
End Reference.

(* ================================================================== *)
(** ** A number system and a rescaling to run the code on *)

(** Rationals with a least element, standing for the floats without NaN. *)
Inductive xrat : Type :=
| NegInf
| Fin (q : Q).

Definition xrat_lift (f : Q -> Q -> Q) (a b : xrat) : xrat :=
  match a, b with
  | Fin x, Fin y => Fin (f x y)
  | _, _ => NegInf
  end.

Definition xrat_leb (a b : xrat) : bool :=
  match a, b with
  | NegInf, _ => true
  | Fin _, NegInf => false
  | Fin x, Fin y => Qle_bool x y
  end.

#[export] Instance xrat_numeric : Numeric xrat := {|
  of_Q := Fin;
  nadd := xrat_lift Qplus;
  nsub := xrat_lift Qminus;
  nmul := xrat_lift Qmult;
  ndiv := xrat_lift Qdiv;
  neg_inf := NegInf;
  leb := xrat_leb;
  ltb := fun a b => negb (xrat_leb b a);
|}.

(** Boxes times (height, width, height, width): a rescaling to the image
    shape, to stand for the parameter [scale_boxes] where one is needed. *)
Definition scale_by_image_dims {num} `{Numeric num}
           (boxes : tensor num) (image_shape : list Z)
  : result (tensor num) :=
  match image_shape with
  | height :: width :: _ =>
      let f z := of_Q (inject_Z z) in
      tf.multiply boxes
                  (mkTensor [1; 4] [f height; f width; f height; f width])
  | _ => Err (IndexError "list index out of range")
  end.

(** A 1 x 2 grid with one anchor and three classes. *)
Definition ex_xy : tensor xrat :=
  mkTensor [1; 2; 1; 2] (map Fin [1 # 2; 1 # 2; 3 # 5; 1 # 2]).
Definition ex_wh : tensor xrat :=
  mkTensor [1; 2; 1; 2] (map Fin [1 # 2; 1 # 4; 1 # 2; 1 # 4]).
Definition ex_confidence : tensor xrat :=
  mkTensor [1; 2; 1; 1] (map Fin [9 # 10; 8 # 10]).
Definition ex_class_probs : tensor xrat :=
  mkTensor [1; 2; 1; 3] (map Fin [1 # 10; 8 # 10; 1 # 10;
                                  2 # 10; 7 # 10; 1 # 10]).
(** The corners of the two cells above. *)
Definition ex_boxes : tensor xrat :=
  mkTensor [1; 2; 1; 4] (map Fin [3 # 8; 1 # 4; 5 # 8; 3 # 4;
                                  3 # 8; 7 # 20; 5 # 8; 17 # 20]).

(** Three scored boxes: the first two overlap, the third stands apart. *)
Definition ex_nms_scores : tensor xrat :=
  mkTensor [3] (map Fin [6 # 10; 9 # 10; 7 # 10]).
Definition ex_nms_boxes : tensor xrat :=
  mkTensor [3; 4] (map Fin [0 # 1; 0 # 1; 2 # 1; 2 # 1;
                            0 # 1; 0 # 1; 2 # 1; 22 # 10;
                            5 # 1; 5 # 1; 6 # 1; 6 # 1]).
Definition ex_nms_classes : tensor nat := mkTensor [3] [7; 7; 2].

(** Class probabilities over a grid of three cells, against the two cells
    of the confidences above. *)
Definition ex_bad_class_probs : tensor xrat :=
  mkTensor [1; 3; 1; 3] (map Fin [1 # 10; 8 # 10; 1 # 10;
                                  2 # 10; 7 # 10; 1 # 10;
                                  3 # 10; 3 # 10; 4 # 10]).

(** ** Further examples *)


(** Other classes for the three scored boxes. *)
Definition ex_nms_other_classes : tensor nat := mkTensor [3] [0; 1; 2].

(** Sizes over a grid of three cells, against the two cells of the centres
    above. *)
Definition ex_bad_wh : tensor xrat :=
  mkTensor [1; 3; 1; 2] (map Fin [1 # 2; 1 # 4; 1 # 2; 1 # 4; 1 # 2; 1 # 4]).

(** Class probabilities for no class at all. *)
Definition ex_no_class_probs : tensor xrat := mkTensor [1; 2; 1; 0] [].

(** Centres and sizes with a third entry per cell. *)
Definition ex_wide_xy : tensor xrat :=
  mkTensor [1; 2; 1; 3] (map Fin [1 # 2; 1 # 2; 7 # 1; 3 # 2; 1 # 2; 9 # 1]).
Definition ex_wide_wh : tensor xrat :=
  mkTensor [1; 2; 1; 3] (map Fin [1 # 1; 1 # 1; 5 # 1; 1 # 2; 1 # 2; 3 # 1]).

(** Centres and sizes with a single entry per cell. *)
Definition ex_narrow_xy : tensor xrat :=
  mkTensor [1; 2; 1; 1] (map Fin [1 # 2; 3 # 2]).
Definition ex_narrow_wh : tensor xrat :=
  mkTensor [1; 2; 1; 1] (map Fin [1 # 1; 1 # 2]).

(** Stand-ins for what [predict] is given, each adding its name to a log
    of calls kept in the state: an image of 1280 x 720 points, a model
    with the outputs [outs], a head with the tensors [ts]. *)
Definition ex_log (name : string) {A} (a : A) : M (list string) A :=
  fun st => (Ok a, st ++ [name]).

Definition ex_preprocess_image (numpy_image : nat) (model_image_size : Z * Z)
  : M (list string) (Z * Z * tensor xrat) :=
  ex_log "preprocess_image" ((1280, 720)%Z, ex_xy).

Definition ex_yolo_model (outs : list (string * tensor xrat))
           (image_data : tensor xrat)
  : M (list string) (list (string * tensor xrat)) :=
  ex_log "yolo_model" outs.

(** The lookup [outs[key]]; a missing key is an error. *)
Definition ex_getitem (outs : list (string * tensor xrat)) (key : string)
  : result (tensor xrat) :=
  match find (fun kv => String.eqb (fst kv) key) outs with
  | Some kv => Ok (snd kv)
  | None => Err (KeyError key)
  end.

Definition ex_yolo_head (ts : list (tensor xrat)) (feats : tensor xrat)
           (anchors : unit) (num_classes : nat)
  : M (list string) (list (tensor xrat)) :=
  ex_log "yolo_head" ts.

Definition ex_get_colors_for_classes (num_classes : nat)
  : M (list string) nat :=
  ex_log "get_colors_for_classes" num_classes.

(** The frame drawn is stood for by the number of boxes drawn. *)
Definition ex_draw_boxes (image : Z * Z) (boxes : tensor xrat)
           (classes : tensor nat) (names : list string)
           (scores : tensor xrat) : M (list string) nat :=
  ex_log "draw_boxes" (length (buf scores)).

Definition ex_class_names (st : list string) : list string :=
  ["person"; "bicycle"; "car"]%string.

(* ================================================================== *)
(** * Proofs *)

Unset Implicit Arguments.

(* ================================================================== *)
(** ** Rows and buffers *)

Section ListFacts.
Context {A B C : Type}.

Lemma unsnoc_snoc (s : list A) (c : A) : unsnoc (s ++ [c]) = Some (s, c).
Proof.
  induction s as [|a s IH]; [reflexivity|].
  simpl. rewrite IH. destruct s; reflexivity.
Qed.

Lemma chunks_length (n c : nat) (l : list A) : length (chunks n c l) = n.
Proof. revert l; induction n; intros; simpl; auto. Qed.

Lemma chunks_concat (c : nat) (rows : list (list A)) :
  Forall (fun r => length r = c) rows ->
  chunks (length rows) c (concat rows) = rows.
Proof.
  induction 1 as [|r rows Hr _ IH]; [reflexivity|].
  simpl. rewrite firstn_app, skipn_app, Hr, Nat.sub_diag.
  rewrite firstn_all2 by lia. rewrite skipn_all2 by lia.
  simpl. rewrite app_nil_r. now rewrite IH.
Qed.

Lemma chunks_rows (n c : nat) (l : list A) :
  length l = n * c -> Forall (fun r => length r = c) (chunks n c l).
Proof.
  revert l; induction n as [|n IH]; intros l Hl; simpl; constructor.
  - rewrite length_firstn. simpl in Hl. lia.
  - apply IH. rewrite length_skipn. simpl in Hl. lia.
Qed.

Lemma concat_chunks (n c : nat) (l : list A) :
  length l = n * c -> concat (chunks n c l) = l.
Proof.
  revert l; induction n as [|n IH]; intros l Hl; simpl.
  - destruct l; [reflexivity | discriminate].
  - rewrite IH; [apply firstn_skipn|].
    rewrite length_skipn. simpl in Hl. lia.
Qed.

Lemma chunks_ones (n : nat) (l : list A) :
  length l = n -> chunks n 1 l = map (fun a => [a]) l.
Proof.
  revert l; induction n as [|n IH]; intros [|a l] Hl; try discriminate;
    [reflexivity|].
  simpl. f_equal. apply IH. simpl in Hl. lia.
Qed.

Lemma concat_rows_length (c : nat) (rows : list (list A)) :
  Forall (fun r => length r = c) rows ->
  length (concat rows) = length rows * c.
Proof.
  induction 1 as [|r rows Hr _ IH]; [reflexivity|].
  simpl. rewrite length_app, IH, Hr. reflexivity.
Qed.

Lemma map2_length (f : A -> B -> C) (l1 : list A) (l2 : list B) :
  length (map2 f l1 l2) = Nat.min (length l1) (length l2).
Proof.
  revert l2; induction l1 as [|a l1 IH]; intros [|b l2]; simpl; auto.
Qed.

Lemma map2_app (f : A -> B -> C) (l1 l1' : list A) (l2 l2' : list B) :
  length l1 = length l2 ->
  map2 f (l1 ++ l1') (l2 ++ l2') = map2 f l1 l2 ++ map2 f l1' l2'.
Proof.
  revert l2; induction l1 as [|a l1 IH]; intros [|b l2] Hl;
    try discriminate; [reflexivity|].
  simpl. f_equal. apply IH. simpl in Hl. lia.
Qed.

Lemma map2_nth (f : A -> B -> C) (l1 : list A) (l2 : list B)
      (i : nat) (a : A) (b : B) (c : C) :
  i < length l1 -> i < length l2 ->
  nth i (map2 f l1 l2) c = f (nth i l1 a) (nth i l2 b).
Proof.
  revert l2 i; induction l1 as [|x l1 IH]; intros [|y l2] [|i] H1 H2;
    simpl in *; try lia; auto.
  apply IH; lia.
Qed.

(** Entry meets entry, row by row. *)
Lemma map2_concat (f : A -> B -> C)
      (R1 : list (list A)) (R2 : list (list B)) :
  Forall2 (fun r1 r2 => length r1 = length r2) R1 R2 ->
  map2 f (concat R1) (concat R2) = concat (map2 (map2 f) R1 R2).
Proof.
  induction 1 as [|r1 r2 R1 R2 Hr _ IH]; [reflexivity|].
  simpl. rewrite map2_app by assumption. now rewrite IH.
Qed.

Lemma rows_same_length (c : nat) (R1 : list (list A)) (R2 : list (list B)) :
  length R1 = length R2 ->
  Forall (fun r => length r = c) R1 ->
  Forall (fun r => length r = c) R2 ->
  Forall2 (fun r1 r2 => length r1 = length r2) R1 R2.
Proof.
  revert R2; induction R1 as [|r1 R1 IH]; intros [|r2 R2] Hl H1 H2;
    try discriminate; constructor.
  - inversion H1; inversion H2; congruence.
  - apply IH; [simpl in Hl; lia | now inversion H1 | now inversion H2].
Qed.
End ListFacts.

Lemma size_app (s t : list nat) : size (s ++ t) = size s * size t.
Proof.
  induction s as [|d s IH]; simpl; [lia|]. rewrite IH. lia.
Qed.

Lemma size_snoc (s : list nat) (c : nat) : size (s ++ [c]) = size s * c.
Proof. rewrite size_app. simpl. lia. Qed.

Lemma chunks_add {A} (n m c : nat) (l : list A) :
  chunks (n + m) c l =
  chunks n c (firstn (n * c) l) ++ chunks m c (skipn (n * c) l).
Proof.
  revert l; induction n as [|n IH]; intros l; [reflexivity|].
  simpl. rewrite IH, firstn_firstn, skipn_skipn.
  replace (Nat.min c (c + n * c)) with c by lia.
  replace (n * c + c) with (c + n * c) by lia.
  now rewrite <- firstn_skipn_comm.
Qed.

Section ChunkFacts.
Context {A B C : Type}.

Lemma map2_ext_in (g h : A -> B -> C) (l1 : list A) (l2 : list B) :
  (forall a b, In a l1 -> In b l2 -> g a b = h a b) ->
  map2 g l1 l2 = map2 h l1 l2.
Proof.
  revert l2; induction l1 as [|a l1 IH]; intros [|b l2] E; simpl; auto.
  f_equal; [apply E; now left | apply IH].
  intros; apply E; now right.
Qed.

(** Rows of rows: regrouping [d] blocks of [n] rows is the same as
    taking the [d * n] rows. *)
Lemma map2_regroup (g : A -> list B -> list C) (d n c : nat)
      (b1 : list A) (b2 : list B) :
  length b1 = d * n ->
  concat (map2 (fun r1 r2 => concat (map2 g r1 (chunks n c r2)))
               (chunks d n b1) (chunks d (n * c) b2)) =
  concat (map2 g b1 (chunks (d * n) c b2)).
Proof.
  revert b1 b2; induction d as [|d IH]; intros b1 b2 Hl.
  - destruct b1; [reflexivity | discriminate].
  - change (S d * n) with (n + d * n) in *. rewrite chunks_add.
    cbn [chunks map2 concat].
    rewrite <- (firstn_skipn n b1) at 3.
    rewrite map2_app, concat_app.
    + f_equal. apply IH. rewrite length_skipn. lia.
    + rewrite length_firstn, chunks_length. lia.
Qed.
End ChunkFacts.

(* ================================================================== *)
(** ** Broadcasting *)

Section BroadcastFacts.
Context {A B C : Type}.

Lemma pad_full (r : nat) (s : list nat) : r <= length s -> tf.pad r s = s.
Proof.
  intros Hr. unfold tf.pad. now replace (r - length s) with 0 by lia.
Qed.

Lemma broadcast_shape_same (s : list nat) : tf.broadcast_shape s s = Some s.
Proof.
  induction s as [|d s IH]; [reflexivity|].
  simpl. now rewrite IH, Nat.eqb_refl.
Qed.

Lemma broadcast_shape_last (s : list nat) (c : nat) :
  tf.broadcast_shape (s ++ [1]) (s ++ [c]) = Some (s ++ [c]).
Proof.
  induction s as [|d s IH]; simpl.
  - destruct c as [|[|c]]; reflexivity.
  - now rewrite IH, Nat.eqb_refl.
Qed.

Lemma bcast_same (f : A -> B -> C) (s : list nat)
      (b1 : list A) (b2 : list B) :
  length b1 = size s -> length b2 = size s ->
  tf.bcast f s s b1 b2 = map2 f b1 b2.
Proof.
  revert b1 b2; induction s as [|d s IH]; intros b1 b2 H1 H2;
    [reflexivity|].
  simpl in *. rewrite Nat.eqb_refl.
  pose proof (chunks_rows d (size s) b1 H1) as R1.
  pose proof (chunks_rows d (size s) b2 H2) as R2.
  rewrite (map2_ext_in (tf.bcast f s s) (map2 f)).
  - rewrite <- map2_concat.
    + now rewrite !concat_chunks.
    + apply rows_same_length with (c := size s); auto.
      now rewrite !chunks_length.
  - intros r1 r2 I1 I2. rewrite Forall_forall in R1, R2.
    apply IH; auto.
Qed.

(** A last axis of extent 1 against a last axis of extent [c]: the one
    entry of a cell meets each of the [c] entries of the other cell. *)
Lemma bcast_last (f : A -> B -> C) (s : list nat) (c : nat)
      (b1 : list A) (b2 : list B) :
  length b1 = size s -> length b2 = size s * c ->
  tf.bcast f (s ++ [1]) (s ++ [c]) b1 b2 =
  concat (map2 (fun a row => map (f a) row) b1 (chunks (size s) c b2)).
Proof.
  revert b1 b2; induction s as [|d s IH]; intros b1 b2 H1 H2.
  - simpl in H1, H2. destruct b1 as [|a [|? ?]]; try discriminate.
    rewrite Nat.add_0_r in H2.
    cbn [app tf.bcast size fold_right].
    destruct (Nat.eqb_spec 1 c) as [<-|Hc].
    + destruct b2 as [|b [|? ?]]; try discriminate. reflexivity.
    + cbn [Nat.eqb]. rewrite (chunks_ones c b2 H2).
      cbn [chunks hd firstn map2 concat]. rewrite app_nil_r.
      rewrite firstn_all2 by lia.
      clear. induction b2 as [|b b2 IHb]; [reflexivity|].
      simpl. now rewrite IHb.
  - simpl in H1, H2.
    cbn [app tf.bcast]. rewrite Nat.eqb_refl, !size_snoc, Nat.mul_1_r.
    cbn [size fold_right]. fold (size s).
    rewrite <- map2_regroup by lia.
    f_equal. apply map2_ext_in. intros r1 r2 I1 I2.
    pose proof (chunks_rows d (size s) b1 H1) as R1.
    assert (length b2 = d * (size s * c)) as H2' by lia.
    pose proof (chunks_rows d (size s * c) b2 H2') as R2.
    rewrite Forall_forall in R1, R2. apply IH; auto.
Qed.
End BroadcastFacts.

(* ================================================================== *)
(** ** The operations on tensors of a known shape *)

Section OpFacts.
Context {num : Type} `{Numeric num}.

Lemma binary_same {A B C} (f : A -> B -> C) (s : list nat)
      (a : tensor A) (b : tensor B) :
  shape a = s -> shape b = s -> wf a -> wf b ->
  tf.binary f a b = Ok (mkTensor s (map2 f (buf a) (buf b))).
Proof.
  unfold tf.binary, wf. intros -> Hb Wa Wb. rewrite Hb in *.
  rewrite Nat.max_id, pad_full, broadcast_shape_same by lia.
  now rewrite bcast_same.
Qed.

Lemma binary_last {A B C} (f : A -> B -> C) (s : list nat) (c : nat)
      (a : tensor A) (b : tensor B) :
  shape a = s ++ [1] -> shape b = s ++ [c] -> wf a -> wf b ->
  tf.binary f a b =
  Ok (mkTensor (s ++ [c])
               (concat (map2 (fun x row => map (f x) row) (buf a)
                             (cells s c b)))).
Proof.
  unfold tf.binary, wf, cells. intros Ha Hb Wa Wb. rewrite Ha, Hb in *.
  rewrite size_snoc in Wa, Wb.
  rewrite !length_app. cbn [length].
  rewrite Nat.max_id, !pad_full, broadcast_shape_last
    by (rewrite length_app; cbn [length]; lia).
  rewrite bcast_last by lia. reflexivity.
Qed.

Lemma slice_last_snoc {A} (a b : nat) (s : list nat) (c : nat)
      (t : tensor A) :
  shape t = s ++ [c] ->
  tf.slice_last a b t =
  Ok (mkTensor (s ++ [Nat.min b c - Nat.min a c])
               (flat_map (fun row => firstn (Nat.min b c - Nat.min a c)
                                            (skipn (Nat.min a c) row))
                         (cells s c t))).
Proof.
  unfold tf.slice_last. intros ->. now rewrite unsnoc_snoc.
Qed.

Lemma concat2_snoc {A} (s : list nat) (ca cb : nat) (a b : tensor A) :
  shape a = s ++ [ca] -> shape b = s ++ [cb] ->
  tf.concat2 a b =
  Ok (mkTensor (s ++ [ca + cb])
               (concat (map2 (@app A) (cells s ca a) (cells s cb b)))).
Proof.
  unfold tf.concat2. intros -> ->. rewrite !unsnoc_snoc.
  destruct (list_eq_dec Nat.eq_dec s s); [reflexivity | congruence].
Qed.

Lemma math_reduce_max_snoc (s : list nat) (c : nat) (t : tensor num) :
  shape t = s ++ [c] ->
  tf.math_reduce_max t = Ok (mkTensor s (map tf.row_max (cells s c t))).
Proof.
  unfold tf.math_reduce_max. intros ->. now rewrite unsnoc_snoc.
Qed.

Lemma math_argmax_snoc (s : list nat) (c : nat) (t : tensor num) :
  shape t = s ++ [c] -> c <> 0 ->
  tf.math_argmax t = Ok (mkTensor s (map tf.row_argmax (cells s c t))).
Proof.
  unfold tf.math_argmax. intros -> Hc. rewrite unsnoc_snoc.
  now destruct (Nat.eqb_spec c 0).
Qed.
End OpFacts.

(* ================================================================== *)
(** ** [yolo_boxes_to_corners] *)

Section Corners.
Context {num : Type} `{Numeric num}.
Variable St : Type.

(** The buffer the nine calls of [yolo_boxes_to_corners] build, cell by
    cell. *)
Lemma corners_buffer (n : nat) (xy wh : list num) :
  length xy = n * 2 -> length wh = n * 2 ->
  let half := map (fun x => ndiv x (of_Q 2)) wh in
  let mins := chunks n 2 (map2 nsub xy half) in
  let maxes := chunks n 2 (map2 nadd xy half) in
  let sl12 := flat_map (fun row : list num => firstn 1 (skipn 1 row)) in
  let sl01 := flat_map (fun row : list num => firstn 1 (skipn 0 row)) in
  concat
    (map2 (@app num)
       (chunks n 3
          (concat
             (map2 (@app num)
                (chunks n 2
                   (concat (map2 (@app num) (chunks n 1 (sl12 mins))
                                            (chunks n 1 (sl01 mins)))))
                (chunks n 1 (sl12 maxes)))))
       (chunks n 1 (sl01 maxes))) =
  concat (map2 corners_of (chunks n 2 xy) (chunks n 2 wh)).
Proof.
  revert xy wh; induction n as [|n IH]; intros xy wh Hx Hw;
    [reflexivity|].
  destruct xy as [|x [|y xy]]; try discriminate.
  destruct wh as [|w [|h wh]]; try discriminate.
  simpl in Hx, Hw.
  specialize (IH xy wh ltac:(lia) ltac:(lia)).
  cbn zeta in IH |- *. simpl. rewrite <- IH. reflexivity.
Qed.
End Corners.

Section CornersResult.
Context {num : Type} `{Numeric num}.
Variable St : Type.

Lemma corners_rows (R1 R2 : list (list num)) :
  Forall (fun r => length r = 4) (map2 corners_of R1 R2).
Proof.
  revert R2; induction R1 as [|r1 R1 IH]; intros [|r2 R2]; simpl;
    constructor; auto.
Qed.

Lemma yolo_boxes_to_corners_result (s : list nat)
      (box_xy box_wh : tensor num) :
  shape box_xy = s ++ [2] -> shape box_wh = s ++ [2] ->
  wf box_xy -> wf box_wh ->
  returns (yolo_boxes_to_corners (St:=St) box_xy box_wh)
          (mkTensor (s ++ [4])
                    (concat (map2 corners_of (cells s 2 box_xy)
                                             (cells s 2 box_wh)))).
Proof.
  intros Sxy Swh Wxy Wwh st.
  assert (length (buf box_xy) = size s * 2) as Lxy
      by (unfold wf in Wxy; now rewrite Sxy, size_snoc in Wxy).
  assert (length (buf box_wh) = size s * 2) as Lwh
      by (unfold wf in Wwh; now rewrite Swh, size_snoc in Wwh).
  unfold yolo_boxes_to_corners, bind, call, tf.divide_scalar,
    tf.subtract, tf.add.
  rewrite !binary_same with (s := s ++ [2])
    by (auto; unfold wf in *; cbn [tf.scalar shape buf];
        now rewrite length_map).
  rewrite !slice_last_snoc with (s := s) (c := 2) by reflexivity.
  unfold tf.keras_backend_concatenate, tf.concat_onto.
  rewrite concat2_snoc with (s := s) (ca := 1) (cb := 1) by reflexivity.
  rewrite concat2_snoc with (s := s) (ca := 2) (cb := 1) by reflexivity.
  rewrite concat2_snoc with (s := s) (ca := 3) (cb := 1) by reflexivity.
  unfold cells, tf.scalar. cbn [shape buf Nat.min Nat.sub Nat.add].
  now rewrite (corners_buffer (size s)).
Qed.
End CornersResult.

(* ================================================================== *)
(** ** Maximum and argmax of a row *)

Section RowFacts.
Context {num : Type} `{NumericLaws num}.

Lemma leb_refl (a : num) : leb a a = true.
Proof. now destruct (leb_total a a). Qed.

Lemma ltb_true_leb (a b : num) : ltb a b = true -> leb a b = true.
Proof.
  rewrite ltb_leb. intros E. destruct (leb_total a b) as [L|L]; auto.
  now rewrite L in E.
Qed.

Lemma ltb_false_leb (a b : num) : ltb a b = false -> leb b a = true.
Proof. rewrite ltb_leb. now destruct (leb b a). Qed.

Lemma max_from_in (best : num) (row : list num) :
  In (tf.max_from best row) (best :: row).
Proof.
  revert best; induction row as [|x row IH]; intros best; simpl; auto.
  destruct (ltb best x).
  - right. apply IH.
  - destruct (IH best) as [E|I]; auto.
Qed.

Lemma max_from_ge (best : num) (row : list num) (x : num) :
  In x (best :: row) -> leb x (tf.max_from best row) = true.
Proof.
  revert best x; induction row as [|y row IH]; intros best x I.
  - destruct I as [<-|[]]. apply leb_refl.
  - simpl. destruct (ltb best y) eqn:E.
    + destruct I as [<-|I]; [|now apply IH].
      apply leb_trans with y; [now apply ltb_true_leb|].
      apply IH. now left.
    + destruct I as [<-|[<-|I]].
      * apply IH. now left.
      * apply leb_trans with best; [now apply ltb_false_leb|].
        apply IH. now left.
      * apply IH. now right.
Qed.

Lemma row_max_is_maximum (row : list num) :
  row <> [] -> is_maximum row (tf.row_max row).
Proof.
  destruct row as [|x row]; [congruence|]. intros _. split.
  - apply max_from_in.
  - intros y. apply max_from_ge.
Qed.
End RowFacts.

Section ArgmaxFacts.
Context {num : Type} `{Numeric num}.

Lemma argmax_from_spec (row pre : list num) (best d : num) (bi : nat) :
  bi < length pre -> nth bi pre d = best ->
  nth (tf.argmax_from best bi (length pre) row) (pre ++ row) d =
    tf.max_from best row /\
  tf.argmax_from best bi (length pre) row < length (pre ++ row).
Proof.
  revert pre best bi; induction row as [|x row IH]; intros pre best bi Hb E.
  - simpl. rewrite app_nil_r. auto.
  - simpl. replace (pre ++ x :: row) with ((pre ++ [x]) ++ row)
      by now rewrite <- app_assoc.
    replace (S (length pre)) with (length (pre ++ [x]))
      by (rewrite length_app; simpl; lia).
    destruct (ltb best x).
    + apply IH.
      * rewrite length_app; simpl; lia.
      * rewrite app_nth2, Nat.sub_diag by lia. reflexivity.
    + apply IH.
      * rewrite length_app; simpl; lia.
      * now rewrite app_nth1 by lia.
Qed.

(** The class returned is a class at which the row takes its maximum. *)
Lemma row_argmax_spec (row : list num) (d : num) :
  row <> [] ->
  nth (tf.row_argmax row) row d = tf.row_max row /\
  tf.row_argmax row < length row.
Proof.
  destruct row as [|x row]; [congruence|]. intros _.
  apply (argmax_from_spec row [x] x d 0); simpl; auto.
Qed.
End ArgmaxFacts.

Section ArgmaxFirst.
Context {num : Type} `{NumericLaws num}.

Lemma ltb_leb_trans (a b c : num) :
  ltb a b = true -> leb b c = true -> ltb a c = true.
Proof.
  rewrite !ltb_leb. intros Hab Hbc.
  destruct (leb c a) eqn:E; [|reflexivity].
  now rewrite (leb_trans b c a Hbc E) in Hab.
Qed.

Lemma leb_ltb_trans (a b c : num) :
  leb a b = true -> ltb b c = true -> ltb a c = true.
Proof.
  rewrite !ltb_leb. intros Hab Hbc.
  destruct (leb c a) eqn:E; [|reflexivity].
  now rewrite (leb_trans c a b E Hab) in Hbc.
Qed.

Lemma argmax_from_first (row pre : list num) (best d : num) (bi : nat) :
  bi < length pre ->
  (forall j, j < length pre -> leb (nth j pre d) best = true) ->
  (forall j, j < bi -> ltb (nth j pre d) best = true) ->
  forall j, j < tf.argmax_from best bi (length pre) row ->
            ltb (nth j (pre ++ row) d) (tf.max_from best row) = true.
Proof.
  revert pre best bi; induction row as [|x row IH];
    intros pre best bi Hb Hle Hlt j Hj.
  - simpl in *. rewrite app_nil_r. auto.
  - simpl in *. replace (pre ++ x :: row) with ((pre ++ [x]) ++ row)
      by now rewrite <- app_assoc.
    replace (S (length pre)) with (length (pre ++ [x])) in Hj
      by (rewrite length_app; simpl; lia).
    assert (length (pre ++ [x]) = S (length pre)) as L
        by (rewrite length_app; simpl; lia).
    destruct (ltb best x) eqn:E.
    + apply IH with (bi := length pre); auto; try lia.
      * intros k Hk. destruct (Nat.eq_dec k (length pre)) as [->|Hne].
        -- rewrite app_nth2, Nat.sub_diag by lia. apply leb_refl.
        -- rewrite app_nth1 by lia.
           apply leb_trans with best; [apply Hle; lia|].
           now apply ltb_true_leb.
      * intros k Hk. rewrite app_nth1 by lia.
        apply leb_ltb_trans with best; auto.
    + apply IH with (bi := bi); auto; try lia.
      * intros k Hk. destruct (Nat.eq_dec k (length pre)) as [->|Hne].
        -- rewrite app_nth2, Nat.sub_diag by lia.
           now apply ltb_false_leb.
        -- rewrite app_nth1 by lia. apply Hle. lia.
      * intros k Hk. rewrite app_nth1 by lia. auto.
Qed.

(** Before the class returned, every class scores strictly less. *)
Lemma row_argmax_first (row : list num) (d : num) (j : nat) :
  j < tf.row_argmax row ->
  ltb (nth j row d) (tf.row_max row) = true.
Proof.
  destruct row as [|x row]; [simpl; lia|]. intros Hj.
  apply (argmax_from_first row [x] x d 0); simpl; auto; try lia.
  intros [|k] Hk; [apply leb_refl | lia].
Qed.
End ArgmaxFirst.

(* ================================================================== *)
(** ** Masks *)

Section SelectFacts.
Context {A : Type}.

Lemma select_seq_from (mask : list bool) (rows : list A) (d : A) (k : nat) :
  length mask = length rows ->
  select mask rows =
  map (fun i => nth (i - k) rows d)
      (filter (fun i => nth (i - k) mask false) (seq k (length rows))).
Proof.
  revert rows k; induction mask as [|m mask IH]; intros [|r rows] k Hl;
    try discriminate; [reflexivity|].
  simpl in Hl. cbn [select length seq filter]. rewrite Nat.sub_diag.
  cbn [nth].
  assert (select mask rows =
          map (fun i => nth (i - k) (r :: rows) d)
              (filter (fun i => nth (i - k) (m :: mask) false)
                      (seq (S k) (length rows)))) as E.
  { rewrite (IH rows (S k)) by lia.
    rewrite (filter_ext_in (fun i => nth (i - k) (m :: mask) false)
                           (fun i => nth (i - S k) mask false)).
    - apply map_ext_in. intros i I. apply filter_In in I.
      destruct I as [I _]. apply in_seq in I.
      now replace (i - k) with (S (i - S k)) by lia.
    - intros i I. apply in_seq in I.
      now replace (i - k) with (S (i - S k)) by lia. }
  destruct m; cbn [map]; rewrite ?Nat.sub_diag; cbn [nth]; now rewrite E.
Qed.

(** The rows a mask keeps are the rows at the indices it marks. *)
Lemma select_seq (mask : list bool) (rows : list A) (d : A) :
  length mask = length rows ->
  select mask rows =
  map (fun i => nth i rows d)
      (filter (fun i => nth i mask false) (seq 0 (length rows))).
Proof.
  intros Hl. rewrite (select_seq_from mask rows d 0 Hl).
  rewrite (filter_ext (fun i => nth (i - 0) mask false)
                      (fun i => nth i mask false))
    by (intros; now rewrite Nat.sub_0_r).
  apply map_ext. intros; now rewrite Nat.sub_0_r.
Qed.

Lemma select_singletons (mask : list bool) (l : list A) :
  concat (select mask (map (fun a => [a]) l)) = select mask l.
Proof.
  revert l; induction mask as [|m mask IH]; intros [|a l]; simpl; auto.
  destruct m; simpl; now rewrite IH.
Qed.

Lemma select_length {B} (mask : list bool) (l : list A) (l' : list B) :
  length l = length l' ->
  length (select mask l) = length (select mask l').
Proof.
  revert l l'; induction mask as [|m mask IH]; intros [|a l] [|b l'] Hl;
    try discriminate; auto.
  simpl in *. destruct m; simpl; auto.
Qed.

Lemma select_rows (P : A -> Prop) (mask : list bool) (l : list A) :
  Forall P l -> Forall P (select mask l).
Proof.
  intros F; revert mask; induction F as [|a l Pa _ IH]; intros [|m mask];
    simpl; auto.
  destruct m; auto.
Qed.
End SelectFacts.

Lemma is_prefix_app (s rest : list nat) : tf.is_prefix s (s ++ rest) = true.
Proof.
  induction s as [|d s IH]; [reflexivity|].
  simpl. now rewrite Nat.eqb_refl, IH.
Qed.

Lemma boolean_mask_rows {A} (s rest : list nat) (t : tensor A)
      (mask : tensor bool) :
  s <> [] -> shape mask = s -> shape t = s ++ rest ->
  tf.boolean_mask t mask =
  Ok (mkTensor
        (length (select (buf mask) (chunks (size s) (size rest) (buf t)))
           :: rest)
        (concat (select (buf mask) (chunks (size s) (size rest) (buf t))))).
Proof.
  unfold tf.boolean_mask. intros Hs Hm Ht. rewrite Hm, Ht.
  rewrite is_prefix_app, skipn_app, skipn_all, Nat.sub_diag.
  destruct s; [congruence | reflexivity].
Qed.

(* ================================================================== *)
(** ** [yolo_filter_boxes] *)

Section FilterResult.
Context {num : Type} `{Numeric num}.
Variable St : Type.

Lemma cell_scores_rows (c : nat) (conf : list num) (R : list (list num)) :
  Forall (fun r => length r = c) R ->
  Forall (fun r => length r = c) (map2 cell_scores conf R).
Proof.
  intros F; revert conf; induction F as [|r R Hr _ IH]; intros [|x conf];
    simpl; constructor; auto.
  unfold cell_scores. now rewrite length_map.
Qed.

Lemma cells_concat {A} (s sh : list nat) (c : nat) (R : list (list A)) :
  length R = size s -> Forall (fun r => length r = c) R ->
  cells s c (mkTensor sh (concat R)) = R.
Proof.
  intros L F. unfold cells. cbn [buf]. rewrite <- L.
  now apply chunks_concat.
Qed.

(** The three outputs, as the mask selects them. *)
Lemma yolo_filter_boxes_result (s : list nat) (c : nat)
      (boxes box_confidence box_class_probs : tensor num)
      (threshold : num) :
  s <> [] -> c <> 0 ->
  shape boxes = s ++ [4] ->
  shape box_confidence = s ++ [1] ->
  shape box_class_probs = s ++ [c] ->
  wf box_confidence -> wf box_class_probs ->
  let R := map2 cell_scores (buf box_confidence)
                (cells s c box_class_probs) in
  let mask := map (fun r => geb (tf.row_max r) threshold) R in
  returns (yolo_filter_boxes (St:=St) boxes box_confidence
                             box_class_probs threshold)
          (mkTensor [length (select mask R)]
                    (select mask (map tf.row_max R)),
           mkTensor [length (select mask R); 4]
                    (concat (select mask (cells s 4 boxes))),
           mkTensor [length (select mask R)]
                    (select mask (map tf.row_argmax R))).
Proof.
  intros Hs Hc Sb Sc Sp Wc Wp R mask st.
  assert (length (buf box_confidence) = size s) as Lc
      by (unfold wf in Wc; rewrite Sc, size_snoc in Wc; lia).
  assert (length (buf box_class_probs) = size s * c) as Lp
      by (unfold wf in Wp; now rewrite Sp, size_snoc in Wp).
  assert (length R = size s) as LR.
  { unfold R, cells. rewrite map2_length, chunks_length. lia. }
  assert (Forall (fun r => length r = c) R) as FR.
  { apply cell_scores_rows. now apply chunks_rows. }
  unfold yolo_filter_boxes, bind, call, ret, tf.multiply,
    tf.greater_equal_scalar.
  rewrite binary_last with (s := s) (c := c) by assumption.
  fold cell_scores. fold R.
  rewrite math_argmax_snoc with (s := s) (c := c) by auto.
  rewrite math_reduce_max_snoc with (s := s) (c := c) by auto.
  rewrite !cells_concat by assumption.
  rewrite (@boolean_mask_rows num s [])
    by (auto; cbn [shape]; now rewrite app_nil_r).
  rewrite (@boolean_mask_rows nat s [])
    by (auto; cbn [shape]; now rewrite app_nil_r).
  rewrite (@boolean_mask_rows num s [4]) by auto.
  change (size []) with 1. change (size [4]) with 4.
  cbn [tf.scalar buf shape].
  rewrite !chunks_ones by (now rewrite length_map).
  rewrite !select_singletons.
  rewrite (map_map tf.row_max (fun x => geb x threshold)). fold mask.
  rewrite (select_length mask (map (fun a => [a]) (map tf.row_max R)) R)
    by (now rewrite !length_map).
  rewrite (select_length mask (map (fun a => [a]) (map tf.row_argmax R)) R)
    by (now rewrite !length_map).
  rewrite (select_length mask (chunks (size s) 4 (buf boxes)) R)
    by (now rewrite chunks_length).
  reflexivity.
Qed.
End FilterResult.

(* ================================================================== *)
(** ** Subsequences *)

Section SubseqFacts.
Context {A B : Type}.

Lemma Subseq_nil_l (l : list A) : Subseq [] l.
Proof. induction l; constructor; auto. Qed.

Lemma Subseq_in (l l' : list A) (x : A) : Subseq l l' -> In x l -> In x l'.
Proof.
  induction 1 as [|y l l' _ IH|y l l' _ IH]; simpl; auto.
  intros [E|I]; auto.
Qed.

Lemma Subseq_map (f : A -> B) (l l' : list A) :
  Subseq l l' -> Subseq (map f l) (map f l').
Proof.
  induction 1; simpl;
    [apply Subseq_nil | now apply Subseq_skip | now apply Subseq_take].
Qed.

Lemma Subseq_filter (p : A -> bool) (l : list A) : Subseq (filter p l) l.
Proof.
  induction l as [|x l IH]; simpl; [constructor|].
  destruct (p x); [now apply Subseq_take | now apply Subseq_skip].
Qed.

Lemma Subseq_NoDup (l l' : list A) : Subseq l l' -> NoDup l' -> NoDup l.
Proof.
  induction 1 as [|y l l' S IH|y l l' S IH]; intros N; auto.
  - inversion N; auto.
  - inversion N as [|? ? Hy N']; subst. constructor; auto.
    intros I. apply Hy. eapply Subseq_in; eauto.
Qed.

Lemma Subseq_sorted (R : A -> A -> Prop) (l l' : list A) :
  Subseq l l' -> StronglySorted R l' -> StronglySorted R l.
Proof.
  induction 1 as [|y l l' S IH|y l l' S IH]; intros N; auto.
  - inversion N; auto.
  - inversion N as [|? ? N' F]; subst. constructor; auto.
    rewrite Forall_forall in *. intros x I. apply F.
    eapply Subseq_in; eauto.
Qed.

(** In a sorted list, what stands earlier is related to what stands
    later. *)
Lemma sorted_split (R : A -> A -> Prop) (pre mid post : list A) (a b : A) :
  StronglySorted R (pre ++ a :: mid ++ b :: post) -> R a b.
Proof.
  induction pre as [|x pre IH]; simpl; intros N.
  - inversion N as [|? ? _ F]; subst. rewrite Forall_forall in F.
    apply F. apply in_or_app. right. now left.
  - inversion N; auto.
Qed.
End SubseqFacts.

(* ================================================================== *)
(** ** The candidate queue *)

Section QueueFacts.
Context {num : Type} `{Numeric num}.

Lemma in_combine_seq (l : list num) (k i : nat) (x d : num) :
  In (i, x) (combine (seq k (length l)) l) <->
  k <= i < k + length l /\ x = nth (i - k) l d.
Proof.
  revert k; induction l as [|y l IH]; intros k; simpl.
  - split; [tauto | lia].
  - rewrite IH. split.
    + intros [[= <- <-]|[Hi ->]].
      * rewrite Nat.sub_diag. split; [lia | reflexivity].
      * split; [lia|]. now replace (i - k) with (S (i - S k)) by lia.
    + intros [Hi ->]. destruct (Nat.eq_dec i k) as [->|Hk].
      * left. now rewrite Nat.sub_diag.
      * right. split; [lia|].
        now replace (i - k) with (S (i - S k)) by lia.
Qed.

Lemma map_fst_combine_seq (l : list num) (k : nat) :
  map fst (combine (seq k (length l)) l) = seq k (length l).
Proof.
  revert k; induction l as [|y l IH]; intros k; simpl; [reflexivity|].
  now rewrite IH.
Qed.

Lemma candidates_in (scores : list num) (i : nat) (x d : num) :
  In (i, x) (tf.candidates scores) <->
  i < length scores /\ x = nth i scores d /\ ltb neg_inf x = true.
Proof.
  unfold tf.candidates. rewrite filter_In, (in_combine_seq _ _ _ _ d).
  rewrite Nat.sub_0_r. cbn [snd]. intuition lia.
Qed.

Lemma candidates_NoDup (scores : list num) :
  NoDup (map fst (tf.candidates scores)).
Proof.
  apply Subseq_NoDup with (seq 0 (length scores)); [|apply seq_NoDup].
  rewrite <- map_fst_combine_seq. apply Subseq_map, Subseq_filter.
Qed.

Lemma enqueue_perm (x : nat * num) (q : list (nat * num)) :
  Permutation (tf.enqueue x q) (x :: q).
Proof.
  induction q as [|y q IH]; simpl; [reflexivity|].
  destruct (ltb (snd x) (snd y)); [|reflexivity].
  rewrite IH. apply perm_swap.
Qed.

Lemma queue_of_perm (scores : list num) :
  Permutation (tf.queue_of scores) (tf.candidates scores).
Proof.
  unfold tf.queue_of. induction (tf.candidates scores) as [|x l IH];
    simpl; [reflexivity|].
  now rewrite enqueue_perm, IH.
Qed.

Lemma queue_of_in (scores : list num) (i : nat) (x d : num) :
  In (i, x) (tf.queue_of scores) <->
  i < length scores /\ x = nth i scores d /\ ltb neg_inf x = true.
Proof.
  rewrite <- candidates_in. split; apply Permutation_in;
    [|symmetry]; apply queue_of_perm.
Qed.

Lemma queue_of_NoDup (scores : list num) :
  NoDup (map fst (tf.queue_of scores)).
Proof.
  apply Permutation_NoDup with (map fst (tf.candidates scores)).
  - symmetry. apply Permutation_map, queue_of_perm.
  - apply candidates_NoDup.
Qed.
End QueueFacts.

Section QueueOrder.
Context {num : Type} `{NumericLaws num}.

Lemma enqueue_sorted (x : nat * num) (q : list (nat * num)) :
  StronglySorted not_lower q -> StronglySorted not_lower (tf.enqueue x q).
Proof.
  induction 1 as [|y q S IH F]; simpl.
  - constructor; constructor.
  - destruct (ltb (snd x) (snd y)) eqn:E.
    + constructor; auto.
      rewrite Forall_forall in *. intros z I.
      apply (Permutation_in _ (enqueue_perm x q)) in I.
      destruct I as [<-|I]; [|now apply F].
      now apply ltb_true_leb.
    + constructor; [now constructor|].
      apply ltb_false_leb in E. constructor; auto.
      rewrite Forall_forall in *. intros z I.
      unfold not_lower in *. apply leb_trans with (snd y); auto.
Qed.

Lemma queue_of_sorted (scores : list num) :
  StronglySorted not_lower (tf.queue_of scores).
Proof.
  unfold tf.queue_of. induction (tf.candidates scores) as [|x l IH];
    simpl; [constructor|].
  now apply enqueue_sorted.
Qed.
End QueueOrder.

(* ================================================================== *)
(** ** The selection loop *)

Section LoopFacts.
Context {num : Type} `{Numeric num}.
Variables (rows : list (list num)) (iou_threshold : num) (k : nat).

Lemma existsb_false {A} (f : A -> bool) (l : list A) :
  existsb f l = false -> forall x, In x l -> f x = false.
Proof.
  intros E x I. destruct (f x) eqn:F; auto.
  rewrite <- E. symmetry. apply existsb_exists. eauto.
Qed.

Local Ltac split5 := split; [|split; [|split; [|split]]].

Lemma nms_loop_spec (queue : list (nat * num)) (selected : list nat) :
  exists picked,
    tf.nms_loop rows iou_threshold k queue selected =
      selected ++ map fst picked /\
    Subseq picked queue /\
    (length selected <= k -> length (selected ++ map fst picked) <= k) /\
    (forall pre x post, picked = pre ++ x :: post ->
       forall j, In j (selected ++ map fst pre) ->
                 tf.overlaps rows iou_threshold (fst x) j = false) /\
    (forall q1 x q2, queue = q1 ++ x :: q2 ->
       In x picked \/
       (k <= length (selected ++ map fst picked) /\ Subseq picked q1) \/
       exists j,
         (In j selected \/ exists y, In y q1 /\ In y picked /\ fst y = j) /\
         tf.overlaps rows iou_threshold (fst x) j = true).
Proof.
  revert selected; induction queue as [|[i sc] queue IH]; intros selected.
  - exists []. simpl. rewrite app_nil_r. split5; auto.
    + constructor.
    + intros [|? ?] ? ? [=].
    + intros [|? ?] ? ? [=].
  - simpl. destruct (Nat.ltb_spec (length selected) k) as [Lt|Ge].
    2:{ exists []. simpl. rewrite app_nil_r. split5; auto.
        - apply Subseq_nil_l.
        - intros [|? ?] ? ? [=].
        - intros q1 x q2 _. right. left. split; [exact Ge|].
          apply Subseq_nil_l. }
    destruct (existsb (tf.overlaps rows iou_threshold i) selected) eqn:E.
    + destruct (IH selected) as (picked & E1 & S1 & L1 & N1 & C1).
      exists picked. split5; auto.
      * now apply Subseq_skip.
      * intros [|y q1] x q2 Eq; injection Eq as Ex Eq; subst.
        -- right. right. apply existsb_exists in E.
           destruct E as (j & I & O). exists j. auto.
        -- destruct (C1 q1 x q2 eq_refl)
             as [P|[[P Q]|(j & [P|(z & P)] & O)]].
           ++ now left.
           ++ right. left. split; [exact P|]. now apply Subseq_skip.
           ++ right. right. exists j. auto.
           ++ right. right. exists j. split; auto.
              right. exists z. simpl. tauto.
    + destruct (IH (selected ++ [i]))
        as (picked & E1 & S1 & L1 & N1 & C1).
      assert (forall l, (selected ++ [i]) ++ map fst l =
                        selected ++ map fst ((i, sc) :: l)) as A
          by (intros; now rewrite <- app_assoc).
      rewrite A in *.
      exists ((i, sc) :: picked). split5; auto.
      * now apply Subseq_take.
      * intros _. apply L1. rewrite length_app. simpl. lia.
      * intros [|y pre] x post Eq j I; injection Eq as Ex Eq; subst.
        -- simpl in I. rewrite app_nil_r in I.
           now apply (existsb_false _ _ E).
        -- apply (N1 pre x post eq_refl). now rewrite A.
      * intros [|y q1] x q2 Eq; injection Eq as Ex Eq; subst.
        -- left. now left.
        -- destruct (C1 q1 x q2 eq_refl)
             as [P|[[P Q]|(j & [P|(z & P)] & O)]].
           ++ left. now right.
           ++ right. left. split; [exact P|]. now apply Subseq_take.
           ++ right. right. exists j. split; auto.
              apply in_app_or in P. destruct P as [P|[<-|[]]]; auto.
              right. exists (i, sc). simpl. auto.
           ++ right. right. exists j. split; auto.
              right. exists z. simpl. tauto.
Qed.
End LoopFacts.

(* ================================================================== *)
(** ** Selection and gathering *)

(** An integer of the [int32] range is converted to itself. *)
Lemma int32_small (z : Z) :
  (- 2 ^ 31 <= z < 2 ^ 31)%Z -> tf.int32 z = z.
Proof.
  intros Hz. unfold tf.int32. rewrite Z.mod_small; lia.
Qed.

Lemma int32_range (z : Z) : (- 2 ^ 31 <= tf.int32 z < 2 ^ 31)%Z.
Proof.
  unfold tf.int32.
  pose proof (Z.mod_pos_bound (z + 2 ^ 31) (2 ^ 32) ltac:(lia)). lia.
Qed.


Lemma output_size_small (z : Z) (n : nat) :
  (0 <= z < 2 ^ 31)%Z ->
  Z.to_nat (Z.min (tf.int32 z) (Z.of_nat n)) = Nat.min (Z.to_nat z) n.
Proof.
  intros Hz. rewrite int32_small by lia. lia.
Qed.

Section SelectionFacts.
Context {num : Type} `{Numeric num}.
Variables (n : nat) (boxes scores : list num).
Variables (max_output_size : Z) (iou_threshold : num).

Local Abbreviation rows := (chunks n 4 boxes).
Local Abbreviation sel :=
  (tf.selection n boxes scores max_output_size iou_threshold).
Local Abbreviation output_size :=
  (Z.to_nat (Z.min (tf.int32 max_output_size) (Z.of_nat n))).

Lemma selection_picked :
  exists picked,
    sel = map fst picked /\
    Subseq picked (tf.queue_of scores) /\
    length sel <= output_size /\
    (forall pre x post, picked = pre ++ x :: post ->
       forall j, In j (map fst pre) ->
                 tf.overlaps rows iou_threshold (fst x) j = false) /\
    (forall q1 x q2, tf.queue_of scores = q1 ++ x :: q2 ->
       In x picked \/
       (output_size <= length sel /\ Subseq picked q1) \/
       exists y, In y q1 /\ In y picked /\
                 tf.overlaps rows iou_threshold (fst x) (fst y) = true).
Proof.
  destruct (nms_loop_spec rows iou_threshold output_size
              (tf.queue_of scores) [])
    as (picked & E & Sq & L & N & C).
  simpl in E, L, N, C.
  exists picked. unfold tf.selection. rewrite E.
  split; [reflexivity|]. split; [assumption|].
  split; [apply L; lia|]. split; [assumption|].
  intros q1 x q2 Q.
  destruct (C q1 x q2 Q) as [P|[P|(j & [[]|(y & I1 & I2 & <-)] & O)]].
  - now left.
  - right. left. exact P.
  - right. right. now exists y.
Qed.

Lemma selection_in_range :
  length scores = n -> Forall (fun i => i < n) sel.
Proof.
  intros scores_length.
  destruct selection_picked as (picked & E & Sq & _).
  rewrite E, Forall_forall. intros i I.
  apply in_map_iff in I. destruct I as ([i' x] & <- & I).
  apply (Subseq_in _ _ _ Sq), (queue_of_in scores i' x zero) in I.
  simpl. lia.
Qed.

Lemma selection_NoDup : NoDup sel.
Proof.
  destruct selection_picked as (picked & E & Sq & _).
  rewrite E. apply Subseq_NoDup with (map fst (tf.queue_of scores)).
  - now apply Subseq_map.
  - apply queue_of_NoDup.
Qed.

Lemma selection_finite (i : nat) :
  In i sel -> ltb neg_inf (nth i scores zero) = true.
Proof.
  destruct selection_picked as (picked & E & Sq & _).
  rewrite E. intros I.
  apply in_map_iff in I. destruct I as ([i' x] & <- & I).
  apply (Subseq_in _ _ _ Sq), (queue_of_in scores i' x zero) in I.
  simpl. now destruct I as (_ & <- & I).
Qed.

Lemma selection_bound : (0 <= tf.int32 max_output_size)%Z ->
  (Z.of_nat (length sel) <= tf.int32 max_output_size)%Z.
Proof.
  destruct selection_picked as (picked & _ & _ & L & _). lia.
Qed.

Lemma selection_length : length sel <= output_size.
Proof.
  now destruct selection_picked as (picked & _ & _ & L & _).
Qed.

Lemma selection_apart (j i : nat) :
  earlier sel j i -> tf.overlaps rows iou_threshold i j = false.
Proof.
  destruct selection_picked as (picked & E & _ & _ & N & _).
  intros (pre & mid & post & Es). rewrite E in Es.
  change (pre ++ j :: mid ++ i :: post)
    with (pre ++ (j :: mid) ++ i :: post) in Es.
  rewrite app_assoc in Es.
  apply map_eq_app in Es. destruct Es as (p1 & p2 & -> & E1 & E2).
  apply map_eq_cons in E2. destruct E2 as (x & p3 & -> & <- & _).
  apply (N p1 x p3 eq_refl). rewrite E1.
  apply in_or_app. right. now left.
Qed.
End SelectionFacts.

(** For a non-negative [int32] the selection stops at the smaller of
    [max_output_size] and [n]. *)
Lemma selection_small {num : Type} `{Numeric num} (n : nat)
      (boxes scores : list num) (max_output_size : Z) (iou_threshold : num) :
  (0 <= max_output_size < 2 ^ 31)%Z ->
  tf.selection n boxes scores max_output_size iou_threshold =
  tf.nms_loop (chunks n 4 boxes) iou_threshold
              (Nat.min (Z.to_nat max_output_size) n) (tf.queue_of scores) [].
Proof.
  intros Hm. unfold tf.selection. now rewrite output_size_small.
Qed.

Lemma selection_bound_small {num : Type} `{Numeric num} (n : nat)
      (boxes scores : list num) (max_output_size : Z) (iou_threshold : num) :
  (0 <= max_output_size < 2 ^ 31)%Z ->
  (Z.of_nat (length (tf.selection n boxes scores max_output_size
                                  iou_threshold))
   <= max_output_size)%Z.
Proof.
  intros Hm.
  pose proof (selection_bound n boxes scores max_output_size iou_threshold)
    as B.
  rewrite int32_small in B by lia. apply B. lia.
Qed.

Section SelectionOrder.
Context {num : Type} `{NumericLaws num}.
Variables (n : nat) (boxes scores : list num).
Variables (max_output_size : Z) (iou_threshold : num).

Local Abbreviation rows := (chunks n 4 boxes).
Local Abbreviation sel :=
  (tf.selection n boxes scores max_output_size iou_threshold).
Local Abbreviation score := (fun i => nth i scores zero).

Lemma queue_entry (x : nat * num) :
  In x (tf.queue_of scores) -> snd x = score (fst x).
Proof.
  destruct x as [i x]. intros I.
  now apply (queue_of_in scores i x zero) in I.
Qed.

Lemma selection_descending (j i : nat) :
  earlier sel j i -> leb (score i) (score j) = true.
Proof.
  destruct (selection_picked n boxes scores max_output_size iou_threshold)
    as (picked & E & Sq & _).
  intros (pre & mid & post & Es). rewrite E in Es.
  apply map_eq_app in Es. destruct Es as (p1 & p2 & -> & E1 & E2).
  apply map_eq_cons in E2. destruct E2 as (xj & p3 & -> & <- & E3).
  apply map_eq_app in E3. destruct E3 as (p4 & p5 & -> & E4 & E5).
  apply map_eq_cons in E5. destruct E5 as (xi & p6 & -> & <- & _).
  pose proof (Subseq_sorted _ _ _ Sq (queue_of_sorted scores)) as Sd.
  apply sorted_split in Sd. unfold not_lower in Sd.
  rewrite <- (queue_entry xi), <- (queue_entry xj); auto;
    apply (Subseq_in _ _ _ Sq), in_or_app; right; [now left | right].
  apply in_or_app. right. now left.
Qed.

(** A candidate that is not selected was passed over for a reason: the
    output was full before its turn came, so that every selected box
    stood before it in the queue, or a box selected from further up the
    queue overlaps it. *)
Lemma selection_greedy (i : nat) :
  i < length scores -> ltb neg_inf (score i) = true -> ~ In i sel ->
  (Z.to_nat (Z.min (tf.int32 max_output_size) (Z.of_nat n)) <= length sel /\
   forall j, In j sel -> leb (score i) (score j) = true) \/
  exists j, In j sel /\ leb (score i) (score j) = true /\
            tf.overlaps rows iou_threshold i j = true.
Proof.
  intros Hi Hs Hn.
  destruct (selection_picked n boxes scores max_output_size iou_threshold)
    as (picked & E & Sq & _ & _ & C).
  assert (In (i, score i) (tf.queue_of scores)) as I
      by (apply (queue_of_in scores i (score i) zero); auto).
  destruct (in_split _ _ I) as (q1 & q2 & Eq).
  assert (forall y, In y q1 -> leb (score i) (score (fst y)) = true) as Up.
  { intros y I1. destruct (in_split _ _ I1) as (a & b & ->).
    pose proof (queue_of_sorted scores) as Sd. rewrite Eq in Sd.
    rewrite <- app_assoc in Sd. simpl in Sd.
    apply sorted_split in Sd. unfold not_lower in Sd. simpl in Sd.
    rewrite <- (queue_entry y); auto.
    rewrite Eq. apply in_or_app. left. apply in_or_app. right. now left. }
  destruct (C q1 (i, score i) q2 Eq) as [P|[[P Q]|(y & I1 & I2 & O)]].
  - exfalso. apply Hn. rewrite E. now apply (in_map fst) in P.
  - left. split; [exact P|]. intros j Ij. rewrite E in Ij.
    apply in_map_iff in Ij. destruct Ij as (y & <- & Iy).
    apply Up. now apply (Subseq_in _ _ _ Q).
  - right. exists (fst y). split; [|split]; auto.
    rewrite E. now apply in_map.
Qed.
End SelectionOrder.

Lemma forallb_lt (n : nat) (l : list nat) :
  Forall (fun i => i < n) l -> forallb (fun i => i <? n) l = true.
Proof.
  intros F. apply forallb_forall. rewrite Forall_forall in F.
  intros i I. apply Nat.ltb_lt. auto.
Qed.

(* ================================================================== *)
(** ** [yolo_non_max_suppression] *)

Section NmsFacts.
Context {num : Type} `{Numeric num}.
Variable St : Type.

Lemma image_non_max_suppression_inv (boxes scores : tensor num)
      (max_output_size : Z) (iou_threshold : num) (indices : tensor nat) :
  tf.image_non_max_suppression boxes scores max_output_size iou_threshold
    = Ok indices ->
  exists n,
    shape boxes = [n; 4] /\ shape scores = [n] /\
    (0 <= tf.int32 max_output_size)%Z /\
    leb zero iou_threshold && leb iou_threshold one = true /\
    indices =
      (let sel := tf.selection n (buf boxes) (buf scores) max_output_size
                               iou_threshold in
       mkTensor [length sel] sel).
Proof.
  unfold tf.image_non_max_suppression.
  destruct (negb _); [discriminate|].
  destruct (shape boxes) as [|n [|c [|? ?]]]; try discriminate.
  destruct (shape scores) as [|n' [|? ?]]; try discriminate.
  destruct (Nat.eqb_spec c 4) as [->|]; [|discriminate].
  destruct (Nat.eqb_spec n n') as [<-|]; [|discriminate].
  destruct (Z.ltb_spec (tf.int32 max_output_size) 0); [discriminate|].
  destruct (leb zero iou_threshold && leb iou_threshold one) eqn:E;
    [|discriminate].
  cbn [negb]. intros [= <-]. exists n. auto.
Qed.

Lemma image_non_max_suppression_ok (n : nat) (boxes scores : tensor num)
      (max_output_size : Z) (iou_threshold : num) :
  shape boxes = [n; 4] -> shape scores = [n] ->
  (0 <= max_output_size < 2 ^ 31)%Z ->
  leb zero iou_threshold && leb iou_threshold one = true ->
  tf.image_non_max_suppression boxes scores max_output_size iou_threshold
    = Ok (let sel := tf.selection n (buf boxes) (buf scores)
                                  max_output_size iou_threshold in
          mkTensor [length sel] sel).
Proof.
  unfold tf.image_non_max_suppression. intros -> -> Hm ->.
  destruct (Z.leb_spec (- 2 ^ 63) max_output_size); [|lia].
  destruct (Z.ltb_spec max_output_size (2 ^ 63)); [|lia].
  rewrite !Nat.eqb_refl. cbn [negb andb].
  rewrite int32_small by lia.
  destruct (Z.ltb_spec max_output_size 0); [lia | reflexivity].
Qed.

Lemma gather_inv {A} (t : tensor A) (k : nat) (sel : list nat)
      (out : tensor A) :
  tf.gather t (mkTensor [k] sel) = Ok out ->
  k = length sel ->
  out = gathered t sel /\ shape t <> [] /\
  Forall (fun i => i < hd 0 (shape t)) sel.
Proof.
  unfold tf.gather, gathered. cbn [shape buf].
  destruct (shape t) as [|d rest]; [discriminate|].
  destruct (forallb (fun i => i <? d) sel) eqn:E; [|discriminate].
  intros [= <-] ->. cbn [hd tl app]. split; [reflexivity|].
  split; [discriminate|].
  rewrite Forall_forall. intros i I.
  rewrite forallb_forall in E. now apply Nat.ltb_lt, E.
Qed.

(** Whatever its inputs, a call that returns has gathered the rows of
    its three inputs at one list of indices. *)
Lemma yolo_non_max_suppression_inv (scores boxes : tensor num)
      (classes : tensor nat) (max_boxes : Z) (iou_threshold : num)
      (st st' : St) (out : outputs) :
  yolo_non_max_suppression scores boxes classes max_boxes iou_threshold st
    = (Ok out, st') ->
  exists n,
    st' = st /\ shape boxes = [n; 4] /\ shape scores = [n] /\
    (0 <= tf.int32 max_boxes)%Z /\
    let sel := tf.selection n (buf boxes) (buf scores) max_boxes
                            iou_threshold in
    out = (gathered scores sel, gathered boxes sel, gathered classes sel) /\
    Forall (fun i => i < hd 0 (shape classes)) sel.
Proof.
  unfold yolo_non_max_suppression, bind, call, ret.
  destruct (tf.image_non_max_suppression boxes scores max_boxes
                                         iou_threshold)
    as [indices|e] eqn:E; [|discriminate].
  apply image_non_max_suppression_inv in E.
  destruct E as (n & Sb & Ss & Hm & _ & ->). cbn zeta.
  destruct (tf.gather scores _) as [s|e] eqn:Es; [|discriminate].
  destruct (tf.gather boxes _) as [b|e] eqn:Eb; [|discriminate].
  destruct (tf.gather classes _) as [c|e] eqn:Ec; [|discriminate].
  intros [= <- <-]. exists n.
  apply gather_inv in Es, Eb, Ec; auto.
  destruct Es as (-> & _), Eb as (-> & _), Ec as (-> & _ & F).
  repeat split; auto.
Qed.
End NmsFacts.

Section GatheredFacts.
Context {A : Type}.

Lemma gather_ok (t : tensor A) (sel : list nat) :
  shape t <> [] -> Forall (fun i => i < hd 0 (shape t)) sel ->
  tf.gather t (mkTensor [length sel] sel) = Ok (gathered t sel).
Proof.
  unfold tf.gather, gathered. cbn [shape buf].
  destruct (shape t) as [|d rest]; [congruence|]. intros _ F.
  cbn [hd tl] in *. now rewrite forallb_lt.
Qed.

Lemma gathered_vector (n : nat) (t : tensor A) (sel : list nat) (d : A) :
  shape t = [n] -> wf t -> Forall (fun i => i < n) sel ->
  gathered t sel = mkTensor [length sel] (map (fun i => nth i (buf t) d) sel).
Proof.
  unfold gathered, wf. intros -> W F. simpl in W. cbn [hd tl].
  change (size []) with 1. rewrite chunks_ones by lia.
  f_equal. rewrite flat_map_concat_map.
  induction F as [|i l Hi _ IH]; [reflexivity|].
  simpl. rewrite IH. f_equal.
  rewrite (nth_indep _ [] [d]) by (rewrite length_map; lia).
  now rewrite (map_nth (fun a => [a])).
Qed.

Lemma size_one (n : nat) : size [n] = n.
Proof. simpl. lia. Qed.

Lemma gathered_matrix (n c : nat) (t : tensor A) (sel : list nat) :
  shape t = [n; c] ->
  gathered t sel =
  mkTensor [length sel; c]
           (concat (map (fun i => nth i (cells [n] c t) []) sel)).
Proof.
  unfold gathered, cells. intros ->. cbn [hd tl].
  rewrite !size_one. now rewrite flat_map_concat_map.
Qed.

Lemma gathered_rows (n c : nat) (t : tensor A) (sel : list nat) :
  shape t = [n; c] -> wf t -> Forall (fun i => i < n) sel ->
  cells [length sel] c (gathered t sel) =
  map (fun i => nth i (cells [n] c t) []) sel.
Proof.
  intros E W F. rewrite gathered_matrix with (n := n) (c := c) by exact E.
  apply cells_concat.
  - now rewrite size_one, length_map.
  - unfold wf in W. rewrite E in W.
    assert (length (buf t) = n * c) as L by (simpl in W; lia).
    pose proof (chunks_rows n c (buf t) L) as R.
    rewrite Forall_forall in *. intros r I.
    apply in_map_iff in I. destruct I as (i & <- & I).
    apply R. unfold cells. rewrite size_one. apply nth_In.
    rewrite chunks_length. auto.
Qed.
End GatheredFacts.

Section NmsResult.
Context {num : Type} `{Numeric num}.
Variable St : Type.

Lemma yolo_non_max_suppression_ok (n : nat) (scores boxes : tensor num)
      (classes : tensor nat) (max_boxes : Z) (iou_threshold : num) :
  shape scores = [n] -> shape boxes = [n; 4] -> shape classes = [n] ->
  wf scores ->
  (0 <= max_boxes < 2 ^ 31)%Z ->
  leb zero iou_threshold && leb iou_threshold one = true ->
  let sel := tf.selection n (buf boxes) (buf scores) max_boxes
                          iou_threshold in
  returns (yolo_non_max_suppression (St:=St) scores boxes classes
                                    max_boxes iou_threshold)
          (gathered scores sel, gathered boxes sel, gathered classes sel).
Proof.
  intros Ss Sb Sc Ws Hm Hi sel st.
  assert (Forall (fun i => i < n) sel) as F.
  { apply selection_in_range. unfold wf in Ws. rewrite Ss in Ws.
    simpl in Ws. lia. }
  unfold yolo_non_max_suppression, bind, call, ret.
  rewrite image_non_max_suppression_ok with (n := n) by assumption.
  cbn zeta.
  fold sel.
  rewrite !gather_ok; auto; try congruence.
  - now rewrite Sc.
  - now rewrite Sb.
  - now rewrite Ss.
Qed.
End NmsResult.

(* ================================================================== *)
(** ** The rationals with a least element are lawful *)

Lemma xrat_laws : NumericLaws xrat.
Proof.
  split.
  - intros [|x] [|y]; simpl; auto.
    destruct (Qlt_le_dec x y) as [L|L].
    + left. apply Qle_bool_iff. now apply Qlt_le_weak.
    + right. now apply Qle_bool_iff.
  - intros [|x] [|y] [|z]; simpl; auto; try discriminate.
    rewrite !Qle_bool_iff. apply Qle_trans.
  - reflexivity.
Qed.

(* ================================================================== *)
(** ** The cells a threshold keeps *)

Section KeptFacts.
Context {num : Type} `{Numeric num}.
Variables (threshold : num) (confidence : list num).
Variables (class_probs : list (list num)) (n : nat).
Hypothesis confidence_length : length confidence = n.
Hypothesis class_probs_length : length class_probs = n.

Local Abbreviation R := (map2 cell_scores confidence class_probs).
Local Abbreviation mask := (map (fun r => geb (tf.row_max r) threshold) R).
Local Abbreviation sc :=
  (fun i => cell_scores (nth i confidence zero) (nth i class_probs [])).

Lemma cell_scores_nth (i : nat) : i < n -> nth i R [] = sc i.
Proof. intros Hi. apply map2_nth; lia. Qed.

Lemma kept_cells_in (i : nat) :
  In i (kept_cells threshold confidence class_probs) <->
  i < n /\ geb (tf.row_max (sc i)) threshold = true.
Proof.
  unfold kept_cells. rewrite filter_In, in_seq. intuition lia.
Qed.

Lemma select_kept {B} (X : list B) (d : B) :
  length X = n ->
  select mask X =
  map (fun i => nth i X d) (kept_cells threshold confidence class_probs).
Proof.
  intros LX. assert (length R = n) as LR by (rewrite map2_length; lia).
  rewrite (select_seq mask X d) by (rewrite length_map; lia).
  unfold kept_cells. rewrite LX, class_probs_length. f_equal.
  apply filter_ext_in. intros i I. apply in_seq in I.
  rewrite (nth_indep _ false (geb (tf.row_max []) threshold))
    by (rewrite length_map; lia).
  rewrite (map_nth (fun r => geb (tf.row_max r) threshold)).
  now rewrite cell_scores_nth by lia.
Qed.

Lemma select_kept_map {B} (f : list num -> B) (d : B) :
  select mask (map f R) =
  map (fun i => f (sc i)) (kept_cells threshold confidence class_probs).
Proof.
  assert (length R = n) as LR by (rewrite map2_length; lia).
  rewrite (select_kept (map f R) d) by (now rewrite length_map).
  apply map_ext_in. intros i I. apply kept_cells_in in I.
  rewrite (nth_indep _ d (f [])) by (rewrite length_map; lia).
  rewrite (map_nth f). now rewrite cell_scores_nth by lia.
Qed.
End KeptFacts.

(* ================================================================== *)
(** ** Calls, binds and the state *)

Section StatelessFacts.
Variable St : Type.

Lemma stateless_call {A} (r : result A) : stateless (call (St:=St) r).
Proof. now exists r. Qed.

Lemma stateless_ret {A} (a : A) : stateless (ret (St:=St) a).
Proof. now exists (Ok a). Qed.

Lemma stateless_bind {A B} (m : M St A) (k : A -> M St B) :
  stateless m -> (forall a, stateless (k a)) -> stateless (bind m k).
Proof.
  intros [[a|e] Hm] Hk.
  - destruct (Hk a) as [r Hr]. exists r. intros st.
    unfold bind. now rewrite Hm, Hr.
  - exists (Err e). intros st. unfold bind. now rewrite Hm.
Qed.

End StatelessFacts.

Section DetectStateless.
Context {num : Type} `{Numeric num}.
Variable St : Type.
Variable scale_boxes : tensor num -> list Z -> result (tensor num).

Local Ltac step :=
  first [ apply stateless_call | apply stateless_ret
        | apply stateless_bind; [|intros ?] ].

Lemma yolo_boxes_to_corners_stateless (box_xy box_wh : tensor num) :
  stateless (yolo_boxes_to_corners (St:=St) box_xy box_wh).
Proof. unfold yolo_boxes_to_corners. repeat step. Qed.

Lemma yolo_filter_boxes_stateless
      (boxes box_confidence box_class_probs : tensor num)
      (threshold : num) :
  stateless (yolo_filter_boxes (St:=St) boxes box_confidence
                               box_class_probs threshold).
Proof. unfold yolo_filter_boxes. repeat step. Qed.

Lemma yolo_non_max_suppression_stateless (scores boxes : tensor num)
      (classes : tensor nat) (max_boxes : Z) (iou_threshold : num) :
  stateless (yolo_non_max_suppression (St:=St) scores boxes classes
                                      max_boxes iou_threshold).
Proof. unfold yolo_non_max_suppression. repeat step. Qed.

Lemma yolo_eval_stateless (yolo_outputs : list (tensor num))
      (image_shape : list Z) (max_boxes : Z)
      (score_threshold iou_threshold : num) :
  stateless (yolo_eval (St:=St) scale_boxes yolo_outputs image_shape
                       max_boxes score_threshold iou_threshold).
Proof.
  unfold yolo_eval.
  apply stateless_bind; [apply stateless_call|].
  intros [[[box_xy box_wh] box_confidence] box_class_probs].
  apply stateless_bind; [apply yolo_boxes_to_corners_stateless|].
  intros boxes.
  apply stateless_bind; [apply yolo_filter_boxes_stateless|].
  intros [[scores boxes'] classes].
  apply stateless_bind; [apply stateless_call|]. intros boxes''.
  apply stateless_bind; [apply yolo_non_max_suppression_stateless|].
  intros [[? ?] ?]. apply stateless_ret.
Qed.

(** What a returning call of [yolo_eval] went through. *)
Lemma yolo_eval_inv (yolo_outputs : list (tensor num))
      (image_shape : list Z) (max_boxes : Z)
      (score_threshold iou_threshold : num) (st st' : St)
      (out : outputs) :
  yolo_eval scale_boxes yolo_outputs image_shape max_boxes
            score_threshold iou_threshold st = (Ok out, st') ->
  exists box_xy box_wh box_confidence box_class_probs
         corners scores boxes classes scaled st1 st2,
    yolo_outputs = [box_xy; box_wh; box_confidence; box_class_probs] /\
    yolo_boxes_to_corners box_xy box_wh st = (Ok corners, st1) /\
    yolo_filter_boxes corners box_confidence box_class_probs
                      iou_threshold st1
      = (Ok (scores, boxes, classes), st2) /\
    scale_boxes boxes image_shape = Ok scaled /\
    yolo_non_max_suppression scores scaled classes max_boxes
                             iou_threshold st2 = (Ok out, st').
Proof.
  unfold yolo_eval, bind at 1, call at 1.
  destruct yolo_outputs as [|xy [|wh [|conf [|probs [|? ?]]]]];
    try discriminate.
  cbn [unpack4]. unfold bind at 1.
  destruct (yolo_boxes_to_corners xy wh st) as [[corners|e] st1] eqn:E1;
    [|discriminate].
  unfold bind at 1.
  destruct (yolo_filter_boxes corners conf probs iou_threshold st1)
    as [[[[scores boxes] classes]|e] st2] eqn:E2; [|discriminate].
  unfold bind at 1, call at 1.
  destruct (scale_boxes boxes image_shape) as [scaled|e] eqn:E3;
    [|discriminate].
  unfold bind at 1.
  destruct (yolo_non_max_suppression scores scaled classes max_boxes
                                     iou_threshold st2)
    as [[[[s b] c]|e] st3] eqn:E4; [|discriminate].
  unfold ret. intros [= <- <-].
  exists xy, wh, conf, probs, corners, scores, boxes, classes, scaled,
    st1, st2.
  auto.
Qed.

(** The four stages, one after the other, make a call of [yolo_eval]. *)
Lemma yolo_eval_ok (box_xy box_wh box_confidence box_class_probs : tensor num)
      (image_shape : list Z) (max_boxes : Z)
      (score_threshold iou_threshold : num) (st st1 st2 st' : St)
      (corners scores boxes scaled : tensor num) (classes : tensor nat)
      (out : outputs) :
  yolo_boxes_to_corners box_xy box_wh st = (Ok corners, st1) ->
  yolo_filter_boxes corners box_confidence box_class_probs
                    iou_threshold st1
    = (Ok (scores, boxes, classes), st2) ->
  scale_boxes boxes image_shape = Ok scaled ->
  yolo_non_max_suppression scores scaled classes max_boxes
                           iou_threshold st2 = (Ok out, st') ->
  yolo_eval scale_boxes
            [box_xy; box_wh; box_confidence; box_class_probs]
            image_shape max_boxes score_threshold iou_threshold st
    = (Ok out, st').
Proof.
  intros E1 E2 E3 E4. unfold yolo_eval, bind, call. cbn [unpack4].
  rewrite E1, E2, E3, E4. now destruct out as [[? ?] ?].
Qed.
End DetectStateless.

(* ================================================================== *)
(** ** Shapes along the pipeline *)

Section Shapes.
Context {num : Type} `{Numeric num}.
Variable St : Type.

Lemma yolo_filter_boxes_shapes (s : list nat) (c : nat)
      (boxes box_confidence box_class_probs : tensor num)
      (threshold : num) :
  s <> [] -> c <> 0 ->
  shape boxes = s ++ [4] ->
  shape box_confidence = s ++ [1] ->
  shape box_class_probs = s ++ [c] ->
  wf boxes -> wf box_confidence -> wf box_class_probs ->
  exists k scores boxes' classes,
    returns (yolo_filter_boxes (St:=St) boxes box_confidence
                               box_class_probs threshold)
            (scores, boxes', classes) /\
    shape scores = [k] /\ shape boxes' = [k; 4] /\ shape classes = [k] /\
    wf scores /\ wf boxes' /\ wf classes.
Proof.
  intros Hs Hc Sb Sc Sp Wb Wc Wp.
  pose proof (yolo_filter_boxes_result St s c boxes box_confidence
                box_class_probs threshold Hs Hc Sb Sc Sp Wc Wp) as R.
  cbn zeta in R.
  set (rows := map2 cell_scores (buf box_confidence)
                    (cells s c box_class_probs)) in *.
  set (mask := map (fun r => geb (tf.row_max r) threshold) rows) in *.
  assert (length (buf boxes) = size s * 4) as Lb
      by (unfold wf in Wb; now rewrite Sb, size_snoc in Wb).
  eexists. do 3 eexists. split; [exact R|].
  do 3 (split; [reflexivity|]).
  unfold wf. cbn [shape buf]. rewrite size_one. split; [|split].
  - apply select_length. now rewrite length_map.
  - change (size [length (select mask rows); 4])
      with (length (select mask rows) * (4 * 1)).
    rewrite (concat_rows_length 4)
      by (apply select_rows, chunks_rows, Lb).
    rewrite (select_length mask _ rows); [lia|].
    unfold rows, cells. rewrite map2_length, !chunks_length.
    unfold wf in Wc. rewrite Sc, size_snoc in Wc. lia.
  - apply select_length. now rewrite length_map.
Qed.

Lemma yolo_non_max_suppression_shapes (n : nat) (scores boxes : tensor num)
      (classes : tensor nat) (max_boxes : Z) (iou_threshold : num) :
  shape scores = [n] -> shape boxes = [n; 4] -> shape classes = [n] ->
  wf scores -> wf boxes -> wf classes ->
  (0 <= max_boxes < 2 ^ 31)%Z ->
  leb zero iou_threshold && leb iou_threshold one = true ->
  exists k scores' boxes' classes',
    returns (yolo_non_max_suppression (St:=St) scores boxes classes
                                      max_boxes iou_threshold)
            (scores', boxes', classes') /\
    shape scores' = [k] /\ shape boxes' = [k; 4] /\ shape classes' = [k] /\
    wf scores' /\ wf boxes' /\ wf classes' /\
    (Z.of_nat k <= max_boxes)%Z.
Proof.
  intros Ss Sb Sc Ws Wb Wc Hm Hi.
  pose proof (yolo_non_max_suppression_ok St n scores boxes classes
                max_boxes iou_threshold Ss Sb Sc Ws Hm Hi) as R.
  cbn zeta in R.
  set (sel := tf.selection n (buf boxes) (buf scores) max_boxes
                           iou_threshold) in *.
  assert (length (buf scores) = n) as Ls
      by (unfold wf in Ws; rewrite Ss, size_one in Ws; exact Ws).
  pose proof (selection_in_range n (buf boxes) (buf scores) max_boxes
                iou_threshold Ls) as F.
  fold sel in F.
  rewrite (gathered_vector n scores sel zero Ss Ws F) in R.
  rewrite (gathered_vector n classes sel 0 Sc Wc F) in R.
  pose proof (gathered_rows n 4 boxes sel Sb Wb F) as Rows.
  rewrite (gathered_matrix n 4 boxes sel Sb) in R, Rows.
  exists (length sel). do 3 eexists. split; [exact R|].
  do 3 (split; [reflexivity|]).
  unfold wf. cbn [shape buf]. rewrite size_one, !length_map.
  split; [reflexivity|]. split; [|split; [reflexivity|]].
  - change (size [length sel; 4]) with (length sel * (4 * 1)).
    rewrite (concat_rows_length 4); [rewrite length_map; lia|].
    unfold wf in Wb. rewrite Sb in Wb.
    assert (length (buf boxes) = n * 4) as L by (simpl in Wb; lia).
    pose proof (chunks_rows n 4 (buf boxes) L) as Rw.
    rewrite Forall_forall in *. intros r I.
    apply in_map_iff in I. destruct I as (i & <- & I).
    apply Rw. unfold cells. rewrite size_one. apply nth_In.
    rewrite chunks_length. auto.
  - exact (selection_bound_small n (buf boxes) (buf scores) max_boxes
             iou_threshold Hm).
Qed.

(** Boxes times the image dimensions are boxes still. *)
Lemma scale_by_image_dims_shape (k : nat) (boxes : tensor num)
      (height width : Z) (rest : list Z) :
  shape boxes = [k; 4] -> wf boxes ->
  exists scaled,
    scale_by_image_dims boxes (height :: width :: rest) = Ok scaled /\
    shape scaled = [k; 4] /\ wf scaled.
Proof.
  intros Sb Wb. unfold wf in Wb. rewrite Sb in Wb.
  assert (length (buf boxes) = k * 4) as L by (simpl in Wb; lia).
  unfold scale_by_image_dims, tf.multiply, tf.binary.
  rewrite Sb. cbn [shape buf length Nat.max tf.pad Nat.sub repeat app].
  set (dims := [_; _; _; _]).
  assert (tf.broadcast_shape [k; 4] [1; 4] = Some [k; 4]) as ->.
  { cbn. destruct k as [|[|k]]; reflexivity. }
  eexists. split; [reflexivity|]. split; [reflexivity|].
  unfold wf. cbn [shape buf].
  change (size [k; 4]) with (k * (4 * 1)).
  assert (forall row, length row = 4 ->
                      length (tf.bcast nmul [4] [4] row dims) = 4) as Row.
  { intros row Lr. rewrite bcast_same by (simpl; auto).
    rewrite map2_length, Lr. reflexivity. }
  pose proof (chunks_rows k 4 (buf boxes) L) as F.
  cbn [tf.bcast]. change (size [4]) with 4.
  destruct (Nat.eqb_spec k 1) as [->|Hk].
  - cbn [chunks map2 concat]. rewrite app_nil_r.
    rewrite (firstn_all2 (buf boxes)) by lia.
    change (firstn 4 dims) with dims. apply Row. lia.
  - cbn [Nat.eqb chunks hd firstn].
    rewrite (concat_rows_length 4).
    + rewrite length_map, chunks_length. lia.
    + rewrite Forall_forall in *. intros r I.
      apply in_map_iff in I. destruct I as (x & <- & I).
      apply Row. auto.
Qed.
End Shapes.

(* ================================================================== *)
(** ** Where an exception comes from *)

Section ErrorFacts.
Variable St : Type.

Lemma ret_error {A} (a : A) (st st' : St) (e : exn) :
  ret a st = (Err e, st') <-> st' = st /\ False.
Proof. unfold ret. split; [discriminate | tauto]. Qed.

Lemma call_error {A} (r : result A) (st st' : St) (e : exn) :
  call r st = (Err e, st') <->
  st' = st /\ first_error r e (fun _ => False).
Proof.
  unfold call, first_error. split.
  - intros [= -> ->]. auto.
  - intros [-> [->|(a & _ & [])]]. reflexivity.
Qed.

Lemma bind_call_error {A B} (r : result A) (k : A -> M St B)
      (st st' : St) (e : exn) (P : A -> Prop) :
  (forall a, k a st = (Err e, st') <-> st' = st /\ P a) ->
  (bind (call r) k st = (Err e, st') <-> st' = st /\ first_error r e P).
Proof.
  intros Hk. unfold bind, call, first_error. destruct r as [a|e0].
  - rewrite Hk. split.
    + intros [-> Pa]. eauto.
    + intros [-> [[=]|(a' & [= <-] & Pa)]]. auto.
  - split.
    + intros [= -> ->]. auto.
    + intros [-> [[= ->]|(a' & [=] & _)]]. reflexivity.
Qed.

Lemma bind_stage_error {A B} (m : M St A) (k : A -> M St B)
      (st st' : St) (e : exn) (P : A -> Prop) :
  stateless m ->
  (forall a, k a st = (Err e, st') <-> st' = st /\ P a) ->
  (bind m k st = (Err e, st') <->
   st' = st /\ first_error (fst (m st)) e P).
Proof.
  intros [r Hm] Hk. unfold bind. rewrite Hm. cbn [fst].
  apply (bind_call_error r k st st' e P Hk).
Qed.
End ErrorFacts.

(* ================================================================== *)
(** ** The claims *)

(** C1. [yolo_eval] on the four tensors (box centres, box sizes, box
    confidence, class probabilities) returns exactly when its four stages
    return one after the other, each fed by the one before: decode the
    boxes to corners, filter the boxes on their scores, rescale the kept
    boxes to the image shape, suppress the overlapping ones; what it
    returns is what the last stage returns. *)
Theorem yolo_eval_stages {num : Type} `{Numeric num} (St : Type)
        (scale_boxes : tensor num -> list Z -> result (tensor num))
        (box_xy box_wh box_confidence box_class_probs : tensor num)
        (image_shape : list Z) (max_boxes : Z)
        (score_threshold iou_threshold : num) (st st' : St)
        (out : outputs) :
  yolo_eval scale_boxes [box_xy; box_wh; box_confidence; box_class_probs]
            image_shape max_boxes score_threshold iou_threshold st
    = (Ok out, st') <->
  exists corners scores boxes classes scaled st1 st2,
    yolo_boxes_to_corners box_xy box_wh st = (Ok corners, st1) /\
    yolo_filter_boxes corners box_confidence box_class_probs
                      iou_threshold st1
      = (Ok (scores, boxes, classes), st2) /\
    scale_boxes boxes image_shape = Ok scaled /\
    yolo_non_max_suppression scores scaled classes max_boxes
                             iou_threshold st2 = (Ok out, st').
Proof.
  split.
  - intros E. apply yolo_eval_inv in E.
    destruct E as (xy & wh & conf & probs & corners & scores & boxes &
                   classes & scaled & st1 & st2 & [= -> -> -> ->] & E).
    exists corners, scores, boxes, classes, scaled, st1, st2. exact E.
  - intros (corners & scores & boxes & classes & scaled & st1 & st2 &
            E1 & E2 & E3 & E4).
    now apply (yolo_eval_ok St scale_boxes box_xy box_wh box_confidence
                 box_class_probs image_shape max_boxes score_threshold
                 iou_threshold st st1 st2 st' corners scores boxes scaled
                 classes out).
Qed.

(** C2. On a grid of boxes, confidences and class probabilities,
    [yolo_filter_boxes] keeps exactly the cells whose greatest class score
    (confidence times class probability) is at least the threshold, in grid
    order; a cell whose greatest class score is below the threshold is
    dropped. For each cell kept it returns that greatest score, the box of
    the cell, and the first class at which the score is attained. *)
Theorem yolo_filter_boxes_spec {num : Type} `{NumericLaws num} (St : Type)
        (s : list nat) (c : nat)
        (boxes box_confidence box_class_probs : tensor num)
        (threshold : num) :
  s <> [] -> c <> 0 ->
  shape boxes = s ++ [4] ->
  shape box_confidence = s ++ [1] ->
  shape box_class_probs = s ++ [c] ->
  wf boxes -> wf box_confidence -> wf box_class_probs ->
  let class_scores i :=
    cell_scores (nth i (buf box_confidence) zero)
                (nth i (cells s c box_class_probs) []) in
  let kept :=
    kept_cells threshold (buf box_confidence) (cells s c box_class_probs) in
  exists scores boxes' classes,
    returns (yolo_filter_boxes (St:=St) boxes box_confidence box_class_probs
                               threshold)
            (scores, boxes', classes) /\
    (forall i, In i kept <->
               i < size s /\
               geb (tf.row_max (class_scores i)) threshold = true) /\
    (forall i, ltb (tf.row_max (class_scores i)) threshold = true ->
               ~ In i kept) /\
    shape scores = [length kept] /\
    buf scores = map (fun i => tf.row_max (class_scores i)) kept /\
    shape boxes' = [length kept; 4] /\
    cells [length kept] 4 boxes' =
      map (fun i => nth i (cells s 4 boxes) []) kept /\
    shape classes = [length kept] /\
    buf classes = map (fun i => tf.row_argmax (class_scores i)) kept /\
    (forall i, i < size s ->
       is_maximum (class_scores i) (tf.row_max (class_scores i)) /\
       nth (tf.row_argmax (class_scores i)) (class_scores i) zero =
         tf.row_max (class_scores i) /\
       tf.row_argmax (class_scores i) < c /\
       forall j, j < tf.row_argmax (class_scores i) ->
                 ltb (nth j (class_scores i) zero)
                     (tf.row_max (class_scores i)) = true).
Proof.
  intros Hs Hc Sb Sc Sp Wb Wc Wp class_scores kept.
  pose proof (yolo_filter_boxes_result St s c boxes box_confidence
                box_class_probs threshold Hs Hc Sb Sc Sp Wc Wp) as R.
  cbn zeta in R.
  assert (length (buf box_confidence) = size s) as Lc
      by (unfold wf in Wc; rewrite Sc, size_snoc in Wc; lia).
  assert (length (buf box_class_probs) = size s * c) as Lp
      by (unfold wf in Wp; now rewrite Sp, size_snoc in Wp).
  assert (length (buf boxes) = size s * 4) as Lb
      by (unfold wf in Wb; now rewrite Sb, size_snoc in Wb).
  assert (length (cells s c box_class_probs) = size s) as LP
      by (unfold cells; now rewrite chunks_length).
  rewrite (select_kept threshold _ _ _ Lc LP _ [])
    in R by (rewrite map2_length; lia).
  rewrite (select_kept_map threshold _ _ _ Lc LP tf.row_max zero) in R.
  rewrite (select_kept_map threshold _ _ _ Lc LP tf.row_argmax 0) in R.
  rewrite (select_kept threshold _ _ _ Lc LP (cells s 4 boxes) [])
    in R by (unfold cells; now rewrite chunks_length).
  fold kept in R. rewrite length_map in R.
  do 3 eexists. split; [exact R|].
  split; [intros i; apply (kept_cells_in threshold _ _ _ Lc LP)|].
  split.
  { intros i Lt I. apply (kept_cells_in threshold _ _ _ Lc LP) in I.
    destruct I as [_ G]. unfold geb in G. rewrite ltb_leb in Lt.
    unfold class_scores in Lt. now rewrite G in Lt. }
  do 3 (split; [reflexivity|]).
  split.
  { apply cells_concat; [now rewrite size_one, length_map|].
    rewrite Forall_forall. intros r I. apply in_map_iff in I.
    destruct I as (i & <- & I). apply (kept_cells_in threshold _ _ _ Lc LP) in I.
    pose proof (chunks_rows (size s) 4 (buf boxes) Lb) as F.
    rewrite Forall_forall in F. apply F, nth_In.
    rewrite chunks_length. tauto. }
  do 2 (split; [reflexivity|]).
  intros i Hi.
  assert (length (class_scores i) = c) as Lcs.
  { unfold class_scores, cell_scores. rewrite length_map.
    pose proof (chunks_rows (size s) c (buf box_class_probs) Lp) as F.
    rewrite Forall_forall in F. apply F, nth_In.
    now rewrite chunks_length. }
  assert (class_scores i <> []) as Ne
      by (intros E; rewrite E in Lcs; simpl in Lcs; lia).
  split; [now apply row_max_is_maximum|].
  rewrite <- Lcs.
  destruct (row_argmax_spec (class_scores i) zero Ne) as [E L].
  split; [exact E|]. split; [exact L|].
  intros j. apply row_argmax_first.
Qed.

Lemma yolo_filter_boxes_spec_witness :
  let threshold := Fin (6 # 10) in
  let class_scores i :=
    cell_scores (nth i (buf ex_confidence) zero)
                (nth i (cells [1; 2; 1] 3 ex_class_probs) []) in
  let kept :=
    kept_cells threshold (buf ex_confidence)
               (cells [1; 2; 1] 3 ex_class_probs) in
  exists scores boxes' classes,
    returns (yolo_filter_boxes (St:=unit) ex_boxes ex_confidence
                               ex_class_probs threshold)
            (scores, boxes', classes) /\
    (forall i, In i kept <->
               i < size [1; 2; 1] /\
               geb (tf.row_max (class_scores i)) threshold = true) /\
    (forall i, ltb (tf.row_max (class_scores i)) threshold = true ->
               ~ In i kept) /\
    shape scores = [length kept] /\
    buf scores = map (fun i => tf.row_max (class_scores i)) kept /\
    shape boxes' = [length kept; 4] /\
    cells [length kept] 4 boxes' =
      map (fun i => nth i (cells [1; 2; 1] 4 ex_boxes) []) kept /\
    shape classes = [length kept] /\
    buf classes = map (fun i => tf.row_argmax (class_scores i)) kept /\
    (forall i, i < size [1; 2; 1] ->
       is_maximum (class_scores i) (tf.row_max (class_scores i)) /\
       nth (tf.row_argmax (class_scores i)) (class_scores i) zero =
         tf.row_max (class_scores i) /\
       tf.row_argmax (class_scores i) < 3 /\
       forall j, j < tf.row_argmax (class_scores i) ->
                 ltb (nth j (class_scores i) zero)
                     (tf.row_max (class_scores i)) = true).
Proof.
  apply (@yolo_filter_boxes_spec xrat _ xrat_laws unit [1; 2; 1] 3 ex_boxes
           ex_confidence ex_class_probs (Fin (6 # 10)));
    try reflexivity; discriminate.
Defined.

(** C3. On [n] scored, classed boxes, with [max_boxes] a non-negative
    [int32], [yolo_non_max_suppression] selects indices greedily, in
    descending order of score. The selected indices are distinct, in
    range and of a score above [-inf]; each scores no higher than those
    selected before it, and has no intersection-over-union above
    [iou_threshold] with any of them; at most [max_boxes] are selected. A
    box of a score above [-inf] that is not selected was passed over for
    one of two reasons: a selected box of no lower score overlaps it by
    more than the threshold, or the selection stopped at min([max_boxes],
    n) boxes before its turn, every one of them of no lower score. The
    three outputs are the scores, boxes and classes at the selected
    indices, the same index in all three. *)
Theorem yolo_non_max_suppression_spec {num : Type} `{NumericLaws num}
        (St : Type) (n : nat) (scores boxes : tensor num)
        (classes : tensor nat) (max_boxes : Z) (iou_threshold : num) :
  shape scores = [n] -> shape boxes = [n; 4] -> shape classes = [n] ->
  wf scores -> wf boxes -> wf classes ->
  (0 <= max_boxes < 2 ^ 31)%Z ->
  leb zero iou_threshold && leb iou_threshold one = true ->
  let score i := nth i (buf scores) zero in
  let box i := nth i (cells [n] 4 boxes) [] in
  let class i := nth i (buf classes) 0 in
  let iou i j := tf.IOU (box i) (box j) in
  exists sel scores' boxes' classes',
    returns (yolo_non_max_suppression (St:=St) scores boxes classes
                                      max_boxes iou_threshold)
            (scores', boxes', classes') /\
    shape scores' = [length sel] /\ buf scores' = map score sel /\
    shape boxes' = [length sel; 4] /\
    cells [length sel] 4 boxes' = map box sel /\
    shape classes' = [length sel] /\ buf classes' = map class sel /\
    NoDup sel /\
    Forall (fun i => i < n /\ ltb neg_inf (score i) = true) sel /\
    (Z.of_nat (length sel) <= max_boxes)%Z /\
    (forall j i, earlier sel j i ->
       leb (score i) (score j) = true /\
       ltb iou_threshold (iou i j) = false) /\
    (forall i, i < n -> ltb neg_inf (score i) = true -> ~ In i sel ->
       (exists j, In j sel /\ leb (score i) (score j) = true /\
                  ltb iou_threshold (iou i j) = true) \/
       (length sel = Nat.min (Z.to_nat max_boxes) n /\
        forall j, In j sel -> leb (score i) (score j) = true)).
Proof.
  intros Ss Sb Sc Ws Wb Wc Hm Hi score box class iou.
  pose proof (yolo_non_max_suppression_ok St n scores boxes classes
                max_boxes iou_threshold Ss Sb Sc Ws Hm Hi) as R.
  cbn zeta in R.
  set (sel := tf.selection n (buf boxes) (buf scores) max_boxes
                           iou_threshold) in *.
  assert (length (buf scores) = n) as Ls
      by (unfold wf in Ws; rewrite Ss, size_one in Ws; exact Ws).
  pose proof (selection_in_range n (buf boxes) (buf scores) max_boxes
                iou_threshold Ls) as F.
  fold sel in F.
  rewrite (gathered_vector n scores sel zero Ss Ws F) in R.
  rewrite (gathered_vector n classes sel 0 Sc Wc F) in R.
  exists sel. do 3 eexists. split; [exact R|].
  do 2 (split; [reflexivity|]).
  split; [rewrite (gathered_matrix n 4 boxes sel Sb); reflexivity|].
  split; [exact (gathered_rows n 4 boxes sel Sb Wb F)|].
  do 2 (split; [reflexivity|]).
  split; [exact (selection_NoDup n (buf boxes) (buf scores) max_boxes
                   iou_threshold)|].
  split.
  { rewrite Forall_forall in *. intros i I. split; [now apply F|].
    exact (selection_finite n (buf boxes) (buf scores) max_boxes
             iou_threshold i I). }
  split; [exact (selection_bound_small n (buf boxes) (buf scores) max_boxes
                   iou_threshold Hm)|].
  assert (forall i j, ltb iou_threshold (iou i j) =
                      tf.overlaps (chunks n 4 (buf boxes)) iou_threshold i j)
    as O.
  { intros i j. unfold iou, box, cells, tf.overlaps.
    now rewrite size_one. }
  split.
  - intros j i E. split.
    + now apply (selection_descending n (buf boxes) (buf scores) max_boxes
                   iou_threshold).
    + rewrite O. now apply (selection_apart n (buf boxes) (buf scores)
                              max_boxes iou_threshold).
  - intros i Hn Hs Hni.
    destruct (selection_greedy n (buf boxes) (buf scores) max_boxes
                iou_threshold i) as [[G Up]|(j & I & L & G)]; auto;
      try lia.
    + right. split; [|exact Up].
      pose proof (selection_length n (buf boxes) (buf scores) max_boxes
                    iou_threshold) as B.
      fold sel in G, B.
      rewrite (output_size_small max_boxes n Hm) in G, B. lia.
    + left. exists j. rewrite O. auto.
Qed.

Lemma yolo_non_max_suppression_spec_witness :
  let score i := nth i (buf ex_nms_scores) zero in
  let box i := nth i (cells [3] 4 ex_nms_boxes) [] in
  let class i := nth i (buf ex_nms_classes) 0 in
  let iou i j := tf.IOU (box i) (box j) in
  let iou_threshold := Fin (1 # 2) in
  exists sel scores' boxes' classes',
    returns (yolo_non_max_suppression (St:=unit) ex_nms_scores ex_nms_boxes
                                      ex_nms_classes 10 iou_threshold)
            (scores', boxes', classes') /\
    shape scores' = [length sel] /\ buf scores' = map score sel /\
    shape boxes' = [length sel; 4] /\
    cells [length sel] 4 boxes' = map box sel /\
    shape classes' = [length sel] /\ buf classes' = map class sel /\
    NoDup sel /\
    Forall (fun i => i < 3 /\ ltb neg_inf (score i) = true) sel /\
    (Z.of_nat (length sel) <= 10)%Z /\
    (forall j i, earlier sel j i ->
       leb (score i) (score j) = true /\
       ltb iou_threshold (iou i j) = false) /\
    (forall i, i < 3 -> ltb neg_inf (score i) = true -> ~ In i sel ->
       (exists j, In j sel /\ leb (score i) (score j) = true /\
                  ltb iou_threshold (iou i j) = true) \/
       (length sel = Nat.min (Z.to_nat 10) 3 /\
        forall j, In j sel -> leb (score i) (score j) = true)).
Proof.
  apply (@yolo_non_max_suppression_spec xrat _ xrat_laws unit 3
           ex_nms_scores ex_nms_boxes ex_nms_classes 10 (Fin (1 # 2)));
    try reflexivity.
  lia.
Defined.




(** C5. On centres [box_xy] and sizes [box_wh] (last axis of extent 2),
    [yolo_boxes_to_corners] returns a tensor over the same grid whose
    cell [i] is (y - h/2, x - w/2, y + h/2, x + w/2): the minimum corner is
    the centre minus half the size, the maximum corner the centre plus
    half the size, in the order (y_min, x_min, y_max, x_max). *)
Theorem yolo_boxes_to_corners_spec {num : Type} `{Numeric num} (St : Type)
        (s : list nat) (box_xy box_wh : tensor num) :
  shape box_xy = s ++ [2] -> shape box_wh = s ++ [2] ->
  wf box_xy -> wf box_wh ->
  exists corners,
    returns (yolo_boxes_to_corners (St:=St) box_xy box_wh) corners /\
    shape corners = s ++ [4] /\ wf corners /\
    forall i, i < size s ->
      nth i (cells s 4 corners) [] =
      let x := nth 0 (nth i (cells s 2 box_xy) []) zero in
      let y := nth 1 (nth i (cells s 2 box_xy) []) zero in
      let w := nth 0 (nth i (cells s 2 box_wh) []) zero in
      let h := nth 1 (nth i (cells s 2 box_wh) []) zero in
      [ nsub y (ndiv h (of_Q 2)); nsub x (ndiv w (of_Q 2));
        nadd y (ndiv h (of_Q 2)); nadd x (ndiv w (of_Q 2)) ].
Proof.
  intros Sxy Swh Wxy Wwh.
  pose proof (yolo_boxes_to_corners_result St s box_xy box_wh Sxy Swh Wxy
                Wwh) as R.
  eexists. split; [exact R|].
  set (rows := map2 corners_of (cells s 2 box_xy) (cells s 2 box_wh)).
  assert (length rows = size s) as L
      by (unfold rows, cells; rewrite map2_length, !chunks_length; lia).
  split; [reflexivity|]. split.
  - unfold wf. cbn [shape buf]. rewrite size_snoc, <- L.
    apply concat_rows_length, corners_rows.
  - intros i Hi. rewrite cells_concat; [|exact L|apply corners_rows].
    unfold rows.
    rewrite (map2_nth corners_of _ _ i [] [] [])
      by (unfold cells; rewrite chunks_length; lia).
    reflexivity.
Qed.

Lemma yolo_boxes_to_corners_spec_witness :
  exists corners,
    returns (yolo_boxes_to_corners (St:=unit) ex_xy ex_wh) corners /\
    shape corners = [1; 2; 1] ++ [4] /\ wf corners /\
    forall i, i < size [1; 2; 1] ->
      nth i (cells [1; 2; 1] 4 corners) [] =
      let x := nth 0 (nth i (cells [1; 2; 1] 2 ex_xy) []) zero in
      let y := nth 1 (nth i (cells [1; 2; 1] 2 ex_xy) []) zero in
      let w := nth 0 (nth i (cells [1; 2; 1] 2 ex_wh) []) zero in
      let h := nth 1 (nth i (cells [1; 2; 1] 2 ex_wh) []) zero in
      [ nsub y (ndiv h (of_Q 2)); nsub x (ndiv w (of_Q 2));
        nadd y (ndiv h (of_Q 2)); nadd x (ndiv w (of_Q 2)) ].
Proof.
  apply (yolo_boxes_to_corners_spec unit [1; 2; 1] ex_xy ex_wh);
    reflexivity.
Defined.

(** C6. On four well-formed tensors over one grid (centres and sizes
    with 2 entries per cell, one confidence per cell, [c] class
    probabilities per cell), with a rescaling that maps boxes to boxes
    and [max_boxes] a non-negative [int32] (at most [2 ^ 31 - 1]),
    [yolo_eval] returns three parallel outputs of one length [k]: [k]
    scores, [k] rows of 4 corner coordinates, [k] class indices. *)
Theorem yolo_eval_outputs_parallel {num : Type} `{Numeric num} (St : Type)
        (scale_boxes : tensor num -> list Z -> result (tensor num))
        (s : list nat) (c : nat)
        (box_xy box_wh box_confidence box_class_probs : tensor num)
        (image_shape : list Z) (max_boxes : Z)
        (score_threshold iou_threshold : num) :
  s <> [] -> c <> 0 ->
  shape box_xy = s ++ [2] -> shape box_wh = s ++ [2] ->
  shape box_confidence = s ++ [1] -> shape box_class_probs = s ++ [c] ->
  wf box_xy -> wf box_wh -> wf box_confidence -> wf box_class_probs ->
  (forall k boxes, shape boxes = [k; 4] -> wf boxes ->
     exists scaled, scale_boxes boxes image_shape = Ok scaled /\
                    shape scaled = [k; 4] /\ wf scaled) ->
  (0 <= max_boxes < 2 ^ 31)%Z ->
  leb zero iou_threshold && leb iou_threshold one = true ->
  exists k scores boxes classes,
    returns (yolo_eval (St:=St) scale_boxes
                       [box_xy; box_wh; box_confidence; box_class_probs]
                       image_shape max_boxes score_threshold iou_threshold)
            (scores, boxes, classes) /\
    shape scores = [k] /\ shape boxes = [k; 4] /\ shape classes = [k] /\
    length (buf scores) = k /\
    length (cells [k] 4 boxes) = k /\
    Forall (fun row => length row = 4) (cells [k] 4 boxes) /\
    length (buf classes) = k.
Proof.
  intros Hs Hc Sxy Swh Sconf Sprobs Wxy Wwh Wconf Wprobs Hscale Hm Hi.
  pose proof (yolo_boxes_to_corners_result St s box_xy box_wh Sxy Swh Wxy
                Wwh) as R1.
  set (corners := mkTensor (s ++ [4]) _) in R1.
  assert (wf corners) as Wcorners.
  { unfold wf, corners. cbn [shape buf]. rewrite size_snoc.
    rewrite (concat_rows_length 4) by apply corners_rows.
    unfold cells. rewrite map2_length, !chunks_length. lia. }
  destruct (yolo_filter_boxes_shapes St s c corners box_confidence
              box_class_probs iou_threshold Hs Hc eq_refl Sconf Sprobs
              Wcorners Wconf Wprobs)
    as (k1 & scores1 & boxes1 & classes1 & R2 & Ss1 & Sb1 & Sc1 &
        Ws1 & Wb1 & Wc1).
  destruct (Hscale k1 boxes1 Sb1 Wb1) as (scaled & R3 & Ssc & Wsc).
  destruct (yolo_non_max_suppression_shapes St k1 scores1 scaled classes1
              max_boxes iou_threshold Ss1 Ssc Sc1 Ws1 Wsc Wc1 Hm Hi)
    as (k & scores & boxes & classes & R4 & Ss & Sb & Sc & Ws & Wb & Wc & _).
  exists k, scores, boxes, classes.
  split.
  { intros st.
    apply (yolo_eval_ok St scale_boxes box_xy box_wh box_confidence
             box_class_probs image_shape max_boxes score_threshold
             iou_threshold st st st st corners scores1 boxes1 scaled
             classes1 (scores, boxes, classes));
      [apply R1 | apply R2 | exact R3 | apply R4]. }
  do 3 (split; [assumption|]).
  unfold wf in Ws, Wb, Wc. rewrite Ss, size_one in Ws.
  rewrite Sc, size_one in Wc. rewrite Sb in Wb.
  assert (length (buf boxes) = k * 4)
    as Lb by (rewrite Wb; simpl; lia).
  unfold cells. rewrite size_one, chunks_length.
  repeat split; auto. now apply chunks_rows.
Qed.

Lemma yolo_eval_outputs_parallel_witness :
  exists k scores boxes classes,
    returns (yolo_eval (St:=unit) scale_by_image_dims
                       [ex_xy; ex_wh; ex_confidence; ex_class_probs]
                       [720; 1280]%Z 10%Z (Fin (3 # 10)) (Fin (5 # 10)))
            (scores, boxes, classes) /\
    shape scores = [k] /\ shape boxes = [k; 4] /\ shape classes = [k] /\
    length (buf scores) = k /\
    length (cells [k] 4 boxes) = k /\
    Forall (fun row => length row = 4) (cells [k] 4 boxes) /\
    length (buf classes) = k.
Proof.
  apply (yolo_eval_outputs_parallel unit scale_by_image_dims [1; 2; 1] 3);
    try reflexivity; try discriminate; try lia.
  intros k boxes Sb Wb. now apply scale_by_image_dims_shape.
Defined.

(** C8. The code handles no error. A call of [yolo_boxes_to_corners],
    [yolo_filter_boxes] or [yolo_non_max_suppression] raises [e] exactly
    when one of its library calls, the ones before it having returned,
    raises [e]; a call of [yolo_eval] raises [e] exactly when the
    unpacking of its argument, one of its three helpers or the rescaling,
    the ones before it having returned, raises [e]. The exception is the
    outcome as it was raised: no value is returned in its place, and the
    state is as it was. *)
Theorem errors_propagate {num : Type} `{Numeric num} (St : Type)
        (scale_boxes : tensor num -> list Z -> result (tensor num))
        (e : exn) (st st' : St) :
  (forall box_xy box_wh,
     yolo_boxes_to_corners box_xy box_wh st = (Err e, st') <->
     st' = st /\
     first_error (tf.divide_scalar box_wh (of_Q 2)) e (fun half =>
     first_error (tf.subtract box_xy half) e (fun box_mins =>
     first_error (tf.divide_scalar box_wh (of_Q 2)) e (fun half' =>
     first_error (tf.add box_xy half') e (fun box_maxes =>
     first_error (tf.slice_last 1 2 box_mins) e (fun y_min =>
     first_error (tf.slice_last 0 1 box_mins) e (fun x_min =>
     first_error (tf.slice_last 1 2 box_maxes) e (fun y_max =>
     first_error (tf.slice_last 0 1 box_maxes) e (fun x_max =>
     first_error (tf.keras_backend_concatenate [y_min; x_min; y_max; x_max])
                 e (fun _ => False)))))))))) /\
  (forall boxes box_confidence box_class_probs threshold,
     yolo_filter_boxes boxes box_confidence box_class_probs threshold st
       = (Err e, st') <->
     st' = st /\
     first_error (tf.multiply box_confidence box_class_probs) e
                 (fun box_scores =>
     first_error (tf.math_argmax box_scores) e (fun box_classes =>
     first_error (tf.math_reduce_max box_scores) e (fun box_class_scores =>
     first_error (tf.greater_equal_scalar box_class_scores threshold) e
                 (fun filtering_mask =>
     first_error (tf.boolean_mask box_class_scores filtering_mask) e
                 (fun _ =>
     first_error (tf.boolean_mask boxes filtering_mask) e (fun _ =>
     first_error (tf.boolean_mask box_classes filtering_mask) e
                 (fun _ => False)))))))) /\
  (forall scores boxes classes max_boxes iou_threshold,
     yolo_non_max_suppression scores boxes classes max_boxes iou_threshold
                              st = (Err e, st') <->
     st' = st /\
     first_error (tf.image_non_max_suppression boxes scores max_boxes
                                               iou_threshold) e
                 (fun nms_indices =>
     first_error (tf.gather scores nms_indices) e (fun _ =>
     first_error (tf.gather boxes nms_indices) e (fun _ =>
     first_error (tf.gather classes nms_indices) e (fun _ => False))))) /\
  (forall yolo_outputs image_shape max_boxes score_threshold iou_threshold,
     yolo_eval scale_boxes yolo_outputs image_shape max_boxes
               score_threshold iou_threshold st = (Err e, st') <->
     st' = st /\
     first_error (unpack4 yolo_outputs) e
       (fun '(box_xy, box_wh, box_confidence, box_class_probs) =>
     first_error (fst (yolo_boxes_to_corners box_xy box_wh st)) e
       (fun corners =>
     first_error (fst (yolo_filter_boxes corners box_confidence
                                         box_class_probs iou_threshold st))
                 e
       (fun '(scores, boxes, classes) =>
     first_error (scale_boxes boxes image_shape) e (fun scaled =>
     first_error (fst (yolo_non_max_suppression scores scaled classes
                                                max_boxes iou_threshold st))
                 e (fun _ => False)))))).
Proof.
  split; [|split; [|split]].
  - intros. unfold yolo_boxes_to_corners.
    repeat (apply bind_call_error; intros ?). apply call_error.
  - intros. unfold yolo_filter_boxes.
    repeat (apply bind_call_error; intros ?). apply ret_error.
  - intros. unfold yolo_non_max_suppression.
    repeat (apply bind_call_error; intros ?). apply ret_error.
  - intros. unfold yolo_eval.
    apply bind_call_error. intros [[[box_xy box_wh] conf] probs].
    apply bind_stage_error; [apply yolo_boxes_to_corners_stateless|].
    intros corners.
    apply bind_stage_error; [apply yolo_filter_boxes_stateless|].
    intros [[scores boxes] classes].
    apply bind_call_error. intros scaled.
    apply bind_stage_error; [apply yolo_non_max_suppression_stateless|].
    intros [[? ?] ?]. apply ret_error.
Qed.

Lemma errors_propagate_witness :
  yolo_filter_boxes (St:=unit) ex_boxes ex_confidence ex_bad_class_probs
                    (Fin (5 # 10)) tt
    = (Err (InvalidArgumentError "Incompatible shapes"), tt) /\
  yolo_eval (St:=unit) scale_by_image_dims
            [ex_xy; ex_wh; ex_confidence; ex_bad_class_probs]
            [720; 1280]%Z 10%Z (Fin (3 # 10)) (Fin (5 # 10)) tt
    = (Err (InvalidArgumentError "Incompatible shapes"), tt).
Proof.
  pose proof (errors_propagate unit scale_by_image_dims
                (InvalidArgumentError "Incompatible shapes") tt tt)
    as (_ & Hfilter & _ & Heval).
  split.
  - apply Hfilter. split; [reflexivity|]. left. reflexivity.
  - apply Heval. split; [reflexivity|].
    right. eexists. split; [reflexivity|].
    right. eexists. split; [vm_compute; reflexivity|].
    left. reflexivity.
Defined.

(** C9. [yolo_eval] ignores [score_threshold]: whatever its value the call
    is the same, for the filtering stage is given [iou_threshold] as its
    threshold. So the 0.3 that [predict] passes has no effect, and its
    boxes are filtered at its [iou_threshold], 0.5. *)
Theorem score_threshold_ignored {num : Type} `{Numeric num} (St : Type)
        (scale_boxes : tensor num -> list Z -> result (tensor num))
        (Frame Image ModelOutputs Colors Anchors : Type)
        (class_names : St -> list string) (anchors : St -> Anchors)
        (yolo_model : tensor num -> M St ModelOutputs)
        (preprocess_image : Frame -> Z * Z -> M St (Image * tensor num))
        (image_size : Image -> Z * Z)
        (getitem : ModelOutputs -> string -> result (tensor num))
        (yolo_head : tensor num -> Anchors -> nat -> M St (list (tensor num)))
        (get_colors_for_classes : nat -> M St Colors)
        (draw_boxes : Image -> tensor num -> tensor nat -> list string ->
                      tensor num -> M St Frame) :
  (forall yolo_outputs image_shape max_boxes iou_threshold
          score_threshold score_threshold',
     yolo_eval (St:=St) scale_boxes yolo_outputs image_shape max_boxes
               score_threshold iou_threshold =
     yolo_eval scale_boxes yolo_outputs image_shape max_boxes
               score_threshold' iou_threshold) /\
  (forall box_xy box_wh box_confidence box_class_probs image_shape
          max_boxes score_threshold iou_threshold (st : St),
     yolo_eval scale_boxes
               [box_xy; box_wh; box_confidence; box_class_probs]
               image_shape max_boxes score_threshold iou_threshold st =
     (corners <- yolo_boxes_to_corners box_xy box_wh ;;
      '(scores, boxes, classes) <-
        yolo_filter_boxes corners box_confidence box_class_probs
                          iou_threshold ;;
      scaled <- call (scale_boxes boxes image_shape) ;;
      yolo_non_max_suppression scores scaled classes max_boxes
                               iou_threshold) st) /\
  (forall score_threshold numpy_image,
     predict scale_boxes class_names anchors yolo_model preprocess_image
             image_size getitem yolo_head get_colors_for_classes
             draw_boxes numpy_image =
     predict_with scale_boxes class_names anchors yolo_model
                  preprocess_image image_size getitem yolo_head
                  get_colors_for_classes draw_boxes
                  score_threshold (of_Q (5 # 10)) numpy_image).
Proof.
  split; [|split].
  - reflexivity.
  - intros. unfold yolo_eval, bind at 1, call at 1. cbn [unpack4].
    unfold bind.
    destruct (yolo_boxes_to_corners box_xy box_wh st) as [[corners|?] st1];
      [|reflexivity].
    destruct (yolo_filter_boxes corners box_confidence box_class_probs
                                iou_threshold st1)
      as [[[[scores boxes] classes]|?] st2]; [|reflexivity].
    destruct (call (scale_boxes boxes image_shape) st2)
      as [[scaled|?] st3]; [|reflexivity].
    destruct (yolo_non_max_suppression scores scaled classes max_boxes
                                       iou_threshold st3)
      as [[[[? ?] ?]|?] st4]; reflexivity.
  - reflexivity.
Qed.

(** C10. [yolo_non_max_suppression] keeps the layout of its inputs: what
    it returns are the rows of [scores], [boxes] and [classes] at one list
    of indices, each output shaped as its input but for the number of
    rows; scores come back as a vector and boxes as rows of 4
    coordinates, not transposed. *)
Theorem yolo_non_max_suppression_layout {num : Type} `{Numeric num}
        (St : Type) (scores boxes : tensor num) (classes : tensor nat)
        (max_boxes : Z) (iou_threshold : num) (st st' : St)
        (scores' boxes' : tensor num) (classes' : tensor nat) :
  yolo_non_max_suppression scores boxes classes max_boxes iou_threshold st
    = (Ok (scores', boxes', classes'), st') ->
  exists n sel,
    shape scores = [n] /\ shape boxes = [n; 4] /\
    Forall (fun i => i < hd 0 (shape classes)) sel /\
    scores' = gathered scores sel /\
    boxes' = gathered boxes sel /\
    classes' = gathered classes sel /\
    shape scores' = [length sel] /\
    shape boxes' = [length sel; 4] /\
    shape classes' = length sel :: tl (shape classes) /\
    (forall m, shape classes = [m] -> shape classes' = [length sel]).
Proof.
  intros E. apply yolo_non_max_suppression_inv in E.
  destruct E as (n & _ & Sb & Ss & Hm & E & F).
  injection E as -> -> ->.
  exists n, (tf.selection n (buf boxes) (buf scores) max_boxes
                          iou_threshold).
  split; [exact Ss|]. split; [exact Sb|]. split; [exact F|].
  do 3 (split; [reflexivity|]).
  split; [cbn [gathered shape]; now rewrite Ss|].
  split; [cbn [gathered shape]; now rewrite Sb|].
  split; [reflexivity|].
  intros m E. cbn [gathered shape]. now rewrite E.
Qed.

Lemma yolo_non_max_suppression_layout_witness :
  let scores' := mkTensor [2] (map Fin [9 # 10; 7 # 10]) in
  let boxes' := mkTensor [2; 4] (map Fin [0 # 1; 0 # 1; 2 # 1; 22 # 10;
                                          5 # 1; 5 # 1; 6 # 1; 6 # 1]) in
  let classes' := mkTensor [2] [7; 2] in
  yolo_non_max_suppression (St:=unit) ex_nms_scores ex_nms_boxes
                           ex_nms_classes 10 (Fin (1 # 2)) tt
    = (Ok (scores', boxes', classes'), tt) /\
  exists n sel,
    shape ex_nms_scores = [n] /\ shape ex_nms_boxes = [n; 4] /\
    Forall (fun i => i < hd 0 (shape ex_nms_classes)) sel /\
    scores' = gathered ex_nms_scores sel /\
    boxes' = gathered ex_nms_boxes sel /\
    classes' = gathered ex_nms_classes sel /\
    shape scores' = [length sel] /\
    shape boxes' = [length sel; 4] /\
    shape classes' = length sel :: tl (shape ex_nms_classes) /\
    (forall m, shape ex_nms_classes = [m] -> shape classes' = [length sel]).
Proof.
  assert (yolo_non_max_suppression (St:=unit) ex_nms_scores ex_nms_boxes
                                   ex_nms_classes 10 (Fin (1 # 2)) tt
          = (Ok (mkTensor [2] (map Fin [9 # 10; 7 # 10]),
                 mkTensor [2; 4] (map Fin [0 # 1; 0 # 1; 2 # 1; 22 # 10;
                                           5 # 1; 5 # 1; 6 # 1; 6 # 1]),
                 mkTensor [2] [7; 2]), tt)) as E
      by (vm_compute; reflexivity).
  split; [exact E|].
  exact (yolo_non_max_suppression_layout unit ex_nms_scores ex_nms_boxes
           ex_nms_classes 10 (Fin (1 # 2)) tt tt _ _ _ E).
Defined.

(* ================================================================== *)
(** * Further properties *)

(* ================================================================== *)
(** ** Further properties of the filtering stage *)

Section FilterKept.
Context {num : Type} `{Numeric num}.
Variable St : Type.

(** The three outputs, by the indices of the cells kept. *)
Lemma yolo_filter_boxes_kept (s : list nat) (c : nat)
      (boxes box_confidence box_class_probs : tensor num)
      (threshold : num) :
  s <> [] -> c <> 0 ->
  shape boxes = s ++ [4] ->
  shape box_confidence = s ++ [1] ->
  shape box_class_probs = s ++ [c] ->
  wf box_confidence -> wf box_class_probs ->
  let class_scores i :=
    cell_scores (nth i (buf box_confidence) zero)
                (nth i (cells s c box_class_probs) []) in
  let kept :=
    kept_cells threshold (buf box_confidence) (cells s c box_class_probs) in
  returns (yolo_filter_boxes (St:=St) boxes box_confidence box_class_probs
                             threshold)
          (mkTensor [length kept]
                    (map (fun i => tf.row_max (class_scores i)) kept),
           mkTensor [length kept; 4]
                    (concat (map (fun i => nth i (cells s 4 boxes) []) kept)),
           mkTensor [length kept]
                    (map (fun i => tf.row_argmax (class_scores i)) kept)).
Proof.
  intros Hs Hc Sb Sc Sp Wc Wp class_scores kept.
  pose proof (yolo_filter_boxes_result St s c boxes box_confidence
                box_class_probs threshold Hs Hc Sb Sc Sp Wc Wp) as R.
  cbn zeta in R.
  assert (length (buf box_confidence) = size s) as Lc
      by (unfold wf in Wc; rewrite Sc, size_snoc in Wc; lia).
  assert (length (cells s c box_class_probs) = size s) as LP
      by (unfold cells; now rewrite chunks_length).
  rewrite (select_kept threshold _ _ _ Lc LP _ [])
    in R by (rewrite map2_length; lia).
  rewrite (select_kept_map threshold _ _ _ Lc LP tf.row_max zero) in R.
  rewrite (select_kept_map threshold _ _ _ Lc LP tf.row_argmax 0) in R.
  rewrite (select_kept threshold _ _ _ Lc LP (cells s 4 boxes) [])
    in R by (unfold cells; now rewrite chunks_length).
  fold kept in R. rewrite length_map in R. exact R.
Qed.
End FilterKept.

Lemma Subseq_filter_imp {A} (p q : A -> bool) (l : list A) :
  (forall x, In x l -> q x = true -> p x = true) ->
  Subseq (filter q l) (filter p l).
Proof.
  induction l as [|x l IH]; intros Hpq; simpl; [constructor|].
  assert (Subseq (filter q l) (filter p l)) as S'
      by (apply IH; intros y I; apply Hpq; now right).
  destruct (q x) eqn:Q.
  - rewrite (Hpq x (or_introl eq_refl) Q). now apply Subseq_take.
  - destruct (p x); [now apply Subseq_skip | exact S'].
Qed.

Lemma kept_cells_monotone {num : Type} `{NumericLaws num}
      (t1 t2 : num) (confidence : list num) (class_probs : list (list num)) :
  leb t1 t2 = true ->
  Subseq (kept_cells t2 confidence class_probs)
         (kept_cells t1 confidence class_probs).
Proof.
  intros L. unfold kept_cells. apply Subseq_filter_imp.
  intros i _. unfold geb. intros G. now apply leb_trans with t2.
Qed.

Section EvalResult.
Context {num : Type} `{Numeric num}.
Variable St : Type.
Variable scale_boxes : tensor num -> list Z -> result (tensor num).

Lemma corners_cells (s : list nat) (box_xy box_wh : tensor num) :
  shape box_xy = s ++ [2] -> shape box_wh = s ++ [2] ->
  wf box_xy -> wf box_wh ->
  let corners :=
    mkTensor (s ++ [4])
             (concat (map2 corners_of (cells s 2 box_xy)
                                      (cells s 2 box_wh))) in
  wf corners /\
  length (cells s 4 corners) = size s /\
  Forall (fun r => length r = 4) (cells s 4 corners).
Proof.
  intros Sxy Swh Wxy Wwh corners.
  set (rows := map2 corners_of (cells s 2 box_xy) (cells s 2 box_wh)).
  assert (length rows = size s) as L
      by (unfold rows, cells; rewrite map2_length, !chunks_length; lia).
  assert (cells s 4 corners = rows) as E
      by (apply cells_concat; [exact L | apply corners_rows]).
  rewrite E. split; [|split; [exact L | apply corners_rows]].
  unfold wf, corners. cbn [shape buf]. rewrite size_snoc, <- L.
  apply concat_rows_length, corners_rows.
Qed.

(** What [yolo_eval] returns on a well-formed grid, stage by stage. *)
Lemma yolo_eval_result (s : list nat) (c : nat)
      (box_xy box_wh box_confidence box_class_probs : tensor num)
      (image_shape : list Z) (max_boxes : Z)
      (score_threshold iou_threshold : num) :
  s <> [] -> c <> 0 ->
  shape box_xy = s ++ [2] -> shape box_wh = s ++ [2] ->
  shape box_confidence = s ++ [1] -> shape box_class_probs = s ++ [c] ->
  wf box_xy -> wf box_wh -> wf box_confidence -> wf box_class_probs ->
  (forall k boxes, shape boxes = [k; 4] -> wf boxes ->
     exists scaled, scale_boxes boxes image_shape = Ok scaled /\
                    shape scaled = [k; 4] /\ wf scaled) ->
  (0 <= max_boxes < 2 ^ 31)%Z ->
  leb zero iou_threshold && leb iou_threshold one = true ->
  let corners :=
    mkTensor (s ++ [4])
             (concat (map2 corners_of (cells s 2 box_xy)
                                      (cells s 2 box_wh))) in
  let class_scores i :=
    cell_scores (nth i (buf box_confidence) zero)
                (nth i (cells s c box_class_probs) []) in
  let kept :=
    kept_cells iou_threshold (buf box_confidence)
               (cells s c box_class_probs) in
  let scores1 :=
    mkTensor [length kept]
             (map (fun i => tf.row_max (class_scores i)) kept) in
  let boxes1 :=
    mkTensor [length kept; 4]
             (concat (map (fun i => nth i (cells s 4 corners) []) kept)) in
  let classes1 :=
    mkTensor [length kept]
             (map (fun i => tf.row_argmax (class_scores i)) kept) in
  exists scaled,
    scale_boxes boxes1 image_shape = Ok scaled /\
    shape scaled = [length kept; 4] /\ wf scaled /\
    let sel := tf.selection (length kept) (buf scaled) (buf scores1)
                            max_boxes iou_threshold in
    returns (yolo_eval (St:=St) scale_boxes
                       [box_xy; box_wh; box_confidence; box_class_probs]
                       image_shape max_boxes score_threshold iou_threshold)
            (gathered scores1 sel, gathered scaled sel,
             gathered classes1 sel) /\
    Forall (fun j => j < length kept) sel.
Proof.
  intros Hs Hc Sxy Swh Sconf Sprobs Wxy Wwh Wconf Wprobs Hscale Hm Hi
         corners class_scores kept scores1 boxes1 classes1.
  pose proof (yolo_boxes_to_corners_result St s box_xy box_wh Sxy Swh Wxy
                Wwh) as R1.
  fold corners in R1.
  destruct (corners_cells s box_xy box_wh Sxy Swh Wxy Wwh)
    as (Wcorners & Lcells & Fcells).
  fold corners in Wcorners, Lcells, Fcells.
  pose proof (yolo_filter_boxes_kept St s c corners box_confidence
                box_class_probs iou_threshold Hs Hc eq_refl Sconf Sprobs
                Wconf Wprobs) as R2.
  cbn zeta in R2. fold class_scores kept scores1 boxes1 classes1 in R2.
  assert (length (cells s c box_class_probs) = size s) as LP
      by (unfold cells; now rewrite chunks_length).
  assert (length (buf box_confidence) = size s) as Lc
      by (unfold wf in Wconf; rewrite Sconf, size_snoc in Wconf; lia).
  assert (wf boxes1) as Wb1.
  { unfold wf, boxes1. cbn [shape buf].
    change (size [length kept; 4]) with (length kept * (4 * 1)).
    rewrite (concat_rows_length 4); [rewrite length_map; lia|].
    rewrite Forall_forall in *. intros r I.
    apply in_map_iff in I. destruct I as (i & <- & I).
    apply (kept_cells_in iou_threshold _ _ _ Lc LP) in I.
    apply Fcells, nth_In. lia. }
  destruct (Hscale (length kept) boxes1 eq_refl Wb1)
    as (scaled & R3 & Ssc & Wsc).
  exists scaled. split; [exact R3|]. split; [exact Ssc|].
  split; [exact Wsc|]. cbn zeta.
  assert (wf scores1) as Ws1
      by (unfold wf, scores1; cbn [shape buf];
          now rewrite size_one, length_map).
  pose proof (yolo_non_max_suppression_ok St (length kept) scores1 scaled
                classes1 max_boxes iou_threshold eq_refl Ssc eq_refl Ws1
                Hm Hi) as R4.
  cbn zeta in R4. split.
  - intros st.
    apply (yolo_eval_ok St scale_boxes box_xy box_wh box_confidence
             box_class_probs image_shape max_boxes score_threshold
             iou_threshold st st st st corners scores1 boxes1 scaled
             classes1);
      [apply R1 | apply R2 | exact R3 | apply R4].
  - apply selection_in_range. unfold scores1. cbn [buf].
    now rewrite length_map.
Qed.
End EvalResult.

(* ================================================================== *)
(** ** Further properties *)

(** X1. Raising the threshold of [yolo_filter_boxes] only drops cells: the
    cells kept at the higher threshold are among the cells kept at the
    lower one, in the same order, and each comes back with the same
    score, box and class. *)
Theorem yolo_filter_boxes_threshold_monotone {num : Type} `{NumericLaws num}
        (St : Type) (s : list nat) (c : nat)
        (boxes box_confidence box_class_probs : tensor num)
        (low high : num) :
  s <> [] -> c <> 0 ->
  shape boxes = s ++ [4] ->
  shape box_confidence = s ++ [1] ->
  shape box_class_probs = s ++ [c] ->
  wf box_confidence -> wf box_class_probs ->
  leb low high = true ->
  let class_scores i :=
    cell_scores (nth i (buf box_confidence) zero)
                (nth i (cells s c box_class_probs) []) in
  let outputs_at kept :=
    (mkTensor [length kept]
              (map (fun i => tf.row_max (class_scores i)) kept),
     mkTensor [length kept; 4]
              (concat (map (fun i => nth i (cells s 4 boxes) []) kept)),
     mkTensor [length kept]
              (map (fun i => tf.row_argmax (class_scores i)) kept)) in
  exists kept_low kept_high,
    returns (yolo_filter_boxes (St:=St) boxes box_confidence box_class_probs
                               low) (outputs_at kept_low) /\
    returns (yolo_filter_boxes (St:=St) boxes box_confidence box_class_probs
                               high) (outputs_at kept_high) /\
    Subseq kept_high kept_low.
Proof.
  intros Hs Hc Sb Sc Sp Wc Wp L class_scores outputs_at.
  exists (kept_cells low (buf box_confidence) (cells s c box_class_probs)),
    (kept_cells high (buf box_confidence) (cells s c box_class_probs)).
  split; [|split].
  - exact (yolo_filter_boxes_kept St s c boxes box_confidence
             box_class_probs low Hs Hc Sb Sc Sp Wc Wp).
  - exact (yolo_filter_boxes_kept St s c boxes box_confidence
             box_class_probs high Hs Hc Sb Sc Sp Wc Wp).
  - now apply kept_cells_monotone.
Qed.

Lemma yolo_filter_boxes_threshold_monotone_witness :
  let class_scores i :=
    cell_scores (nth i (buf ex_confidence) zero)
                (nth i (cells [1; 2; 1] 3 ex_class_probs) []) in
  let outputs_at kept :=
    (mkTensor [length kept]
              (map (fun i => tf.row_max (class_scores i)) kept),
     mkTensor [length kept; 4]
              (concat (map (fun i => nth i (cells [1; 2; 1] 4 ex_boxes) [])
                           kept)),
     mkTensor [length kept]
              (map (fun i => tf.row_argmax (class_scores i)) kept)) in
  exists kept_low kept_high,
    returns (yolo_filter_boxes (St:=unit) ex_boxes ex_confidence
                               ex_class_probs (Fin (5 # 10)))
            (outputs_at kept_low) /\
    returns (yolo_filter_boxes (St:=unit) ex_boxes ex_confidence
                               ex_class_probs (Fin (6 # 10)))
            (outputs_at kept_high) /\
    Subseq kept_high kept_low.
Proof.
  apply (@yolo_filter_boxes_threshold_monotone xrat _ xrat_laws unit
           [1; 2; 1] 3 ex_boxes ex_confidence ex_class_probs
           (Fin (5 # 10)) (Fin (6 # 10)));
    try reflexivity; discriminate.
Defined.



Section EvalDetections.
Context {num : Type} `{Numeric num}.
Variable St : Type.
Variable scale_boxes : tensor num -> list Z -> result (tensor num).

(** The detections of [yolo_eval] on a well-formed grid: where they come
    from, how many they are, and what their scores and classes are. *)
Lemma yolo_eval_detections (s : list nat) (c : nat)
      (box_xy box_wh box_confidence box_class_probs : tensor num)
      (image_shape : list Z) (max_boxes : Z)
      (score_threshold iou_threshold : num) :
  s <> [] -> c <> 0 ->
  shape box_xy = s ++ [2] -> shape box_wh = s ++ [2] ->
  shape box_confidence = s ++ [1] -> shape box_class_probs = s ++ [c] ->
  wf box_xy -> wf box_wh -> wf box_confidence -> wf box_class_probs ->
  (forall k boxes, shape boxes = [k; 4] -> wf boxes ->
     exists scaled, scale_boxes boxes image_shape = Ok scaled /\
                    shape scaled = [k; 4] /\ wf scaled) ->
  (0 <= max_boxes < 2 ^ 31)%Z ->
  leb zero iou_threshold && leb iou_threshold one = true ->
  let class_scores i :=
    cell_scores (nth i (buf box_confidence) zero)
                (nth i (cells s c box_class_probs) []) in
  exists scores boxes classes from_cells,
    returns (yolo_eval (St:=St) scale_boxes
                       [box_xy; box_wh; box_confidence; box_class_probs]
                       image_shape max_boxes score_threshold iou_threshold)
            (scores, boxes, classes) /\
    (shape scores = [length from_cells] /\
     shape boxes = [length from_cells; 4] /\
     shape classes = [length from_cells] /\
     (Z.of_nat (length from_cells) <= max_boxes)%Z) /\
    Forall (fun i => i < size s) from_cells /\
    buf scores = map (fun i => tf.row_max (class_scores i)) from_cells /\
    buf classes = map (fun i => tf.row_argmax (class_scores i)) from_cells /\
    Forall (fun x => geb x iou_threshold = true) (buf scores) /\
    Forall (fun k => k < c) (buf classes).
Proof.
  intros Hs Hc Sxy Swh Sconf Sprobs Wxy Wwh Wconf Wprobs Hscale Hm Hi
         class_scores.
  destruct (yolo_eval_result St scale_boxes s c box_xy box_wh
              box_confidence box_class_probs image_shape max_boxes
              score_threshold iou_threshold Hs Hc Sxy Swh Sconf Sprobs Wxy
              Wwh Wconf Wprobs Hscale Hm Hi)
    as (scaled & _ & Ssc & _ & R & F).
  cbn zeta in R, F. fold class_scores in R, F.
  set (kept := kept_cells iou_threshold (buf box_confidence)
                          (cells s c box_class_probs)) in *.
  set (sel := tf.selection _ _ _ _ _) in *.
  assert (length (cells s c box_class_probs) = size s) as LP
      by (unfold cells; now rewrite chunks_length).
  assert (length (buf box_confidence) = size s) as Lc
      by (unfold wf in Wconf; rewrite Sconf, size_snoc in Wconf; lia).
  assert (length (buf box_class_probs) = size s * c) as Lp
      by (unfold wf in Wprobs; now rewrite Sprobs, size_snoc in Wprobs).
  assert (forall {B} (f : nat -> B) (d : B),
             map (fun j => nth j (map f kept) d) sel =
             map f (map (fun j => nth j kept 0) sel)) as Nth.
  { intros B f d. rewrite map_map. apply map_ext_in. intros j I.
    rewrite Forall_forall in F. specialize (F j I).
    rewrite (nth_indep _ d (f 0)) by (now rewrite length_map).
    apply (map_nth f). }
  pose (scores1 := mkTensor [length kept]
                            (map (fun i => tf.row_max (class_scores i)) kept)).
  pose (classes1 := mkTensor [length kept]
                      (map (fun i => tf.row_argmax (class_scores i)) kept)).
  match type of R with
  | returns ?m _ =>
      change (returns m (gathered scores1 sel, gathered scaled sel,
                         gathered classes1 sel)) in R
  end.
  assert (wf scores1) as Ws1
      by (unfold wf; cbn [scores1 shape buf];
          now rewrite size_one, length_map).
  assert (wf classes1) as Wc1
      by (unfold wf; cbn [classes1 shape buf];
          now rewrite size_one, length_map).
  rewrite (gathered_vector (length kept) scores1 sel zero eq_refl Ws1 F),
          (gathered_vector (length kept) classes1 sel 0 eq_refl Wc1 F),
          (gathered_matrix (length kept) 4 scaled sel Ssc) in R.
  cbn [scores1 classes1 buf] in R. rewrite !Nth in R.
  set (from_cells := map (fun j => nth j kept 0) sel) in *.
  assert (Forall (fun i => In i kept) from_cells) as Fk.
  { rewrite Forall_forall in *. intros i I. apply in_map_iff in I.
    destruct I as (j & <- & I). apply nth_In. auto. }
  do 3 eexists. exists from_cells. split; [exact R|]. cbn [buf shape].
  assert (length from_cells = length sel) as Lf
      by (unfold from_cells; now rewrite length_map).
  split.
  { rewrite Lf. repeat (split; [reflexivity|]).
    exact (selection_bound_small (length kept) (buf scaled) (buf scores1)
             max_boxes iou_threshold Hm). }
  split; [|split; [reflexivity|split; [reflexivity|split]]].
  - rewrite Forall_forall in *. intros i I.
    now apply (kept_cells_in iou_threshold _ _ _ Lc LP), Fk.
  - rewrite Forall_forall in *. intros x I. apply in_map_iff in I.
    destruct I as (i & <- & I).
    now apply (kept_cells_in iou_threshold _ _ _ Lc LP), Fk.
  - rewrite Forall_forall in *. intros k I. apply in_map_iff in I.
    destruct I as (i & <- & I).
    apply Fk, (kept_cells_in iou_threshold _ _ _ Lc LP) in I.
    destruct I as [Lt _].
    assert (length (class_scores i) = c) as Lcs.
    { unfold class_scores, cell_scores. rewrite length_map.
      pose proof (chunks_rows (size s) c (buf box_class_probs) Lp) as Fr.
      rewrite Forall_forall in Fr. apply Fr, nth_In.
      now rewrite chunks_length. }
    rewrite <- Lcs. apply (row_argmax_spec (class_scores i) zero).
    intros E. rewrite E in Lcs. simpl in Lcs. lia.
Qed.
End EvalDetections.



(* ================================================================== *)
(** ** More on the selection loop *)

Section LoopMore.
Context {num : Type} `{Numeric num}.
Variables (rows : list (list num)) (iou_threshold : num).

(** A larger output size only lets the loop go on: what it selects
    within the smaller size is the same. *)
Lemma nms_loop_cap (k k' : nat) (queue : list (nat * num))
      (selected : list nat) :
  k <= k' -> length selected <= k ->
  tf.nms_loop rows iou_threshold k queue selected =
  firstn k (tf.nms_loop rows iou_threshold k' queue selected).
Proof.
  intros Hk. revert selected.
  induction queue as [|[i sc] queue IH]; intros selected Hl.
  - simpl. now rewrite firstn_all2.
  - destruct (Nat.ltb_spec (length selected) k) as [Lt|Ge].
    + cbn [tf.nms_loop].
      destruct (Nat.ltb_spec (length selected) k) as [_|]; [|lia].
      destruct (Nat.ltb_spec (length selected) k') as [_|]; [|lia].
      destruct (existsb _ selected); apply IH; auto.
      rewrite length_app. simpl. lia.
    + destruct (nms_loop_spec rows iou_threshold k' ((i, sc) :: queue)
                  selected) as (picked & -> & _).
      cbn [tf.nms_loop].
      destruct (Nat.ltb_spec (length selected) k) as [|_]; [lia|].
      rewrite firstn_app. replace (k - length selected) with 0 by lia.
      rewrite firstn_all2 by lia. simpl. now rewrite app_nil_r.
Qed.

(** Where no candidate overlaps a box that stands before it, the loop
    takes the candidates in order until the output is full. *)
Lemma nms_loop_apart (k : nat) (queue : list (nat * num))
      (selected : list nat) :
  length selected <= k ->
  (forall q1 x q2, queue = q1 ++ x :: q2 ->
     forall j, In j selected \/ In j (map fst q1) ->
               tf.overlaps rows iou_threshold (fst x) j = false) ->
  tf.nms_loop rows iou_threshold k queue selected =
  firstn k (selected ++ map fst queue).
Proof.
  revert selected; induction queue as [|[i sc] queue IH];
    intros selected Hl Hap.
  - simpl. rewrite app_nil_r. now rewrite firstn_all2.
  - cbn [tf.nms_loop].
    destruct (Nat.ltb_spec (length selected) k) as [Lt|Ge].
    + assert (existsb (tf.overlaps rows iou_threshold i) selected = false)
        as ->.
      { destruct (existsb _ selected) eqn:E; [|reflexivity].
        apply existsb_exists in E. destruct E as (j & I & O).
        pose proof (Hap [] (i, sc) queue eq_refl j (or_introl I)) as Hf.
        simpl in Hf. congruence. }
      rewrite IH.
      * now rewrite <- app_assoc.
      * rewrite length_app. simpl. lia.
      * intros q1 x q2 -> j I.
        apply (Hap ((i, sc) :: q1) x q2 eq_refl). simpl.
        destruct I as [I|I]; auto.
        apply in_app_or in I. destruct I as [I|[<-|[]]]; auto.
    + rewrite firstn_app. replace (k - length selected) with 0 by lia.
      rewrite firstn_all2 by lia. simpl. now rewrite app_nil_r.
Qed.

End LoopMore.


Section NmsOutputs.
Context {num : Type} `{Numeric num}.
Variable St : Type.

(** The three outputs, by the indices selected. *)
Lemma yolo_non_max_suppression_outputs (n : nat) (scores boxes : tensor num)
      (classes : tensor nat) (max_boxes : Z) (iou_threshold : num) :
  shape scores = [n] -> shape boxes = [n; 4] -> shape classes = [n] ->
  wf scores -> wf classes ->
  (0 <= max_boxes < 2 ^ 31)%Z ->
  leb zero iou_threshold && leb iou_threshold one = true ->
  let sel := tf.selection n (buf boxes) (buf scores) max_boxes
                          iou_threshold in
  returns (yolo_non_max_suppression (St:=St) scores boxes classes
                                    max_boxes iou_threshold)
          (mkTensor [length sel]
                    (map (fun i => nth i (buf scores) zero) sel),
           mkTensor [length sel; 4]
                    (concat (map (fun i => nth i (cells [n] 4 boxes) [])
                                 sel)),
           mkTensor [length sel]
                    (map (fun i => nth i (buf classes) 0) sel)).
Proof.
  intros Ss Sb Sc Ws Wc Hm Hi sel.
  pose proof (yolo_non_max_suppression_ok St n scores boxes classes
                max_boxes iou_threshold Ss Sb Sc Ws Hm Hi) as R.
  cbn zeta in R. fold sel in R.
  assert (length (buf scores) = n) as Ls
      by (unfold wf in Ws; rewrite Ss, size_one in Ws; exact Ws).
  pose proof (selection_in_range n (buf boxes) (buf scores) max_boxes
                iou_threshold Ls) as F.
  fold sel in F.
  rewrite (gathered_vector n scores sel zero Ss Ws F) in R.
  rewrite (gathered_vector n classes sel 0 Sc Wc F) in R.
  rewrite (gathered_matrix n 4 boxes sel Sb) in R. exact R.
Qed.
End NmsOutputs.



(** X5. Within the non-negative [int32] range, raising [max_boxes] only
    appends detections: what [yolo_non_max_suppression] returns for a
    smaller [max_boxes] are the first rows of what it returns for a
    larger one. *)
Theorem yolo_non_max_suppression_max_boxes_prefix {num : Type}
        `{Numeric num} (St : Type) (n : nat) (scores boxes : tensor num)
        (classes : tensor nat) (fewer more : Z) (iou_threshold : num) :
  shape scores = [n] -> shape boxes = [n; 4] -> shape classes = [n] ->
  wf scores -> wf classes ->
  (0 <= fewer <= more)%Z -> (more < 2 ^ 31)%Z ->
  leb zero iou_threshold && leb iou_threshold one = true ->
  let outputs_at sel :=
    (mkTensor [length sel] (map (fun i => nth i (buf scores) zero) sel),
     mkTensor [length sel; 4]
              (concat (map (fun i => nth i (cells [n] 4 boxes) []) sel)),
     mkTensor [length sel] (map (fun i => nth i (buf classes) 0) sel)) in
  exists sel,
    returns (yolo_non_max_suppression (St:=St) scores boxes classes more
                                      iou_threshold) (outputs_at sel) /\
    returns (yolo_non_max_suppression (St:=St) scores boxes classes fewer
                                      iou_threshold)
            (outputs_at (firstn (Z.to_nat fewer) sel)).
Proof.
  intros Ss Sb Sc Ws Wc Hm Hmore Hi outputs_at.
  exists (tf.selection n (buf boxes) (buf scores) more iou_threshold).
  split.
  - apply (yolo_non_max_suppression_outputs St n scores boxes classes more
             iou_threshold Ss Sb Sc Ws Wc); [lia | exact Hi].
  - replace (firstn (Z.to_nat fewer)
                    (tf.selection n (buf boxes) (buf scores) more
                                  iou_threshold))
      with (tf.selection n (buf boxes) (buf scores) fewer iou_threshold).
    + apply (yolo_non_max_suppression_outputs St n scores boxes classes
               fewer iou_threshold Ss Sb Sc Ws Wc); [lia | exact Hi].
    + pose proof (selection_length n (buf boxes) (buf scores) more
                    iou_threshold) as L.
      rewrite (output_size_small more n) in L by lia.
      rewrite !selection_small in * by lia.
      rewrite (nms_loop_cap _ _ (Nat.min (Z.to_nat fewer) n)
                 (Nat.min (Z.to_nat more) n)) by (simpl; lia).
      destruct (Nat.le_ge_cases (Z.to_nat fewer) n) as [Le|Ge].
      * now rewrite Nat.min_l by exact Le.
      * rewrite Nat.min_r by exact Ge.
        rewrite !firstn_all2; auto; lia.
Qed.

Lemma yolo_non_max_suppression_max_boxes_prefix_witness :
  let outputs_at sel :=
    (mkTensor [length sel]
              (map (fun i => nth i (buf ex_nms_scores) zero) sel),
     mkTensor [length sel; 4]
              (concat (map (fun i => nth i (cells [3] 4 ex_nms_boxes) [])
                           sel)),
     mkTensor [length sel]
              (map (fun i => nth i (buf ex_nms_classes) 0) sel)) in
  exists sel,
    returns (yolo_non_max_suppression (St:=unit) ex_nms_scores ex_nms_boxes
                                      ex_nms_classes 10 (Fin (1 # 2)))
            (outputs_at sel) /\
    returns (yolo_non_max_suppression (St:=unit) ex_nms_scores ex_nms_boxes
                                      ex_nms_classes 1 (Fin (1 # 2)))
            (outputs_at (firstn (Z.to_nat 1) sel)).
Proof.
  apply (yolo_non_max_suppression_max_boxes_prefix unit 3 ex_nms_scores
           ex_nms_boxes ex_nms_classes 1 10 (Fin (1 # 2)));
    try reflexivity; lia.
Defined.

(* ================================================================== *)
(** ** Queues of scores already in order *)

Lemma filter_all {A} (p : A -> bool) (l : list A) :
  (forall x, In x l -> p x = true) -> filter p l = l.
Proof.
  induction l as [|x l IH]; intros Hp; simpl; [reflexivity|].
  rewrite (Hp x (or_introl eq_refl)). f_equal.
  apply IH. intros y I. apply Hp. now right.
Qed.

Lemma map_nth_seq {A} (l : list A) (d : A) :
  map (fun i => nth i l d) (seq 0 (length l)) = l.
Proof.
  induction l as [|x l IH]; [reflexivity|].
  simpl. f_equal. rewrite <- seq_shift, map_map. exact IH.
Qed.

Lemma seq_split_lt (a k : nat) (l1 l2 : list nat) (p : nat) :
  seq a k = l1 ++ p :: l2 -> forall j, In j l1 -> j < p.
Proof.
  revert a k; induction l1 as [|y l1 IH]; intros a k E j I; [destruct I|].
  destruct k as [|k]; [discriminate|]. simpl in E.
  injection E as <- E. destruct I as [<-|I].
  - assert (In p (seq (S a) k)) as Ip
        by (rewrite E; apply in_or_app; right; now left).
    apply in_seq in Ip. lia.
  - exact (IH (S a) k E j I).
Qed.

Lemma earlier_nth (sel : list nat) (j p : nat) :
  j < p -> p < length sel -> earlier sel (nth j sel 0) (nth p sel 0).
Proof.
  intros Hj Hp.
  destruct (nth_split sel 0 Hp) as (l1 & l2 & E & L1).
  assert (nth j sel 0 = nth j l1 0) as ->
      by (rewrite E at 1; apply app_nth1; lia).
  assert (j < length l1) as Hj1 by lia.
  destruct (nth_split l1 0 Hj1) as (a & b & E1 & _).
  exists a, b, l2. rewrite E at 1. rewrite E1 at 1.
  rewrite <- app_assoc. reflexivity.
Qed.

Section SortedQueue.
Context {num : Type} `{NumericLaws num}.

Lemma fold_enqueue_sorted (l : list (nat * num)) :
  StronglySorted not_lower l -> fold_right tf.enqueue [] l = l.
Proof.
  induction 1 as [|x l Sd IH Fa]; [reflexivity|].
  simpl. rewrite IH. destruct l as [|y l]; [reflexivity|].
  simpl. apply Forall_inv in Fa. unfold not_lower in Fa.
  rewrite ltb_leb, Fa. reflexivity.
Qed.

Lemma combine_sorted (idx : list nat) (xs : list num) :
  StronglySorted (fun a b => leb b a = true) xs ->
  StronglySorted not_lower (combine idx xs).
Proof.
  intros Sd; revert idx; induction Sd as [|x xs Sd IH Fa]; intros [|i idx];
    simpl; try constructor; auto.
  rewrite Forall_forall in *. intros [j y] I.
  apply in_combine_r in I. unfold not_lower. simpl. auto.
Qed.

Lemma sorted_map_snd (l : list (nat * num)) :
  StronglySorted not_lower l ->
  StronglySorted (fun a b => leb b a = true) (map snd l).
Proof.
  induction 1 as [|x l Sd IH Fa]; simpl; constructor; auto.
  rewrite Forall_forall in *. intros y I. apply in_map_iff in I.
  destruct I as (z & <- & I). now apply Fa.
Qed.

(** Scores that come in descending order, none of them [-inf], queue up
    in the order they come. *)
Lemma queue_of_sorted_scores (xs : list num) :
  StronglySorted (fun a b => leb b a = true) xs ->
  (forall x, In x xs -> ltb neg_inf x = true) ->
  tf.queue_of xs = combine (seq 0 (length xs)) xs.
Proof.
  intros Sd Fin. unfold tf.queue_of, tf.candidates.
  rewrite filter_all.
  - now apply fold_enqueue_sorted, combine_sorted.
  - intros [i x] I. apply in_combine_r in I. simpl. auto.
Qed.
End SortedQueue.


(** X7. With [max_boxes] a non-negative [int32],
    [yolo_non_max_suppression] is idempotent: given back the scores,
    boxes and classes it returned, with the same [max_boxes] and
    [iou_threshold], it returns them unchanged. *)
Theorem yolo_non_max_suppression_idempotent {num : Type} `{NumericLaws num}
        (St : Type) (n : nat) (scores boxes : tensor num)
        (classes : tensor nat) (max_boxes : Z) (iou_threshold : num) :
  shape scores = [n] -> shape boxes = [n; 4] -> shape classes = [n] ->
  wf scores -> wf boxes -> wf classes ->
  (0 <= max_boxes < 2 ^ 31)%Z ->
  leb zero iou_threshold && leb iou_threshold one = true ->
  exists scores' boxes' classes',
    returns (yolo_non_max_suppression (St:=St) scores boxes classes
                                      max_boxes iou_threshold)
            (scores', boxes', classes') /\
    returns (yolo_non_max_suppression (St:=St) scores' boxes' classes'
                                      max_boxes iou_threshold)
            (scores', boxes', classes').
Proof.
  intros Ss Sb Sc Ws Wb Wc Hm Hi.
  pose proof (yolo_non_max_suppression_outputs St n scores boxes classes
                max_boxes iou_threshold Ss Sb Sc Ws Wc Hm Hi) as R.
  cbn zeta in R.
  set (sel := tf.selection n (buf boxes) (buf scores) max_boxes
                           iou_threshold) in *.
  set (score := fun i => nth i (buf scores) zero) in *.
  set (box := fun i => nth i (cells [n] 4 boxes) []) in *.
  set (class := fun i => nth i (buf classes) 0) in *.
  set (scores' := mkTensor [length sel] (map score sel)) in *.
  set (boxes' := mkTensor [length sel; 4] (concat (map box sel))) in *.
  set (classes' := mkTensor [length sel] (map class sel)) in *.
  exists scores', boxes', classes'. split; [exact R|].
  assert (length (buf scores) = n) as Ls
      by (unfold wf in Ws; rewrite Ss, size_one in Ws; exact Ws).
  pose proof (selection_in_range n (buf boxes) (buf scores) max_boxes
                iou_threshold Ls) as F.
  fold sel in F.
  destruct (selection_picked n (buf boxes) (buf scores) max_boxes
              iou_threshold) as (picked & E & Sq & Lsel & _).
  fold sel in E, Lsel.
  (* the scores returned are in descending order, none of them -inf *)
  assert (map score sel = map snd picked) as Esc.
  { rewrite E, map_map. apply map_ext_in. intros x I.
    symmetry. apply (queue_entry (buf scores) x).
    exact (Subseq_in _ _ _ Sq I). }
  assert (tf.queue_of (buf scores') =
          combine (seq 0 (length sel)) (buf scores')) as Eq.
  { unfold scores'. cbn [buf].
    rewrite <- (length_map score sel) at 1.
    apply queue_of_sorted_scores.
    - rewrite Esc. apply sorted_map_snd.
      exact (Subseq_sorted _ _ _ Sq (queue_of_sorted (buf scores))).
    - rewrite Esc. intros x I. apply in_map_iff in I.
      destruct I as ([i y] & <- & I). apply (Subseq_in _ _ _ Sq) in I.
      now apply (queue_of_in (buf scores) i y zero) in I. }
  (* the boxes returned are the selected rows *)
  assert (Forall (fun r => length r = 4) (map box sel)) as Frows.
  { unfold wf in Wb. rewrite Sb in Wb.
    assert (length (buf boxes) = n * 4) as L by (simpl in Wb; lia).
    pose proof (chunks_rows n 4 (buf boxes) L) as Rw.
    rewrite Forall_forall in *. intros r I.
    apply in_map_iff in I. destruct I as (i & <- & I).
    apply Rw. unfold box, cells. rewrite size_one. apply nth_In.
    rewrite chunks_length. auto. }
  assert (chunks (length sel) 4 (buf boxes') = map box sel) as Erows.
  { unfold boxes'. cbn [buf]. rewrite <- (length_map box sel) at 1.
    now apply chunks_concat. }
  (* no box returned overlaps one returned before it *)
  assert (tf.selection (length sel) (buf boxes') (buf scores') max_boxes
                       iou_threshold = seq 0 (length sel)) as Esel.
  { unfold tf.selection. rewrite Eq, Erows.
    rewrite nms_loop_apart; [|simpl; lia|].
    - cbn [app]. unfold scores'. cbn [buf].
      rewrite <- (length_map score sel) at 2.
      rewrite map_fst_combine_seq, length_map.
      apply firstn_all2. rewrite length_seq. lia.
    - intros q1 x q2 Eq' j [[]|I].
      assert (seq 0 (length sel) = map fst q1 ++ fst x :: map fst q2) as Es.
      { rewrite <- (length_map score sel) at 1.
        rewrite <- map_fst_combine_seq. unfold scores' in Eq'.
        cbn [buf] in Eq'. rewrite length_map, Eq', map_app. reflexivity. }
      pose proof (seq_split_lt _ _ _ _ _ Es j I) as Lt.
      assert (In (fst x) (seq 0 (length sel))) as Ix
          by (rewrite Es; apply in_or_app; right; now left).
      apply in_seq in Ix.
      unfold tf.overlaps.
      rewrite !(nth_indep (map box sel) [] (box 0))
        by (rewrite length_map; lia).
      rewrite !(map_nth box). unfold box, cells. rewrite size_one.
      apply (selection_apart n (buf boxes) (buf scores) max_boxes
               iou_threshold).
      fold sel. apply earlier_nth; lia. }
  assert (wf scores') as Ws'
      by (unfold wf; cbn [scores' shape buf];
          now rewrite size_one, length_map).
  assert (wf classes') as Wc'
      by (unfold wf; cbn [classes' shape buf];
          now rewrite size_one, length_map).
  pose proof (yolo_non_max_suppression_outputs St (length sel) scores'
                boxes' classes' max_boxes iou_threshold eq_refl eq_refl
                eq_refl Ws' Wc' Hm Hi) as R'.
  cbn zeta in R'. rewrite Esel, length_seq in R'.
  pose proof (map_nth_seq (map score sel) zero) as Ms.
  pose proof (map_nth_seq (map class sel) 0) as Mc.
  pose proof (map_nth_seq (map box sel) []) as Mb.
  rewrite length_map in Ms, Mc, Mb.
  assert (cells [length sel] 4 boxes' = map box sel) as Ecells
      by (unfold cells; rewrite size_one; exact Erows).
  rewrite Ecells, Mb in R'.
  change (buf scores') with (map score sel) in R'.
  change (buf classes') with (map class sel) in R'.
  rewrite Ms, Mc in R'. exact R'.
Qed.


Lemma yolo_non_max_suppression_idempotent_witness :
  exists scores' boxes' classes',
    returns (yolo_non_max_suppression (St:=unit) ex_nms_scores ex_nms_boxes
                                      ex_nms_classes 10 (Fin (1 # 2)))
            (scores', boxes', classes') /\
    returns (yolo_non_max_suppression (St:=unit) scores' boxes' classes'
                                      10 (Fin (1 # 2)))
            (scores', boxes', classes').
Proof.
  apply (@yolo_non_max_suppression_idempotent xrat _ xrat_laws unit 3
           ex_nms_scores ex_nms_boxes ex_nms_classes 10 (Fin (1 # 2)));
    try reflexivity.
  lia.
Defined.

(** X8. With [max_boxes] a non-negative [int32],
    [yolo_non_max_suppression] suppresses across classes: which boxes
    it returns, and with which scores, does not depend on [classes]; two
    calls that differ only in [classes] return the same scores and
    boxes. *)
Theorem yolo_non_max_suppression_class_agnostic {num : Type} `{Numeric num}
        (St : Type) (n : nat) (scores boxes : tensor num)
        (classes classes_alt : tensor nat) (max_boxes : Z)
        (iou_threshold : num) :
  shape scores = [n] -> shape boxes = [n; 4] ->
  shape classes = [n] -> shape classes_alt = [n] ->
  wf scores -> wf classes -> wf classes_alt ->
  (0 <= max_boxes < 2 ^ 31)%Z ->
  leb zero iou_threshold && leb iou_threshold one = true ->
  exists sel scores' boxes',
    returns (yolo_non_max_suppression (St:=St) scores boxes classes
                                      max_boxes iou_threshold)
            (scores', boxes',
             mkTensor [length sel]
                      (map (fun i => nth i (buf classes) 0) sel)) /\
    returns (yolo_non_max_suppression (St:=St) scores boxes classes_alt
                                      max_boxes iou_threshold)
            (scores', boxes',
             mkTensor [length sel]
                      (map (fun i => nth i (buf classes_alt) 0) sel)).
Proof.
  intros Ss Sb Sc Sc' Ws Wc Wc' Hm Hi.
  do 3 eexists. split.
  - exact (yolo_non_max_suppression_outputs St n scores boxes classes
             max_boxes iou_threshold Ss Sb Sc Ws Wc Hm Hi).
  - exact (yolo_non_max_suppression_outputs St n scores boxes classes_alt
             max_boxes iou_threshold Ss Sb Sc' Ws Wc' Hm Hi).
Qed.

Lemma yolo_non_max_suppression_class_agnostic_witness :
  exists sel scores' boxes',
    returns (yolo_non_max_suppression (St:=unit) ex_nms_scores ex_nms_boxes
                                      ex_nms_classes 10 (Fin (1 # 2)))
            (scores', boxes',
             mkTensor [length sel]
                      (map (fun i => nth i (buf ex_nms_classes) 0) sel)) /\
    returns (yolo_non_max_suppression (St:=unit) ex_nms_scores ex_nms_boxes
                                      ex_nms_other_classes 10 (Fin (1 # 2)))
            (scores', boxes',
             mkTensor [length sel]
                      (map (fun i => nth i (buf ex_nms_other_classes) 0)
                           sel)).
Proof.
  apply (yolo_non_max_suppression_class_agnostic unit 3 ex_nms_scores
           ex_nms_boxes ex_nms_classes ex_nms_other_classes 10
           (Fin (1 # 2)));
    try reflexivity.
  lia.
Defined.

(* ================================================================== *)
(** ** Shapes that do not fit *)

Lemma broadcast_shape_mismatch (s1 s2 : list nat) (axis : nat) :
  length s1 = length s2 -> axis < length s1 ->
  nth axis s1 0 <> nth axis s2 0 ->
  nth axis s1 0 <> 1 -> nth axis s2 0 <> 1 ->
  tf.broadcast_shape s1 s2 = None.
Proof.
  revert s2 axis; induction s1 as [|d1 r1 IH]; intros [|d2 r2] axis L Ha;
    simpl in *; try lia.
  destruct axis as [|axis]; intros N N1 N2.
  - destruct (tf.broadcast_shape r1 r2); [|reflexivity].
    destruct (Nat.eqb_spec d1 d2); [contradiction|].
    destruct (Nat.eqb_spec d1 1); [contradiction|].
    now destruct (Nat.eqb_spec d2 1).
  - rewrite (IH r2 axis); auto; lia.
Qed.

Lemma binary_mismatch {A B C} (f : A -> B -> C) (a : tensor A) (b : tensor B)
      (axis : nat) :
  length (shape a) = length (shape b) -> axis < length (shape a) ->
  nth axis (shape a) 0 <> nth axis (shape b) 0 ->
  nth axis (shape a) 0 <> 1 -> nth axis (shape b) 0 <> 1 ->
  tf.binary f a b = Err (InvalidArgumentError "Incompatible shapes").
Proof.
  intros L Ha N N1 N2. unfold tf.binary.
  rewrite <- L, Nat.max_id, !pad_full by lia.
  now rewrite (broadcast_shape_mismatch _ _ axis).
Qed.

(** X9. When the confidences and the class probabilities have the same
    rank but differ along some axis where neither has extent 1 (two grids
    of different size), [yolo_filter_boxes] raises the library's
    invalid-argument error and returns nothing. *)
Theorem yolo_filter_boxes_incompatible {num : Type} `{Numeric num}
        (St : Type) (boxes box_confidence box_class_probs : tensor num)
        (threshold : num) (axis : nat) :
  length (shape box_confidence) = length (shape box_class_probs) ->
  axis < length (shape box_confidence) ->
  nth axis (shape box_confidence) 0 <> nth axis (shape box_class_probs) 0 ->
  nth axis (shape box_confidence) 0 <> 1 ->
  nth axis (shape box_class_probs) 0 <> 1 ->
  exists msg,
    forall st : St,
      yolo_filter_boxes boxes box_confidence box_class_probs threshold st
        = (Err (InvalidArgumentError msg), st).
Proof.
  intros L Ha N N1 N2. eexists. intros st.
  unfold yolo_filter_boxes, bind, call, tf.multiply.
  now rewrite (binary_mismatch nmul _ _ axis).
Qed.

Lemma yolo_filter_boxes_incompatible_witness :
  exists msg,
    forall st : unit,
      yolo_filter_boxes ex_boxes ex_confidence ex_bad_class_probs
                        (Fin (5 # 10)) st
        = (Err (InvalidArgumentError msg), st).
Proof.
  apply (yolo_filter_boxes_incompatible unit ex_boxes ex_confidence
           ex_bad_class_probs (Fin (5 # 10)) 1);
    simpl; try reflexivity; lia.
Defined.

(** X10. When the centres and the sizes have the same rank but differ
    along some axis where neither has extent 1, [yolo_boxes_to_corners]
    raises the library's invalid-argument error and returns nothing. *)
Theorem yolo_boxes_to_corners_incompatible {num : Type} `{Numeric num}
        (St : Type) (box_xy box_wh : tensor num) (axis : nat) :
  length (shape box_xy) = length (shape box_wh) ->
  axis < length (shape box_xy) ->
  nth axis (shape box_xy) 0 <> nth axis (shape box_wh) 0 ->
  nth axis (shape box_xy) 0 <> 1 ->
  nth axis (shape box_wh) 0 <> 1 ->
  exists msg,
    forall st : St,
      yolo_boxes_to_corners box_xy box_wh st
        = (Err (InvalidArgumentError msg), st).
Proof.
  intros L Ha N N1 N2. eexists. intros st.
  unfold yolo_boxes_to_corners, bind, call, tf.divide_scalar, tf.subtract.
  now rewrite (binary_mismatch nsub _ _ axis).
Qed.

Lemma yolo_boxes_to_corners_incompatible_witness :
  exists msg,
    forall st : unit,
      yolo_boxes_to_corners ex_xy ex_bad_wh st
        = (Err (InvalidArgumentError msg), st).
Proof.
  apply (yolo_boxes_to_corners_incompatible unit ex_xy ex_bad_wh 1);
    simpl; try reflexivity; lia.
Defined.

(** X11. With no class at all (class probabilities whose last axis has
    extent 0), [yolo_filter_boxes] raises: the argmax over an empty axis
    is an error of the library, and no empty or [-inf] score comes
    back. *)
Theorem yolo_filter_boxes_no_class {num : Type} `{Numeric num} (St : Type)
        (s : list nat)
        (boxes box_confidence box_class_probs : tensor num)
        (threshold : num) :
  shape box_confidence = s ++ [1] ->
  shape box_class_probs = s ++ [0] ->
  wf box_confidence -> wf box_class_probs ->
  exists msg,
    forall st : St,
      yolo_filter_boxes boxes box_confidence box_class_probs threshold st
        = (Err (InvalidArgumentError msg), st).
Proof.
  intros Sc Sp Wc Wp. eexists. intros st.
  unfold yolo_filter_boxes, bind, call, tf.multiply.
  rewrite (binary_last nmul s 0 _ _ Sc Sp Wc Wp).
  unfold tf.math_argmax. cbn [shape]. rewrite unsnoc_snoc.
  reflexivity.
Qed.

Lemma yolo_filter_boxes_no_class_witness :
  exists msg,
    forall st : unit,
      yolo_filter_boxes ex_boxes ex_confidence ex_no_class_probs
                        (Fin (5 # 10)) st
        = (Err (InvalidArgumentError msg), st).
Proof.
  apply (yolo_filter_boxes_no_class unit [1; 2; 1] ex_boxes ex_confidence
           ex_no_class_probs (Fin (5 # 10)));
    reflexivity.
Defined.

(** X12. [yolo_eval] unpacks exactly four tensors: given any other number
    it raises [ValueError] at once, before any stage runs. *)
Theorem yolo_eval_arity {num : Type} `{Numeric num} (St : Type)
        (scale_boxes : tensor num -> list Z -> result (tensor num))
        (yolo_outputs : list (tensor num)) (image_shape : list Z)
        (max_boxes : Z) (score_threshold iou_threshold : num) :
  length yolo_outputs <> 4 ->
  exists msg,
    forall st : St,
      yolo_eval scale_boxes yolo_outputs image_shape max_boxes
                score_threshold iou_threshold st
        = (Err (ValueError msg), st).
Proof.
  intros L.
  destruct yolo_outputs as [|a [|b [|c [|d [|e r]]]]]; simpl in L;
    try lia; eexists; intros st; reflexivity.
Qed.

Lemma yolo_eval_arity_witness :
  exists msg,
    forall st : unit,
      yolo_eval scale_by_image_dims [ex_xy; ex_wh; ex_confidence]
                [720; 1280]%Z 10%Z (Fin (3 # 10)) (Fin (5 # 10)) st
        = (Err (ValueError msg), st).
Proof.
  apply (yolo_eval_arity unit scale_by_image_dims
           [ex_xy; ex_wh; ex_confidence]).
  simpl. lia.
Defined.

(* ================================================================== *)
(** ** Corners of wider boxes *)

Lemma firstn_map2 {A B C} (f : A -> B -> C) (n : nat)
      (l1 : list A) (l2 : list B) :
  firstn n (map2 f l1 l2) = map2 f (firstn n l1) (firstn n l2).
Proof.
  revert l1 l2; induction n as [|n IH]; intros [|a l1] [|b l2];
    simpl; auto.
  now rewrite IH.
Qed.

Lemma skipn_map2 {A B C} (f : A -> B -> C) (n : nat)
      (l1 : list A) (l2 : list B) :
  skipn n (map2 f l1 l2) = map2 f (skipn n l1) (skipn n l2).
Proof.
  revert l1 l2; induction n as [|n IH]; intros [|a l1] [|b l2];
    simpl; auto.
  now destruct (skipn n l1).
Qed.

Section CornersWide.
Context {num : Type} `{Numeric num}.
Variable St : Type.

(** The buffer [yolo_boxes_to_corners] builds when the last axis has two
    entries or more. *)
Lemma corners_buffer_wide (n c : nat) (xy wh : list num) :
  2 <= c -> length xy = n * c -> length wh = n * c ->
  let half := map (fun x => ndiv x (of_Q 2)) wh in
  let mins := chunks n c (map2 nsub xy half) in
  let maxes := chunks n c (map2 nadd xy half) in
  let sl12 := flat_map (fun row : list num => firstn 1 (skipn 1 row)) in
  let sl01 := flat_map (fun row : list num => firstn 1 (skipn 0 row)) in
  concat
    (map2 (@app num)
       (chunks n 3
          (concat
             (map2 (@app num)
                (chunks n 2
                   (concat (map2 (@app num) (chunks n 1 (sl12 mins))
                                            (chunks n 1 (sl01 mins)))))
                (chunks n 1 (sl12 maxes)))))
       (chunks n 1 (sl01 maxes))) =
  concat (map2 corners_of (chunks n c xy) (chunks n c wh)).
Proof.
  intros Hc. revert xy wh; induction n as [|n IH]; intros xy wh Hx Hw;
    [reflexivity|].
  simpl in Hx, Hw.
  assert (length (skipn c xy) = n * c) as Hx'
      by (rewrite length_skipn; lia).
  assert (length (skipn c wh) = n * c) as Hw'
      by (rewrite length_skipn; lia).
  specialize (IH (skipn c xy) (skipn c wh) Hx' Hw').
  cbn zeta in IH |- *.
  cbn [chunks].
  rewrite !firstn_map2, !skipn_map2, !firstn_map, !skipn_map.
  assert (length (firstn c xy) = c) as Lx
      by (rewrite length_firstn; lia).
  assert (length (firstn c wh) = c) as Lw
      by (rewrite length_firstn; lia).
  destruct (firstn c xy) as [|x [|y tx]]; simpl in Lx; try lia.
  destruct (firstn c wh) as [|w [|h tw]]; simpl in Lw; try lia.
  simpl. rewrite <- IH. reflexivity.
Qed.

Lemma yolo_boxes_to_corners_wide (s : list nat) (c : nat)
      (box_xy box_wh : tensor num) :
  2 <= c ->
  shape box_xy = s ++ [c] -> shape box_wh = s ++ [c] ->
  wf box_xy -> wf box_wh ->
  returns (yolo_boxes_to_corners (St:=St) box_xy box_wh)
          (mkTensor (s ++ [4])
                    (concat (map2 corners_of (cells s c box_xy)
                                             (cells s c box_wh)))).
Proof.
  intros Hc Sxy Swh Wxy Wwh st.
  assert (length (buf box_xy) = size s * c) as Lxy
      by (unfold wf in Wxy; now rewrite Sxy, size_snoc in Wxy).
  assert (length (buf box_wh) = size s * c) as Lwh
      by (unfold wf in Wwh; now rewrite Swh, size_snoc in Wwh).
  unfold yolo_boxes_to_corners, bind, call, tf.divide_scalar,
    tf.subtract, tf.add.
  rewrite !binary_same with (s := s ++ [c])
    by (auto; unfold wf in *; cbn [tf.scalar shape buf];
        now rewrite length_map).
  rewrite !slice_last_snoc with (s := s) (c := c) by reflexivity.
  replace (Nat.min 2 c) with 2 by lia.
  replace (Nat.min 1 c) with 1 by lia.
  replace (Nat.min 0 c) with 0 by lia.
  unfold tf.keras_backend_concatenate, tf.concat_onto.
  rewrite concat2_snoc with (s := s) (ca := 1) (cb := 1) by reflexivity.
  rewrite concat2_snoc with (s := s) (ca := 2) (cb := 1) by reflexivity.
  rewrite concat2_snoc with (s := s) (ca := 3) (cb := 1) by reflexivity.
  unfold cells, tf.scalar. cbn [shape buf Nat.sub Nat.add].
  now rewrite (corners_buffer_wide (size s) c).
Qed.
End CornersWide.

(** X13. When centres and sizes carry [c >= 2] entries per cell,
    [yolo_boxes_to_corners] still returns four corner coordinates per
    cell, computed from the first two entries of the cell alone: what
    stands after them is ignored, without an error. *)
Theorem yolo_boxes_to_corners_first_two {num : Type} `{Numeric num}
        (St : Type) (s : list nat) (c : nat) (box_xy box_wh : tensor num) :
  2 <= c ->
  shape box_xy = s ++ [c] -> shape box_wh = s ++ [c] ->
  wf box_xy -> wf box_wh ->
  exists corners,
    returns (yolo_boxes_to_corners (St:=St) box_xy box_wh) corners /\
    shape corners = s ++ [4] /\ wf corners /\
    forall i, i < size s ->
      nth i (cells s 4 corners) [] =
      corners_of (firstn 2 (nth i (cells s c box_xy) []))
                 (firstn 2 (nth i (cells s c box_wh) [])).
Proof.
  intros Hc Sxy Swh Wxy Wwh.
  pose proof (yolo_boxes_to_corners_wide St s c box_xy box_wh Hc Sxy Swh
                Wxy Wwh) as R.
  eexists. split; [exact R|].
  set (rows := map2 corners_of (cells s c box_xy) (cells s c box_wh)).
  assert (length rows = size s) as L
      by (unfold rows, cells; rewrite map2_length, !chunks_length; lia).
  split; [reflexivity|]. split.
  - unfold wf. cbn [shape buf]. rewrite size_snoc, <- L.
    apply concat_rows_length, corners_rows.
  - intros i Hi. rewrite cells_concat; [|exact L|apply corners_rows].
    unfold rows.
    rewrite (map2_nth corners_of _ _ i [] [] [])
      by (unfold cells; rewrite chunks_length; lia).
    unfold corners_of.
    now destruct (nth i (cells s c box_xy) []) as [|x [|y tx]],
                 (nth i (cells s c box_wh) []) as [|w [|h tw]].
Qed.

Lemma yolo_boxes_to_corners_first_two_witness :
  exists corners,
    returns (yolo_boxes_to_corners (St:=unit) ex_wide_xy ex_wide_wh)
            corners /\
    shape corners = [1; 2; 1] ++ [4] /\ wf corners /\
    forall i, i < size [1; 2; 1] ->
      nth i (cells [1; 2; 1] 4 corners) [] =
      corners_of (firstn 2 (nth i (cells [1; 2; 1] 3 ex_wide_xy) []))
                 (firstn 2 (nth i (cells [1; 2; 1] 3 ex_wide_wh) [])).
Proof.
  apply (yolo_boxes_to_corners_first_two unit [1; 2; 1] 3 ex_wide_xy
           ex_wide_wh);
    try reflexivity.
  lia.
Defined.

Section CornersNarrow.
Context {num : Type} `{Numeric num}.
Variable St : Type.

(** The buffer [yolo_boxes_to_corners] builds when the last axis has one
    entry: the two slices [1:2] are empty. *)
Lemma corners_buffer_narrow (n : nat) (xy wh : list num) :
  length xy = n -> length wh = n ->
  let half := map (fun x => ndiv x (of_Q 2)) wh in
  let mins := chunks n 1 (map2 nsub xy half) in
  let maxes := chunks n 1 (map2 nadd xy half) in
  let sl12 := flat_map (fun row : list num => firstn 0 (skipn 1 row)) in
  let sl01 := flat_map (fun row : list num => firstn 1 (skipn 0 row)) in
  concat
    (map2 (@app num)
       (chunks n 1
          (concat
             (map2 (@app num)
                (chunks n 1
                   (concat (map2 (@app num) (chunks n 0 (sl12 mins))
                                            (chunks n 1 (sl01 mins)))))
                (chunks n 0 (sl12 maxes)))))
       (chunks n 1 (sl01 maxes))) =
  concat (map2 (fun x w => [nsub x (ndiv w (of_Q 2));
                            nadd x (ndiv w (of_Q 2))]) xy wh).
Proof.
  revert xy wh; induction n as [|n IH]; intros [|x xy] [|w wh] Hx Hw;
    try discriminate; [reflexivity|].
  simpl in Hx, Hw.
  specialize (IH xy wh ltac:(lia) ltac:(lia)).
  cbn zeta in IH |- *. simpl. rewrite <- IH. reflexivity.
Qed.
End CornersNarrow.

(** X14. When centres and sizes carry a single entry per cell,
    [yolo_boxes_to_corners] does not raise: the slices [1:2] are empty,
    and each cell of the result has two entries only, [x - w/2] and
    [x + w/2], instead of four corner coordinates. *)
Theorem yolo_boxes_to_corners_single_entry {num : Type} `{Numeric num}
        (St : Type) (s : list nat) (box_xy box_wh : tensor num) :
  shape box_xy = s ++ [1] -> shape box_wh = s ++ [1] ->
  wf box_xy -> wf box_wh ->
  returns (yolo_boxes_to_corners (St:=St) box_xy box_wh)
          (mkTensor (s ++ [2])
             (concat (map2 (fun x w => [nsub x (ndiv w (of_Q 2));
                                        nadd x (ndiv w (of_Q 2))])
                           (buf box_xy) (buf box_wh)))).
Proof.
  intros Sxy Swh Wxy Wwh st.
  assert (length (buf box_xy) = size s) as Lxy
      by (unfold wf in Wxy; rewrite Sxy, size_snoc in Wxy; lia).
  assert (length (buf box_wh) = size s) as Lwh
      by (unfold wf in Wwh; rewrite Swh, size_snoc in Wwh; lia).
  unfold yolo_boxes_to_corners, bind, call, tf.divide_scalar,
    tf.subtract, tf.add.
  rewrite !binary_same with (s := s ++ [1])
    by (auto; unfold wf in *; cbn [tf.scalar shape buf];
        now rewrite length_map).
  rewrite !slice_last_snoc with (s := s) (c := 1) by reflexivity.
  unfold tf.keras_backend_concatenate, tf.concat_onto.
  cbn [Nat.min Nat.sub].
  rewrite concat2_snoc with (s := s) (ca := 0) (cb := 1) by reflexivity.
  rewrite concat2_snoc with (s := s) (ca := 1) (cb := 0) by reflexivity.
  rewrite concat2_snoc with (s := s) (ca := 1) (cb := 1) by reflexivity.
  unfold cells, tf.scalar. cbn [shape buf Nat.min Nat.sub Nat.add].
  now rewrite (corners_buffer_narrow (size s)).
Qed.

Lemma yolo_boxes_to_corners_single_entry_witness :
  returns (yolo_boxes_to_corners (St:=unit) ex_narrow_xy ex_narrow_wh)
          (mkTensor ([1; 2; 1] ++ [2])
             (concat (map2 (fun x w => [nsub x (ndiv w (of_Q 2));
                                        nadd x (ndiv w (of_Q 2))])
                           (buf ex_narrow_xy) (buf ex_narrow_wh)))).
Proof.
  apply (yolo_boxes_to_corners_single_entry unit [1; 2; 1] ex_narrow_xy
           ex_narrow_wh);
    reflexivity.
Defined.

(* ================================================================== *)
(** ** [predict] *)

(** X15. When the model's outputs have no entry [conv2d_22], [predict]
    raises the error of the lookup in the state the model left: the head,
    [yolo_eval], the colours and the drawing do not run. *)
Theorem predict_missing_output {num : Type} `{Numeric num} (St : Type)
        (scale_boxes : tensor num -> list Z -> result (tensor num))
        (Frame Image ModelOutputs Colors Anchors : Type)
        (class_names : St -> list string) (anchors : St -> Anchors)
        (yolo_model : tensor num -> M St ModelOutputs)
        (preprocess_image : Frame -> Z * Z -> M St (Image * tensor num))
        (image_size : Image -> Z * Z)
        (getitem : ModelOutputs -> string -> result (tensor num))
        (yolo_head : tensor num -> Anchors -> nat -> M St (list (tensor num)))
        (get_colors_for_classes : nat -> M St Colors)
        (draw_boxes : Image -> tensor num -> tensor nat -> list string ->
                      tensor num -> M St Frame)
        (numpy_image : Frame) (st st1 st2 : St)
        (image : Image) (image_data : tensor num) (outs : ModelOutputs)
        (e : exn) :
  preprocess_image numpy_image (608, 608)%Z st
    = (Ok (image, image_data), st1) ->
  yolo_model image_data st1 = (Ok outs, st2) ->
  getitem outs "conv2d_22"%string = Err e ->
  predict scale_boxes class_names anchors yolo_model preprocess_image
          image_size getitem yolo_head get_colors_for_classes draw_boxes
          numpy_image st
    = (Err e, st2).
Proof.
  intros H1 H2 H3.
  unfold predict, predict_with, bind. rewrite H1, H2.
  unfold call. now rewrite H3.
Qed.

Lemma predict_missing_output_witness :
  predict scale_by_image_dims ex_class_names (fun _ => tt)
          (ex_yolo_model [("conv2d_21"%string, ex_xy)]) ex_preprocess_image
          (fun image => image) ex_getitem
          (ex_yolo_head [ex_xy; ex_wh; ex_confidence; ex_class_probs])
          ex_get_colors_for_classes ex_draw_boxes 0 []
    = (Err (KeyError "conv2d_22"), ["preprocess_image"; "yolo_model"]%string).
Proof.
  apply (predict_missing_output (list string) scale_by_image_dims
           nat (Z * Z)%type (list (string * tensor xrat)) nat unit
           ex_class_names (fun _ => tt)
           (ex_yolo_model [("conv2d_21"%string, ex_xy)]) ex_preprocess_image
           (fun image => image) ex_getitem
           (ex_yolo_head [ex_xy; ex_wh; ex_confidence; ex_class_probs])
           ex_get_colors_for_classes ex_draw_boxes 0 []
           ["preprocess_image"]%string ["preprocess_image"; "yolo_model"]%string
           (1280, 720)%Z ex_xy [("conv2d_21"%string, ex_xy)]
           (KeyError "conv2d_22"));
    reflexivity.
Defined.

(** X16. When [yolo_eval] raises on what the head gave, [predict] raises
    the same error in the state the head left: no colours are asked for
    and nothing is drawn. *)
Theorem predict_eval_error {num : Type} `{Numeric num} (St : Type)
        (scale_boxes : tensor num -> list Z -> result (tensor num))
        (Frame Image ModelOutputs Colors Anchors : Type)
        (class_names : St -> list string) (anchors : St -> Anchors)
        (yolo_model : tensor num -> M St ModelOutputs)
        (preprocess_image : Frame -> Z * Z -> M St (Image * tensor num))
        (image_size : Image -> Z * Z)
        (getitem : ModelOutputs -> string -> result (tensor num))
        (yolo_head : tensor num -> Anchors -> nat -> M St (list (tensor num)))
        (get_colors_for_classes : nat -> M St Colors)
        (draw_boxes : Image -> tensor num -> tensor nat -> list string ->
                      tensor num -> M St Frame)
        (numpy_image : Frame) (st st1 st2 st3 : St)
        (image : Image) (image_data conv : tensor num)
        (outs : ModelOutputs) (yolo_outputs : list (tensor num))
        (e : exn) :
  preprocess_image numpy_image (608, 608)%Z st
    = (Ok (image, image_data), st1) ->
  yolo_model image_data st1 = (Ok outs, st2) ->
  getitem outs "conv2d_22"%string = Ok conv ->
  yolo_head conv (anchors st2) (length (class_names st2)) st2
    = (Ok yolo_outputs, st3) ->
  fst (yolo_eval scale_boxes yolo_outputs
                 [snd (image_size image); fst (image_size image)] 10%Z
                 (of_Q (3 # 10)) (of_Q (5 # 10)) st3) = Err e ->
  predict scale_boxes class_names anchors yolo_model preprocess_image
          image_size getitem yolo_head get_colors_for_classes draw_boxes
          numpy_image st
    = (Err e, st3).
Proof.
  intros H1 H2 H3 H4 H5.
  unfold predict, predict_with, bind. rewrite H1, H2.
  unfold call, read. rewrite H3, H4.
  destruct (yolo_eval_stateless St scale_boxes yolo_outputs
              [snd (image_size image); fst (image_size image)] 10%Z
              (of_Q (3 # 10)) (of_Q (5 # 10))) as [r Hr].
  rewrite Hr in H5 |- *. cbn [fst] in H5. now rewrite H5.
Qed.

Lemma predict_eval_error_witness :
  predict scale_by_image_dims ex_class_names (fun _ => tt)
          (ex_yolo_model [("conv2d_22"%string, ex_xy)]) ex_preprocess_image
          (fun image => image) ex_getitem
          (ex_yolo_head [ex_xy; ex_wh; ex_confidence])
          ex_get_colors_for_classes ex_draw_boxes 0 []
    = (Err (ValueError "not enough values to unpack (expected 4, got 3)"),
       ["preprocess_image"; "yolo_model"; "yolo_head"]%string).
Proof.
  apply (predict_eval_error (list string) scale_by_image_dims
           nat (Z * Z)%type (list (string * tensor xrat)) nat unit
           ex_class_names (fun _ => tt)
           (ex_yolo_model [("conv2d_22"%string, ex_xy)]) ex_preprocess_image
           (fun image => image) ex_getitem
           (ex_yolo_head [ex_xy; ex_wh; ex_confidence])
           ex_get_colors_for_classes ex_draw_boxes 0 []
           ["preprocess_image"]%string ["preprocess_image"; "yolo_model"]%string
           ["preprocess_image"; "yolo_model"; "yolo_head"]%string
           (1280, 720)%Z ex_xy ex_xy [("conv2d_22"%string, ex_xy)]
           [ex_xy; ex_wh; ex_confidence]
           (ValueError "not enough values to unpack (expected 4, got 3)"));
    reflexivity.
Defined.

(** X17. On a well-formed grid from the head, [yolo_eval] (called with
    the image height and width, 10, 0.3 and 0.5) returns detections, and
    [predict] returns what [draw_boxes] returns on the image, the class
    names and these very detections, in the state the colours left; the
    detections drawn are at most 10, each with a score of at least 0.5
    (not the 0.3 passed as score threshold) and a class below the number
    of classes. *)
Theorem predict_draws_detections {num : Type} `{Numeric num} (St : Type)
        (scale_boxes : tensor num -> list Z -> result (tensor num))
        (Frame Image ModelOutputs Colors Anchors : Type)
        (class_names : St -> list string) (anchors : St -> Anchors)
        (yolo_model : tensor num -> M St ModelOutputs)
        (preprocess_image : Frame -> Z * Z -> M St (Image * tensor num))
        (image_size : Image -> Z * Z)
        (getitem : ModelOutputs -> string -> result (tensor num))
        (yolo_head : tensor num -> Anchors -> nat -> M St (list (tensor num)))
        (get_colors_for_classes : nat -> M St Colors)
        (draw_boxes : Image -> tensor num -> tensor nat -> list string ->
                      tensor num -> M St Frame)
        (numpy_image : Frame) (st st1 st2 st3 st4 : St)
        (image : Image) (image_data conv : tensor num)
        (outs : ModelOutputs) (colors : Colors)
        (s : list nat) (c : nat)
        (box_xy box_wh box_confidence box_class_probs : tensor num) :
  preprocess_image numpy_image (608, 608)%Z st
    = (Ok (image, image_data), st1) ->
  yolo_model image_data st1 = (Ok outs, st2) ->
  getitem outs "conv2d_22"%string = Ok conv ->
  yolo_head conv (anchors st2) (length (class_names st2)) st2
    = (Ok [box_xy; box_wh; box_confidence; box_class_probs], st3) ->
  get_colors_for_classes (length (class_names st3)) st3
    = (Ok colors, st4) ->
  s <> [] -> c <> 0 ->
  shape box_xy = s ++ [2] -> shape box_wh = s ++ [2] ->
  shape box_confidence = s ++ [1] -> shape box_class_probs = s ++ [c] ->
  wf box_xy -> wf box_wh -> wf box_confidence -> wf box_class_probs ->
  (forall k boxes, shape boxes = [k; 4] -> wf boxes ->
     exists scaled,
       scale_boxes boxes [snd (image_size image); fst (image_size image)]
         = Ok scaled /\
       shape scaled = [k; 4] /\ wf scaled) ->
  leb zero (of_Q (5 # 10)) && leb (of_Q (5 # 10)) one = true ->
  exists (scores boxes : tensor num) (classes : tensor nat) (k : nat),
    yolo_eval scale_boxes
              [box_xy; box_wh; box_confidence; box_class_probs]
              [snd (image_size image); fst (image_size image)] 10%Z
              (of_Q (3 # 10)) (of_Q (5 # 10)) st3
      = (Ok (scores, boxes, classes), st3) /\
    predict scale_boxes class_names anchors yolo_model preprocess_image
            image_size getitem yolo_head get_colors_for_classes draw_boxes
            numpy_image st
      = draw_boxes image boxes classes (class_names st4) scores st4 /\
    shape scores = [k] /\ shape boxes = [k; 4] /\ shape classes = [k] /\
    k <= 10 /\
    Forall (fun x => geb x (of_Q (5 # 10)) = true) (buf scores) /\
    Forall (fun j => j < c) (buf classes).
Proof.
  intros H1 H2 H3 H4 H5 Hs Hc Sxy Swh Sconf Sprobs Wxy Wwh Wconf Wprobs
         Hscale Hi.
  destruct (yolo_eval_detections St scale_boxes s c box_xy box_wh
              box_confidence box_class_probs
              [snd (image_size image); fst (image_size image)] 10%Z
              (of_Q (3 # 10)) (of_Q (5 # 10)) Hs Hc Sxy Swh Sconf Sprobs
              Wxy Wwh Wconf Wprobs Hscale ltac:(lia) Hi)
    as (scores & boxes & classes & from_cells & R
        & (Ss & Sb & Scl & Lk) & _ & _ & _ & G & Fc).
  exists scores, boxes, classes, (length from_cells).
  split; [exact (R st3)|].
  split; [|repeat (split; [assumption|]); split; [lia|now split]].
  unfold predict, predict_with, bind. rewrite H1, H2.
  unfold call, read. rewrite H3, H4, (R st3), H5. reflexivity.
Qed.

Lemma predict_draws_detections_witness :
  exists (scores boxes : tensor xrat) (classes : tensor nat) (k : nat),
    yolo_eval scale_by_image_dims
              [ex_xy; ex_wh; ex_confidence; ex_class_probs]
              [720; 1280]%Z 10%Z (of_Q (3 # 10)) (of_Q (5 # 10))
              ["preprocess_image"; "yolo_model"; "yolo_head"]%string
      = (Ok (scores, boxes, classes),
         ["preprocess_image"; "yolo_model"; "yolo_head"]%string) /\
    predict scale_by_image_dims ex_class_names (fun _ => tt)
            (ex_yolo_model [("conv2d_22"%string, ex_xy)]) ex_preprocess_image
            (fun image => image) ex_getitem
            (ex_yolo_head [ex_xy; ex_wh; ex_confidence; ex_class_probs])
            ex_get_colors_for_classes ex_draw_boxes 0 []
      = ex_draw_boxes (1280, 720)%Z boxes classes
          (ex_class_names
             ["preprocess_image"; "yolo_model"; "yolo_head";
              "get_colors_for_classes"]%string)
          scores
          ["preprocess_image"; "yolo_model"; "yolo_head";
           "get_colors_for_classes"]%string /\
    shape scores = [k] /\ shape boxes = [k; 4] /\ shape classes = [k] /\
    k <= 10 /\
    Forall (fun x => geb x (of_Q (5 # 10)) = true) (buf scores) /\
    Forall (fun j => j < 3) (buf classes).
Proof.
  apply (predict_draws_detections (list string) scale_by_image_dims
           nat (Z * Z)%type (list (string * tensor xrat)) nat unit
           ex_class_names (fun _ => tt)
           (ex_yolo_model [("conv2d_22"%string, ex_xy)]) ex_preprocess_image
           (fun image => image) ex_getitem
           (ex_yolo_head [ex_xy; ex_wh; ex_confidence; ex_class_probs])
           ex_get_colors_for_classes ex_draw_boxes 0 []
           ["preprocess_image"]%string ["preprocess_image"; "yolo_model"]%string
           ["preprocess_image"; "yolo_model"; "yolo_head"]%string
           ["preprocess_image"; "yolo_model"; "yolo_head";
            "get_colors_for_classes"]%string
           (1280, 720)%Z ex_xy ex_xy [("conv2d_22"%string, ex_xy)] 3
           [1; 2; 1] 3 ex_xy ex_wh ex_confidence ex_class_probs);
    try reflexivity; try discriminate; try lia.
  intros k boxes Sb Wb. now apply scale_by_image_dims_shape.
Defined.
